(** * SimulationBuilder of openfisca-core: population build, axis expansion,
      buffered inputs.

    Shallow embedding of [openfisca_core/simulation_builder.py].

    Conventions of the embedding.
    - A Python exception is a value of [error]; a function that can raise
      returns a [result].  When a method raises, the build is aborted, so
      the half-updated builder is not returned.
    - The builder's own dictionaries ([entity_counts], [input_buffer], ...)
      are finite maps; a JSON object of the situation is an association
      list, because the order of its keys fixes the index of an instance.
    - NumPy's floating point numbers are idealised as exact rationals, with
      one extra value [NaN] for the quotient 0/0 that NumPy produces for a
      one-point axis in the perpendicular branch.
    - The collaborators that are imported by the module (the variable
      registry, the period parser, the holders) are Section variables. *)

From Stdlib Require Import QArith Qcanon.
From stdpp Require Import base option list gmap sets strings pretty numbers
  sorting.

Local Open Scope string_scope.
Local Open Scope list_scope.
Local Open Scope nat_scope.
Set Warnings "-register-all,-clear-no-such-hyp".

(** ** Exceptions *)

(** The texts of the messages are formatted strings in the source; the
    embedding keeps what each text is built from. *)
Inductive message :=
  | InvalidType (json_type : string)
  | UnexpectedEntities (unexpected defined : list string)
  | NoPersonFound (person_key : string)
  | UnexpectedValue (person_id instance_id role_id persons_plural : string)
  | DeclaredMoreThanOnce (person_id entity_plural : string)
  | NotMembers (persons_to_allocate : gset string)
               (persons_plural entity_key : string)
  | ExpectedObject
  | Collaborator (text : string).

Inductive error :=
  | SituationParsingError (path : list string) (msg : message)
                          (code : option nat)
  | PeriodMismatchError (variable_name : string) (text : string)
  | IndexError
  | KeyError
  | ValueError.

Inductive result (A : Type) :=
  | Ok (a : A)
  | Err (e : error).
Arguments Ok {A} a.
Arguments Err {A} e.

Global Instance result_ret : MRet result := λ A a, Ok a.
Global Instance result_bind : MBind result := λ A B f m,
  match m with Ok a => f a | Err e => Err e end.

Global Instance result_fmap : FMap result := λ A B f m,
  match m with Ok a => Ok (f a) | Err e => Err e end.

(** [for x in xs: acc = body(acc, x)], stopping at the first exception. *)
Fixpoint foldM {A B} (body : B → A → result B) (xs : list A) (acc : B)
  : result B :=
  match xs with
  | [] => Ok acc
  | x :: xs' => acc' ← body acc x; foldM body xs' acc'
  end.

Global Arguments foldM : simpl never.

Lemma foldM_cons {A B} (body : B → A → result B) x xs acc :
  foldM body (x :: xs) acc = acc' ← body acc x; foldM body xs acc'.
Proof. done. Qed.

Lemma foldM_app {A B} (body : B → A → result B) xs ys acc :
  foldM body (xs ++ ys) acc = acc' ← foldM body xs acc; foldM body ys acc'.
Proof.
  revert acc. induction xs as [|x xs IH]; intros acc; [done|].
  rewrite <-app_comm_cons, !foldM_cons.
  destruct (body acc x); simpl; [apply IH|done].
Qed.

(** ** Numbers and NumPy arrays *)

Inductive num :=
  | Fin (q : Qc)
  | NaN.

Definition Qc_of_nat (n : nat) : Qc := Qc_of_Z (Z.of_nat n).

(** [np.linspace(start, stop, num)] for a non-negative [num]: the point of
    rank [k] is [start + k * (stop - start) / (num - 1)]; a single point is
    [start]. *)
Definition linspace (start stop : Qc) (n : nat) : list Qc :=
  (λ k, start + Qc_of_nat k * ((stop - start) / Qc_of_nat (n - 1)))%Qc
    <$> seq 0 n.

(** [l * n] on a Python list. *)
Definition list_times {A} (l : list A) (n : nat) : list A :=
  mjoin (replicate n l).

(** [np.repeat(x, n)]: every element [n] times in a row. *)
Definition np_repeat {A} (x : list A) (n : nat) : list A :=
  x ≫= replicate n.

(** The first index of the slice [array[idx::step]] of an array of length
    [len]: a negative index counts from the end, and both ends are
    clamped. *)
Definition slice_start (len : nat) (idx : Z) : nat :=
  if decide (idx < 0)%Z then Z.to_nat (idx + Z.of_nat len)
  else Nat.min (Z.to_nat idx) len.

(** The indices selected by [array[idx::step]], for [step > 0]. *)
Definition slice_indices (len : nat) (idx : Z) (step : nat) : list nat :=
  let start := slice_start len idx in
  (λ q, start + q * step) <$> seq 0 ((len - start + (step - 1)) / step).

(** [array[idx::step] = values]: NumPy writes when the shapes agree, or
    broadcasts a one-element [values]; a zero step and any other shape
    raise [ValueError]. *)
Definition set_strided {A} (array : list A) (idx : Z) (step : nat)
    (values : list A) : result (list A) :=
  if decide (step = 0) then Err ValueError else
  let ixs := slice_indices (length array) idx step in
  match values with
  | [v] =>
      Ok (foldl (λ a i, <[i := v]> a) array ixs)
  | _ =>
      if decide (length values = length ixs)
      then Ok (foldl (λ a iv, <[iv.1 := iv.2]> a) array (zip ixs values))
      else Err ValueError
  end.


(** [np.meshgrid] applied to the arrays [xs], with the default [indexing='xy'], each output
    already flattened in C order ([mesh.reshape(steps_count)]).  The grids
    have the shape of the lengths of [xs] with the first two swapped, and
    the [i]-th grid varies along the axis that carries [xs[i]]: it is
    [xs[i]] with every element repeated by the product of the later axes,
    tiled by the product of the earlier ones. *)
Definition xy_shape (shape : list nat) : list nat :=
  match shape with
  | n1 :: n2 :: rest => n2 :: n1 :: rest
  | _ => shape
  end.

Definition xy_axis (i : nat) : nat :=
  match i with 0 => 1 | 1 => 0 | _ => i end.

Definition product (l : list nat) : nat := foldr Nat.mul 1 l.

Definition meshgrid_flat {A} (xs : list (list A)) : list (list A) :=
  let shape := xy_shape (length <$> xs) in
  let axis_of i := if decide (length xs = 1) then 0 else xy_axis i in
  imap (λ i x,
          list_times (np_repeat x (product (drop (S (axis_of i)) shape)))
                     (product (take (axis_of i) shape)))
       xs.

(** ** Entity kinds, axes and the builder *)

Inductive Role :=
  | mkRole (key : string) (plural : option string) (max : option nat)
           (subroles : list Role).

Definition role_key (r : Role) : string := let (k, _, _, _) := r in k.
Definition role_plural (r : Role) : option string :=
  let (_, p, _, _) := r in p.
Definition role_max (r : Role) : option nat := let (_, _, m, _) := r in m.
Definition role_subroles (r : Role) : list Role :=
  let (_, _, _, s) := r in s.

Record entity := {
  entity_key : string;
  entity_plural : string;
  entity_roles : list Role;
}.

(** An axis of the situation: [axis['name']], [axis['count']], ...;
    [ax_index] is [None] when the key ['index'] is absent. *)
Record axis := {
  ax_name : string;
  ax_count : Z;
  ax_min : Qc;
  ax_max : Qc;
  ax_period : option string;
  ax_index : option Z;
}.

(** The keys of [input_buffer[variable]]: period strings, or Python's
    [None] when an axis has no period and the builder no default one. *)
Abbreviation pkey := (option string).
Abbreviation buffer := (gmap string (gmap pkey (list num))).

Record SimulationBuilder := {
  default_period : pkey;
  input_buffer : buffer;
  entity_counts : gmap string nat;
  entity_ids : gmap string (list string);
  memberships : gmap string (list Z);
  roles : gmap string (list (option Role));
  variable_entities : gmap string entity;
  axes : list (list axis);
  axes_entity_counts : gmap string nat;
  axes_entity_ids : gmap string (list string);
  axes_memberships : gmap string (list Z);
  axes_roles : gmap string (list (option Role));
}.

Definition init : SimulationBuilder := {|
  default_period := None; input_buffer := ∅; entity_counts := ∅;
  entity_ids := ∅; memberships := ∅; roles := ∅; variable_entities := ∅;
  axes := [[]]; axes_entity_counts := ∅; axes_entity_ids := ∅;
  axes_memberships := ∅; axes_roles := ∅ |}.

(** Assignments to one attribute of [self]. *)
Definition set_input_buffer (b : buffer) (self : SimulationBuilder) :=
  {| default_period := default_period self; input_buffer := b;
     entity_counts := entity_counts self; entity_ids := entity_ids self;
     memberships := memberships self; roles := roles self;
     variable_entities := variable_entities self; axes := axes self;
     axes_entity_counts := axes_entity_counts self;
     axes_entity_ids := axes_entity_ids self;
     axes_memberships := axes_memberships self;
     axes_roles := axes_roles self |}.

Definition set_entity_counts (c : gmap string nat) (self : SimulationBuilder) :=
  {| default_period := default_period self;
     input_buffer := input_buffer self;
     entity_counts := c; entity_ids := entity_ids self;
     memberships := memberships self; roles := roles self;
     variable_entities := variable_entities self; axes := axes self;
     axes_entity_counts := axes_entity_counts self;
     axes_entity_ids := axes_entity_ids self;
     axes_memberships := axes_memberships self;
     axes_roles := axes_roles self |}.

Definition set_entity_ids (i : gmap string (list string))
    (self : SimulationBuilder) :=
  {| default_period := default_period self;
     input_buffer := input_buffer self;
     entity_counts := entity_counts self; entity_ids := i;
     memberships := memberships self; roles := roles self;
     variable_entities := variable_entities self; axes := axes self;
     axes_entity_counts := axes_entity_counts self;
     axes_entity_ids := axes_entity_ids self;
     axes_memberships := axes_memberships self;
     axes_roles := axes_roles self |}.

Definition set_memberships (m : gmap string (list Z))
    (self : SimulationBuilder) :=
  {| default_period := default_period self;
     input_buffer := input_buffer self;
     entity_counts := entity_counts self; entity_ids := entity_ids self;
     memberships := m; roles := roles self;
     variable_entities := variable_entities self; axes := axes self;
     axes_entity_counts := axes_entity_counts self;
     axes_entity_ids := axes_entity_ids self;
     axes_memberships := axes_memberships self;
     axes_roles := axes_roles self |}.

Definition set_roles (r : gmap string (list (option Role)))
    (self : SimulationBuilder) :=
  {| default_period := default_period self;
     input_buffer := input_buffer self;
     entity_counts := entity_counts self; entity_ids := entity_ids self;
     memberships := memberships self; roles := r;
     variable_entities := variable_entities self; axes := axes self;
     axes_entity_counts := axes_entity_counts self;
     axes_entity_ids := axes_entity_ids self;
     axes_memberships := axes_memberships self;
     axes_roles := axes_roles self |}.

Definition set_axes (a : list (list axis)) (self : SimulationBuilder) :=
  {| default_period := default_period self;
     input_buffer := input_buffer self;
     entity_counts := entity_counts self; entity_ids := entity_ids self;
     memberships := memberships self; roles := roles self;
     variable_entities := variable_entities self; axes := a;
     axes_entity_counts := axes_entity_counts self;
     axes_entity_ids := axes_entity_ids self;
     axes_memberships := axes_memberships self;
     axes_roles := axes_roles self |}.

Definition set_axes_entity_counts (c : gmap string nat)
    (self : SimulationBuilder) :=
  {| default_period := default_period self;
     input_buffer := input_buffer self;
     entity_counts := entity_counts self; entity_ids := entity_ids self;
     memberships := memberships self; roles := roles self;
     variable_entities := variable_entities self; axes := axes self;
     axes_entity_counts := c;
     axes_entity_ids := axes_entity_ids self;
     axes_memberships := axes_memberships self;
     axes_roles := axes_roles self |}.

Definition set_axes_entity_ids (i : gmap string (list string))
    (self : SimulationBuilder) :=
  {| default_period := default_period self;
     input_buffer := input_buffer self;
     entity_counts := entity_counts self; entity_ids := entity_ids self;
     memberships := memberships self; roles := roles self;
     variable_entities := variable_entities self; axes := axes self;
     axes_entity_counts := axes_entity_counts self;
     axes_entity_ids := i;
     axes_memberships := axes_memberships self;
     axes_roles := axes_roles self |}.

Definition set_axes_memberships (m : gmap string (list Z))
    (self : SimulationBuilder) :=
  {| default_period := default_period self;
     input_buffer := input_buffer self;
     entity_counts := entity_counts self; entity_ids := entity_ids self;
     memberships := memberships self; roles := roles self;
     variable_entities := variable_entities self; axes := axes self;
     axes_entity_counts := axes_entity_counts self;
     axes_entity_ids := axes_entity_ids self;
     axes_memberships := m;
     axes_roles := axes_roles self |}.

Definition set_axes_roles (r : gmap string (list (option Role)))
    (self : SimulationBuilder) :=
  {| default_period := default_period self;
     input_buffer := input_buffer self;
     entity_counts := entity_counts self; entity_ids := entity_ids self;
     memberships := memberships self; roles := roles self;
     variable_entities := variable_entities self; axes := axes self;
     axes_entity_counts := axes_entity_counts self;
     axes_entity_ids := axes_entity_ids self;
     axes_memberships := axes_memberships self;
     axes_roles := r |}.

(** [d[k]], which raises [KeyError] on a missing key. *)
Definition getitem {K V} `{Countable K} (d : gmap K V) (k : K) : result V :=
  match d !! k with Some v => Ok v | None => Err KeyError end.

(** [d.get(k, fallback)] where [fallback] is an expression that can raise:
    Python evaluates the fallback before the call. *)
Definition get_or {K V} `{Countable K} (d : gmap K V) (k : K)
    (fallback : result V) : result V :=
  v ← fallback; Ok (default v (d !! k)).

Definition get_count (self : SimulationBuilder) (entity_name : string)
  : result nat :=
  get_or (axes_entity_counts self) entity_name
         (getitem (entity_counts self) entity_name).

Definition get_ids (self : SimulationBuilder) (entity_name : string)
  : result (list string) :=
  get_or (axes_entity_ids self) entity_name
         (getitem (entity_ids self) entity_name).

Definition get_memberships (self : SimulationBuilder) (entity_name : string)
  : list Z :=
  default (default [] (memberships self !! entity_name))
          (axes_memberships self !! entity_name).

Definition get_roles (self : SimulationBuilder) (entity_name : string)
  : list (option Role) :=
  default (default [] (roles self !! entity_name))
          (axes_roles self !! entity_name).

Definition get_variable_entity (self : SimulationBuilder)
    (variable_name : string) : result entity :=
  getitem (variable_entities self) variable_name.

Definition register_variable (variable_name : string) (e : entity)
    (self : SimulationBuilder) : SimulationBuilder :=
  {| default_period := default_period self;
     input_buffer := input_buffer self;
     entity_counts := entity_counts self; entity_ids := entity_ids self;
     memberships := memberships self; roles := roles self;
     variable_entities := <[variable_name := e]> (variable_entities self);
     axes := axes self;
     axes_entity_counts := axes_entity_counts self;
     axes_entity_ids := axes_entity_ids self;
     axes_memberships := axes_memberships self;
     axes_roles := axes_roles self |}.

Definition set_default_period (period : pkey) (self : SimulationBuilder)
  : SimulationBuilder :=
  {| default_period := period;
     input_buffer := input_buffer self;
     entity_counts := entity_counts self; entity_ids := entity_ids self;
     memberships := memberships self; roles := roles self;
     variable_entities := variable_entities self; axes := axes self;
     axes_entity_counts := axes_entity_counts self;
     axes_entity_ids := axes_entity_ids self;
     axes_memberships := axes_memberships self;
     axes_roles := axes_roles self |}.

(** [get_input]: creates [input_buffer[variable]] when it is missing, then
    returns [input_buffer[variable].get(period)]. *)
Definition get_input (b : buffer) (variable : string) (period : pkey)
  : buffer * option (list num) :=
  let b' := match b !! variable with
            | Some _ => b
            | None => <[variable := ∅]> b
            end in
  (b', b' !! variable ≫= (.!! period)).

(** [input_buffer[variable][period] = array], after [get_input] has made
    sure that [input_buffer[variable]] exists. *)
Definition buffer_set (b : buffer) (variable : string) (period : pkey)
    (array : list num) : buffer :=
  <[variable := <[period := array]> (default ∅ (b !! variable))]> b.

(** [add_parallel_axis]: [self.axes[0].append(axis)]. *)
Definition add_parallel_axis (a : axis) (self : SimulationBuilder)
  : result SimulationBuilder :=
  match axes self with
  | [] => Err IndexError
  | parallel_axes :: perpendicular =>
      Ok (set_axes ((parallel_axes ++ [a]) :: perpendicular) self)
  end.

(** [add_perpendicular_axis]: [self.axes.append([axis])]. *)
Definition add_perpendicular_axis (a : axis) (self : SimulationBuilder)
  : SimulationBuilder :=
  set_axes (axes self ++ [[a]]) self.

(** ** Situation documents *)

(** A JSON value of the situation.  An object keeps its keys in the order
    of the document. *)
Inductive json :=
  | JNull
  | JBool (b : bool)
  | JInt (z : Z)
  | JNum (q : Qc)
  | JStr (s : string)
  | JList (l : list json)
  | JDict (d : list (string * json)).

(** Python dictionaries whose order matters, as association lists:
    [d.get(k)], [d[k] = v] (in place when the key exists, else at the end)
    and [d.pop(k, None)]. *)
Fixpoint dict_get {V} (k : string) (d : list (string * V)) : option V :=
  match d with
  | [] => None
  | (k', v) :: d' => if decide (k' = k) then Some v else dict_get k d'
  end.

Fixpoint dict_set {V} (k : string) (v : V) (d : list (string * V))
  : list (string * V) :=
  match d with
  | [] => [(k, v)]
  | (k', v') :: d' =>
      if decide (k' = k) then (k, v) :: d' else (k', v') :: dict_set k v d'
  end.

Definition dict_pop {V} (k : string) (d : list (string * V))
  : option V * list (string * V) :=
  (dict_get k d, filter (λ kv, kv.1 ≠ k) d).

(** [l.index(x)], which raises [ValueError] when [x] is not in [l]. *)
Fixpoint list_index (x : string) (l : list string) : result nat :=
  match l with
  | [] => Err ValueError
  | y :: l' => if decide (y = x) then Ok 0 else S <$> list_index x l'
  end.

(** The truth value of a JSON value in [if x:]. *)
Definition truthy (x : json) : bool :=
  match x with
  | JNull => false
  | JBool b => b
  | JInt z => bool_decide (z ≠ 0%Z)
  | JNum q => bool_decide (q ≠ 0%Qc)
  | JStr s => bool_decide (s ≠ "")
  | JList l => bool_decide (l ≠ [])
  | JDict d => bool_decide (d ≠ [])
  end.

(** [check_type(input, dict, path)] and its two other uses; each returns
    the checked content. *)
Definition check_type_dict (input : json) (path : list string)
  : result (list (string * json)) :=
  match input with
  | JDict d => Ok d
  | _ => Err (SituationParsingError path (InvalidType "Object") None)
  end.

Definition check_type_list (input : json) (path : list string)
  : result (list json) :=
  match input with
  | JList l => Ok l
  | _ => Err (SituationParsingError path (InvalidType "Array") None)
  end.

Definition check_type_str (input : json) (path : list string)
  : result string :=
  match input with
  | JStr s => Ok s
  | _ => Err (SituationParsingError path (InvalidType "String") None)
  end.

(** [str(item)] for an item that is an [int] (a [bool] is one). *)
Definition str_of_int_item (item : json) : json :=
  match item with
  | JInt z => JStr (pretty z)
  | JBool b => JStr (if b then "True" else "False")
  | _ => item
  end.

Definition transform_to_strict_syntax (data : json) : json :=
  let data :=
    match data with
    | JStr _ | JInt _ | JBool _ => JList [data]
    | _ => data
    end in
  match data with
  | JList l => JList (str_of_int_item <$> l)
  | _ => data
  end.

(** [role.plural or role.key]. *)
Definition role_name (role : Role) : string :=
  match role_plural role with
  | Some p => if decide (p = "") then role_key role else p
  | None => role_key role
  end.

(** [iter_over_entity_members]: the pairs (role, person) of one instance,
    in the order of the roles; a role with subroles gives the subrole of
    the same rank to each of its persons, and [IndexError] when it has more
    persons than subroles. *)
Definition role_member (role : Role) (indexed : nat * json)
  : result (Role * json) :=
  let '(legacy_role_j, individu) := indexed in
  match role_subroles role with
  | [] => Ok (role, individu)
  | subroles =>
      match subroles !! legacy_role_j with
      | Some subrole => Ok (subrole, individu)
      | None => Err IndexError
      end
  end.

Definition role_members (scenario_entity : list (string * json))
    (role : Role) : result (list (Role * json)) :=
  let role_name := role_name role in
  match dict_get role_name scenario_entity with
  | Some individus =>
      if truthy individus then
        let individus :=
          match individus with JList l => l | _ => [individus] end in
        mapM (role_member role) (zip (seq 0 (length individus)) individus)
      else Ok []
  | None => Ok []
  end.

Definition iter_over_entity_members (entity_description : entity)
    (scenario_entity : list (string * json)) : result (list (Role * json)) :=
  mjoin <$> mapM (role_members scenario_entity)
                 (entity_roles entity_description).

(** ** The situation normaliser *)

(** [tax_benefit_system.entities_plural()] and
    [tax_benefit_system.entities_by_singular()[singular]] for a system given
    by the list of its entity kinds. *)
Definition entities_plural (tax_benefit_system : list entity) : list string :=
  entity_plural <$> tax_benefit_system.

Definition entities_by_singular (tax_benefit_system : list entity)
    (singular : string) : option entity :=
  head (reverse (filter (λ e, entity_key e = singular) tax_benefit_system)).

(** The keys of [set(input_dict).intersection(entities_by_singular())] are
    visited in the order of the document. *)
Definition explicit_singular_entities (tax_benefit_system : list entity)
    (input_dict : list (string * json)) : list (string * json) :=
  let singular_keys :=
    filter (λ k, is_Some (entities_by_singular tax_benefit_system k))
           (remove_dups input_dict.*1) in
  if decide (singular_keys = []) then input_dict else
  let result :=
    filter (λ kv, kv.1 ∈ entities_plural tax_benefit_system) input_dict in
  foldl (λ result singular,
           match entities_by_singular tax_benefit_system singular,
                 dict_get singular input_dict with
           | Some e, Some description =>
               dict_set (entity_plural e)
                        (JDict [(singular, description)]) result
           | _, _ => result
           end)
        result singular_keys.

(** One round of the loop [for singular in singular_keys] of
    [explicit_singular_entities]. *)
Definition explicit_singular_entity (tax_benefit_system : list entity)
    (input_dict result : list (string * json)) (singular : string)
  : list (string * json) :=
  match entities_by_singular tax_benefit_system singular,
        dict_get singular input_dict with
  | Some e, Some description =>
      dict_set (entity_plural e) (JDict [(singular, description)]) result
  | _, _ => result
  end.

(** [build_from_dict], given the two methods that it chooses from, which
    build the simulation. *)
Definition build_from_dict {A}
    (build_from_entities build_from_variables : list (string * json) → A)
    (tax_benefit_system : list entity) (input_dict : list (string * json))
  : A :=
  let input_dict := explicit_singular_entities tax_benefit_system input_dict in
  if decide (Exists (λ key, key ∈ entities_plural tax_benefit_system)
                    input_dict.*1)
  then build_from_entities input_dict
  else build_from_variables input_dict.

(** The checks of [build_from_entities] on the document, which come before
    the entities are added: the document is an object, its axes are taken
    out of it, its other keys are plural names of entities, and it has
    persons.  They give the axes, the document without them and the
    persons. *)
Definition build_from_entities_checks (tax_benefit_system : list entity)
    (person_entity : entity) (input_dict : json)
  : result (option json * list (string * json) * json) :=
  input_dict ← check_type_dict input_dict ["error"];
  let '(axes, input_dict) := dict_pop "axes" input_dict in
  let unexpected_entities :=
    filter (λ entity, entity ∉ entities_plural tax_benefit_system)
           input_dict.*1 in
  match unexpected_entities with
  | unexpected_entity :: _ =>
      Err (SituationParsingError [unexpected_entity]
             (UnexpectedEntities unexpected_entities
                (entities_plural tax_benefit_system)) None)
  | [] =>
      let persons_json :=
        default JNull (dict_get (entity_plural person_entity) input_dict) in
      if truthy persons_json then Ok (axes, input_dict, persons_json)
      else Err (SituationParsingError [entity_plural person_entity]
                  (NoPersonFound (entity_key person_entity)) None)
  end.

(** ** The collaborators *)

(** What the module imports from the rest of the library: the variable
    registry, the period parser and the holders. *)
Inductive defined_for_entity :=
  | Defined
  | DefinedForAnother (text : string)   (* ValueError *)
  | NotFound (text : string).           (* VariableNotFound *)

Inductive checked :=
  | CheckedValue (v : num)
  | Rejected (text : string).           (* ValueError *)

Inductive parsed (Period : Type) :=
  | ParsedPeriod (p : Period)
  | Unparsable (text : string).         (* ValueError *)
Arguments ParsedPeriod {Period} p.
Arguments Unparsable {Period} text.

Class Collaborators := {
  (** [variable.default_array(size)] for the variable of that name. *)
  default_array : string → nat → list num;
  (** [entity.check_variable_defined_for_entity(variable_name)]. *)
  check_variable_defined_for_entity : entity → string → defined_for_entity;
  (** [variable.check_set_value(value)] for the variable of that name. *)
  check_set_value : string → json → checked;
  (** The content of a fresh [np.empty(n, dtype = np.int32)]: whatever
      the memory holds. *)
  uninitialised : nat → Z;
  (** The periods of [openfisca_core.periods], with [make_period],
      [str(period)], and [key_period_size] with the order [<] of its
      keys. *)
  Period : Type;
  make_period : pkey → parsed Period;
  str_period : Period → string;
  PeriodKey : Type;
  key_period_size : Period → PeriodKey;
  key_lt : PeriodKey → PeriodKey → bool;
  (** [entity.get_holder(variable_name)] raises [ValueError] for a
      variable of another entity ([false]); [holder.set_input(period,
      array)] may raise. *)
  get_holder : entity → string → bool;
  set_input : string → Period → list num → option error;
}.

(** ** Axis expansion *)

Section Builder.

Context `{!Collaborators}.

(** [axis['period'] or self.default_period]. *)
Definition axis_period_of (default_period : pkey) (a : axis) : pkey :=
  match ax_period a with
  | Some p => if decide (p = "") then default_period else Some p
  | None => default_period
  end.

(** The body of the two loops "Distribute values along axes or spaces":
    fetch or create the array of the axis, write [values] at its strided
    slot, store the array. *)
Definition distribute (default_period : pkey)
    (axis_entity_count axis_entity_step_size : nat)
    (values : axis → list num) (b : buffer) (a : axis) : result buffer :=
  let axis_index := default 0%Z (ax_index a) in
  let axis_period := axis_period_of default_period a in
  let axis_name := ax_name a in
  let '(b, array) := get_input b axis_name axis_period in
  let array := default (default_array axis_name axis_entity_count) array in
  array ← set_strided array axis_index axis_entity_step_size (values a);
  Ok (buffer_set b axis_name axis_period array).

(** [[id + str(ix) for id, ix in zip(ids * count, np.arange(0, count))]]. *)
Definition adjust_ids (ids : list string) (axis_entity_count : nat)
  : list string :=
  zip_with (λ id ix, id +:+ pretty ix)
           (list_times ids axis_entity_count) (seq 0 axis_entity_count).

(** [np.array(memberships * count) + np.repeat(np.arange(0, count),
    len(memberships)) * step]. *)
Definition adjust_memberships (original_memberships : list Z)
    (axis_count axis_entity_step_size : nat) : list Z :=
  zip_with Z.add
    (list_times original_memberships axis_count)
    ((λ k, Z.of_nat (k * axis_entity_step_size))
       <$> np_repeat (seq 0 axis_count) (length original_memberships)).

(** The branch [len(self.axes) == 1 and len(self.axes[0])].  The counts
    are kept as naturals: with a negative [count] the method raises
    [ValueError] in the first round of the loop ([np.empty] and
    [np.linspace] both refuse it). *)
Definition expand_parallel (self : SimulationBuilder)
    (parallel_axes : list axis) (first_axis : axis)
  : result SimulationBuilder :=
  let axis_count := Z.to_nat (ax_count first_axis) in
  axis_entity ← get_variable_entity self (ax_name first_axis);
  let plural := entity_plural axis_entity in
  axis_entity_step_size ← get_count self plural;
  (* Adjust counts *)
  let axis_entity_count := axis_count * axis_entity_step_size in
  let self :=
    set_axes_entity_counts
      (<[plural := axis_entity_count]> (axes_entity_counts self)) self in
  (* Adjust ids *)
  ids ← get_ids self plural;
  let self :=
    set_axes_entity_ids
      (<[plural := adjust_ids ids axis_entity_count]> (axes_entity_ids self))
      self in
  (* Adjust roles *)
  let original_roles := get_roles self plural in
  let self :=
    set_axes_roles
      (<[plural := list_times original_roles axis_count]> (axes_roles self))
      self in
  (* Adjust memberships *)
  let original_memberships := get_memberships self plural in
  let self :=
    if decide (length original_memberships = 0) then self
    else set_axes_memberships
           (<[plural := adjust_memberships original_memberships axis_count
                          axis_entity_step_size]> (axes_memberships self))
           self in
  (* Distribute values along axes or spaces *)
  if decide (ax_count first_axis < 0)%Z then Err ValueError else
  b ← foldM (distribute (default_period self) axis_entity_count
               axis_entity_step_size
               (λ a, Fin <$> linspace (ax_min a) (ax_max a) axis_count))
            parallel_axes (input_buffer self);
  Ok (set_input_buffer b self).

(** [parallel_axes[0]]. *)
Definition first_of (parallel_axes : list axis) : result axis :=
  match parallel_axes with
  | first_axis :: _ => Ok first_axis
  | [] => Err IndexError
  end.

(** [min + g * (max - min) / (count - 1)] for a grid coordinate [g]; the
    divisor is zero for a one-point axis, whose only coordinate is 0. *)
Definition grid_value (a : axis) (axis_count : Z) (g : Qc) : num :=
  if decide (axis_count - 1 = 0)%Z then NaN
  else Fin (ax_min a + g * (ax_max a - ax_min a)
                        / Qc_of_Z (axis_count - 1))%Qc.

(** The body of the first loop over the groups: the number of
    combinations and the size of the entity of each group. *)
Definition group_size (self : SimulationBuilder)
    (sizes : nat * gmap string nat) (parallel_axes : list axis)
  : result (nat * gmap string nat) :=
  let '(steps_count, entity_sizes) := sizes in
  first_axis ← first_of parallel_axes;
  let steps_count := steps_count * Z.to_nat (ax_count first_axis) in
  axis_entity ← get_variable_entity self (ax_name first_axis);
  size ← get_count self (entity_plural axis_entity);
  Ok (steps_count, <[entity_plural axis_entity := size]> entity_sizes).

(** The body of the second loop, over the groups and their grids. *)
Definition expand_group (steps_count : nat)
    (entity_sizes : gmap string nat) (self : SimulationBuilder)
    (group : list axis * list Qc) : result SimulationBuilder :=
  let '(parallel_axes, mesh) := group in
  first_axis ← first_of parallel_axes;
  let axis_count := ax_count first_axis in
  axis_entity ← get_variable_entity self (ax_name first_axis);
  let plural := entity_plural axis_entity in
  (* Adjust counts *)
  axis_entity_step_size ← getitem entity_sizes plural;
  let axis_entity_count := steps_count * axis_entity_step_size in
  let self :=
    set_axes_entity_counts
      (<[plural := axis_entity_count]> (axes_entity_counts self)) self in
  (* Adjust ids *)
  ids ← get_ids self plural;
  let self :=
    set_axes_entity_ids
      (<[plural := adjust_ids ids axis_entity_count]>
         (axes_entity_ids self)) self in
  (* Distribute values along axes or spaces *)
  b ← foldM (distribute (default_period self) axis_entity_count
               axis_entity_step_size
               (λ a, grid_value a axis_count <$> mesh))
            parallel_axes (input_buffer self);
  Ok (set_input_buffer b self).

(** The other branch: several perpendicular groups, or no axis at all. *)
Definition expand_perpendicular (self : SimulationBuilder)
  : result SimulationBuilder :=
  axes_linspaces ←
    mapM (λ parallel_axes,
            first_axis ← first_of parallel_axes;
            if decide (ax_count first_axis < 0)%Z then Err ValueError
            else Ok (linspace 0 (Qc_of_Z (ax_count first_axis - 1))
                              (Z.to_nat (ax_count first_axis))))
         (axes self);
  let axes_meshes := meshgrid_flat axes_linspaces in
  sizes ← foldM (group_size self) (axes self) (1, ∅);
  let '(steps_count, entity_sizes) := sizes in
  foldM (expand_group steps_count entity_sizes)
        (zip (axes self) axes_meshes) self.

Definition expand_axes (self : SimulationBuilder)
  : result SimulationBuilder :=
  let self := set_axes_entity_counts ∅ self in
  match axes self with
  | [(first_axis :: _) as parallel_axes] =>
      expand_parallel self parallel_axes first_axis
  | _ => expand_perpendicular self
  end.

(** ** Variable ingestion *)

Definition add_variable_value (self : SimulationBuilder) (e : entity)
    (variable_name : string) (instance_index : nat) (instance_id : string)
    (period_str : string) (value : json) : result SimulationBuilder :=
  let path_in_json :=
    [entity_plural e; instance_id; variable_name; period_str] in
  match value with
  | JNull => Ok self
  | _ =>
      let '(b, array) :=
        get_input (input_buffer self) variable_name (Some period_str) in
      array ← match array with
              | Some array => Ok array
              | None =>
                  array_size ← get_count self (entity_plural e);
                  Ok (default_array variable_name array_size)
              end;
      value ← match check_set_value variable_name value with
              | CheckedValue v => Ok v
              | Rejected text =>
                  Err (SituationParsingError path_in_json
                         (Collaborator text) None)
              end;
      if decide (instance_index < length array) then
        Ok (set_input_buffer
              (buffer_set b variable_name (Some period_str)
                 (<[instance_index := value]> array)) self)
      else Err IndexError
  end.

Definition init_variable_values (self : SimulationBuilder) (e : entity)
    (instance_object : list (string * json)) (instance_id : string)
  : result SimulationBuilder :=
  foldM (λ self '(variable_name, variable_values),
           let path_in_json :=
             [entity_plural e; instance_id; variable_name] in
           _ ← match check_variable_defined_for_entity e variable_name with
               | Defined => Ok ()
               | DefinedForAnother text =>
                   Err (SituationParsingError path_in_json
                          (Collaborator text) None)
               | NotFound text =>
                   Err (SituationParsingError path_in_json
                          (Collaborator text) (Some 404))
               end;
           ids ← get_ids self (entity_plural e);
           instance_index ← list_index instance_id ids;
           variable_values ←
             match variable_values with
             | JDict d => Ok d
             | _ =>
                 match default_period self with
                 | None =>
                     Err (SituationParsingError path_in_json
                            ExpectedObject None)
                 | Some period => Ok [(period, variable_values)]
                 end
             end;
           foldM (λ self '(period, value),
                    _ ← match make_period (Some period) with
                        | ParsedPeriod _ => Ok ()
                        | Unparsable text =>
                            Err (SituationParsingError path_in_json
                                   (Collaborator text) None)
                        end;
                    add_variable_value self e variable_name instance_index
                      instance_id period value)
                 variable_values self)
        instance_object self.

(** ** The population builder *)

(** The body of the loop of [add_person_entity] over the instances. *)
Definition add_person_instance (e : entity) (self : SimulationBuilder)
    (instance : string * json) : result SimulationBuilder :=
  let '(instance_id, instance_object) := instance in
  instance_object ← check_type_dict instance_object
                      [entity_plural e; instance_id];
  init_variable_values self e instance_object instance_id.

(** [add_person_entity], which returns the identifiers of the persons
    beside the builder.  The attribute [persons_entity] that it sets is
    read nowhere in the module: it is not part of [SimulationBuilder]. *)
Definition add_person_entity (self : SimulationBuilder) (e : entity)
    (instances_json : json) : result (SimulationBuilder * list string) :=
  instances_json ← check_type_dict instances_json [entity_plural e];
  let ids := instances_json.*1 in
  let self :=
    set_entity_ids (<[entity_plural e := ids]> (entity_ids self)) self in
  let self :=
    set_entity_counts
      (<[entity_plural e := length ids]> (entity_counts self)) self in
  self ← foldM (add_person_instance e) instances_json self;
  ids ← get_ids self (entity_plural e);
  Ok (self, ids).

Definition check_persons_to_allocate (persons_plural entity_plural : string)
    (persons_ids : list string) (person_id : json)
    (entity_id role_id : string) (persons_to_allocate : gset string)
    (index : nat) : result string :=
  person_id ← check_type_str person_id
                [entity_plural; entity_id; role_id; pretty index];
  if decide (person_id ∉ persons_ids) then
    Err (SituationParsingError [entity_plural; entity_id; role_id]
           (UnexpectedValue person_id entity_id role_id persons_plural) None)
  else if decide (person_id ∉ persons_to_allocate) then
    Err (SituationParsingError [entity_plural; entity_id; role_id]
           (DeclaredMoreThanOnce person_id entity_plural) None)
  else Ok person_id.

(** The dictionary [roles_json] of one instance, with what is left of
    [variables_json] once the roles are popped. *)
Definition split_role (split : list (string * json) * list (string * json))
    (role : Role) : list (string * json) * list (string * json) :=
  let '(roles_json, variables_json) := split in
  let '(definition, variables_json) :=
    dict_pop (role_name role) variables_json in
  (dict_set (role_name role)
     (transform_to_strict_syntax (default (JList []) definition))
     roles_json,
   variables_json).

Definition split_roles (e : entity) (instance_object : list (string * json))
  : list (string * json) * list (string * json) :=
  foldl split_role ([], instance_object) (entity_roles e).

(** The state of the loop over the instances: the builder, the set of the
    persons still to allocate and the two arrays, which the source fills in
    place inside [self.memberships] and [self.roles]. *)
Record allocation := {
  al_self : SimulationBuilder;
  al_persons_to_allocate : gset string;
  al_memberships : list Z;
  al_roles : list (option Role);
}.

(** The body of the loop over the persons of a role: the checks of
    [check_persons_to_allocate], then
    [persons_to_allocate.discard(person_id)]. *)
Definition allocate_person (persons_plural : string)
    (persons_ids : list string) (e : entity) (instance_id role_id : string)
    (persons_to_allocate : gset string) (indexed : nat * json)
  : result (gset string) :=
  let '(index, person_id) := indexed in
  person_id ←
    check_persons_to_allocate persons_plural (entity_plural e) persons_ids
      person_id instance_id role_id persons_to_allocate index;
  Ok (persons_to_allocate ∖ {[person_id]}).

(** The body of the loop [for role_id, role_definition in
    roles_json.items()]. *)
Definition allocate_role (persons_plural : string)
    (persons_ids : list string) (e : entity) (instance_id : string)
    (persons_to_allocate : gset string) (role : string * json)
  : result (gset string) :=
  let '(role_id, role_definition) := role in
  role_definition ← check_type_list role_definition
                      [entity_plural e; instance_id; role_id];
  foldM (allocate_person persons_plural persons_ids e instance_id role_id)
        (zip (seq 0 (length role_definition)) role_definition)
        persons_to_allocate.

(** The body of the loop [for person_role, person_id in
    iter_over_entity_members(entity, roles_json)]. *)
Definition set_member (persons_ids : list string) (entity_index : nat)
    (arrays : list Z * list (option Role)) (member : Role * json)
  : result (list Z * list (option Role)) :=
  let '(memberships, roles) := arrays in
  let '(person_role, person_id) := member in
  person_id ← match person_id with
              | JStr s => Ok s
              | _ => Err ValueError
              end;
  person_index ← list_index person_id persons_ids;
  if decide (person_index < length memberships) then
    Ok (<[person_index := Z.of_nat entity_index]> memberships,
        <[person_index := Some person_role]> roles)
  else Err IndexError.

Definition add_group_instance (persons_plural : string)
    (persons_ids : list string) (e : entity) (entity_ids : list string)
    (al : allocation) (instance : string * json) : result allocation :=
  let '(instance_id, instance_object) := instance in
  instance_object ← check_type_dict instance_object
                      [entity_plural e; instance_id];
  let '(roles_json, variables_json) := split_roles e instance_object in
  persons_to_allocate ←
    foldM (allocate_role persons_plural persons_ids e instance_id)
          roles_json (al_persons_to_allocate al);
  entity_index ← list_index instance_id entity_ids;
  members ← iter_over_entity_members e roles_json;
  arrays ← foldM (set_member persons_ids entity_index) members
                 (al_memberships al, al_roles al);
  self ← init_variable_values (al_self al) e variables_json instance_id;
  Ok {| al_self := self; al_persons_to_allocate := persons_to_allocate;
        al_memberships := arrays.1; al_roles := arrays.2 |}.

(** The state before the loop: the identifiers and the size of the entity
    are recorded, every person is to allocate, and the two arrays are
    fresh. *)
Definition start_allocation (self : SimulationBuilder)
    (persons_ids : list string) (e : entity) (ids : list string)
  : allocation :=
  let self :=
    set_entity_ids (<[entity_plural e := ids]> (entity_ids self)) self in
  let self :=
    set_entity_counts
      (<[entity_plural e := length ids]> (entity_counts self)) self in
  let persons_count := length persons_ids in
  {| al_self := self;
     al_persons_to_allocate := list_to_set persons_ids;
     al_memberships := uninitialised <$> seq 0 persons_count;
     al_roles := replicate persons_count None |}.

Definition add_group_entity (self : SimulationBuilder)
    (persons_plural : string) (persons_ids : list string) (e : entity)
    (instances_json : json) : result SimulationBuilder :=
  instances_json ← check_type_dict instances_json [entity_plural e];
  let ids := instances_json.*1 in
  al ← foldM (add_group_instance persons_plural persons_ids e ids)
             instances_json (start_allocation self persons_ids e ids);
  let self :=
    set_roles (<[entity_plural e := al_roles al]> (roles (al_self al)))
              (al_self al) in
  let self :=
    set_memberships
      (<[entity_plural e := al_memberships al]> (memberships self)) self in
  if decide (al_persons_to_allocate al ≠ ∅) then
    Err (SituationParsingError [entity_plural e]
           (NotMembers (al_persons_to_allocate al) persons_plural
                       (entity_key e)) None)
  else Ok self.

(** The end of [build_from_entities]: the axes of the document are added
    one by one, then expanded when the document has any. *)
Definition build_from_entities_axes
    (axes_json : option (list (list (list axis))))
    (self : SimulationBuilder) : result SimulationBuilder :=
  self ←
    foldM (λ self perpendicular_dimensions,
             foldM (λ self parallel_axes,
                      foldM (λ self a, add_parallel_axis a self)
                            parallel_axes self)
                   perpendicular_dimensions self)
          (default [] axes_json) self;
  if decide (default [] axes_json ≠ []) then expand_axes self else Ok self.

(** ** The finaliser *)

(** A population of the simulation ([simulation.persons], ...), with the
    inputs that its holders have received. *)
Record population := {
  pop_entity : entity;
  pop_count : option nat;
  pop_ids : option (list string);
  pop_members_entity_id : option (list Z);
  pop_members_role : option (list (option Role));
  pop_inputs : list (string * Period * list num);
}.

(** [sorted(periods, key=key_period_size)]: a stable sort that compares
    the keys with [<]. *)
Fixpoint insert_period (x : Period) (l : list Period) : list Period :=
  match l with
  | [] => [x]
  | y :: l' =>
      if key_lt (key_period_size y) (key_period_size x)
      then y :: insert_period x l'
      else x :: l
  end.

Definition sorted (periods : list Period) : list Period :=
  foldr insert_period [] periods.

(** [for period in sorted_periods: holder.set_input(period,
    buffer[str(period)])], with the inputs set so far and the exception
    that stopped the loop, if any. *)
Fixpoint commit_periods (variable_name : string)
    (buf : gmap pkey (list num)) (sorted_periods : list Period)
    (inputs : list (string * Period * list num))
  : list (string * Period * list num) * option error :=
  match sorted_periods with
  | [] => (inputs, None)
  | period :: rest =>
      match buf !! Some (str_period period) with
      | None => (inputs, Some KeyError)
      | Some array =>
          match set_input variable_name period array with
          | Some e => (inputs, Some e)
          | None =>
              commit_periods variable_name buf rest
                (inputs ++ [(variable_name, period, array)])
          end
      end
  end.

(** [[make_period(period_str) for period_str in buffer.keys()]]. *)
Definition make_periods (keys : list pkey) : result (list Period) :=
  mapM (λ period_str,
          match make_period period_str with
          | ParsedPeriod p => Ok p
          | Unparsable _ => Err ValueError
          end) keys.

(** The loop [for variable_name in self.input_buffer.keys()]. *)
Fixpoint commit_variables (e : entity)
    (variables : list (string * gmap pkey (list num)))
    (inputs : list (string * Period * list num))
  : list (string * Period * list num) * option error :=
  match variables with
  | [] => (inputs, None)
  | (variable_name, buf) :: rest =>
      if get_holder e variable_name then
        match make_periods (map_to_list buf).*1 with
        | Err err => (inputs, Some err)
        | Ok periods =>
            match commit_periods variable_name buf (sorted periods) inputs
            with
            | (inputs, Some err) => (inputs, Some err)
            | (inputs, None) => commit_variables e rest inputs
            end
        end
      else commit_variables e rest inputs
  end.

Definition finalize_variables_init (self : SimulationBuilder)
    (pop : population) : population * option error :=
  let e := pop_entity pop in
  let plural := entity_plural e in
  let '(c, i, raised) :=
    match entity_counts self !! plural with
    | Some _ =>
        match get_count self plural, get_ids self plural with
        | Ok c, Ok i => (Some c, Some i, None)
        | Err err, _ => (pop_count pop, pop_ids pop, Some err)
        | Ok c, Err err => (Some c, pop_ids pop, Some err)
        end
    | None => (pop_count pop, pop_ids pop, None)
    end in
  match raised with
  | Some err =>
      ({| pop_entity := e; pop_count := c; pop_ids := i;
          pop_members_entity_id := pop_members_entity_id pop;
          pop_members_role := pop_members_role pop;
          pop_inputs := pop_inputs pop |}, Some err)
  | None =>
      let '(m, r) :=
        match memberships self !! plural with
        | Some _ =>
            (Some (get_memberships self plural),
             Some (get_roles self plural))
        | None => (pop_members_entity_id pop, pop_members_role pop)
        end in
      let '(inputs, err) :=
        commit_variables e (map_to_list (input_buffer self))
                         (pop_inputs pop) in
      ({| pop_entity := e; pop_count := c; pop_ids := i;
          pop_members_entity_id := m; pop_members_role := r;
          pop_inputs := inputs |}, err)
  end.

(** ** Notions used by the properties *)

(** The array buffered for a variable and a period, if any. *)
Definition buffer_get (b : buffer) (variable : string) (period : pkey)
  : option (list num) :=
  b !! variable ≫= (.!! period).

(** The builder that the parallel branch returns, field by field. *)
Definition parallel_expansion (self : SimulationBuilder) (first_axis : axis)
    (e : entity) (step : nat) (ids : list string) (b : buffer)
  : SimulationBuilder :=
  let plural := entity_plural e in
  let n := Z.to_nat (ax_count first_axis) in
  {| default_period := default_period self; input_buffer := b;
     entity_counts := entity_counts self; entity_ids := entity_ids self;
     memberships := memberships self; roles := roles self;
     variable_entities := variable_entities self; axes := axes self;
     axes_entity_counts := <[plural := n * step]> (axes_entity_counts self);
     axes_entity_ids :=
       <[plural := adjust_ids ids (n * step)]> (axes_entity_ids self);
     axes_memberships :=
       if decide (length (get_memberships self plural) = 0)
       then axes_memberships self
       else <[plural := adjust_memberships (get_memberships self plural)
                          n step]> (axes_memberships self);
     axes_roles :=
       <[plural := list_times (get_roles self plural) n]>
         (axes_roles self) |}.

(** A string of decimal digits. *)
Fixpoint digits (s : string) : Prop :=
  match s with
  | EmptyString => True
  | String c s' => is_Some (Ascii.is_nat c) ∧ digits s'
  end.

(** No identifier is another one (or itself) followed by decimal digits. *)
Definition no_digit_extension (ids : list string) : Prop :=
  ∀ x y d, x ∈ ids → y ∈ ids → x = y +:+ d → digits d → d = "".

(** An entry of a canonical document: its key is the plural name of an
    entity kind, and it is either an entry of the input or the shortcut of
    the input under the plural name of its kind. *)
Definition canonical_entry (tax_benefit_system : list entity)
    (input_dict : list (string * json)) (kv : string * json) : Prop :=
  kv.1 ∈ entities_plural tax_benefit_system
  ∧ (kv ∈ input_dict
     ∨ ∃ singular e description,
         (singular, description) ∈ input_dict
         ∧ entities_by_singular tax_benefit_system singular = Some e
         ∧ kv = (entity_plural e, JDict [(singular, description)])).

(** A period is not larger than another one. *)
Definition period_le (p q : Period) : Prop :=
  ¬ key_lt (key_period_size q) (key_period_size p).

(** Two inputs of one variable come with the smaller period first. *)
Definition smaller_first (c1 c2 : string * Period * list num) : Prop :=
  c1.1.1 = c2.1.1 → period_le c1.1.2 c2.1.2.

(** The input that the loop sets for a period. *)
Definition input_of (variable_name : string) (buf : gmap pkey (list num))
    (period : Period) : string * Period * list num :=
  (variable_name, period, default [] (buf !! Some (str_period period))).



(** One strided write of [expand_axes]: the variable and the period of an
    axis, its slot, the size of the array to create if there is none, the
    stride and the values. *)
Record write_job := {
  job_name : string;
  job_period : pkey;
  job_index : Z;
  job_count : nat;
  job_step : nat;
  job_values : list num;
}.

Definition job_of (default_period : pkey)
    (axis_entity_count axis_entity_step_size : nat)
    (values : axis → list num) (a : axis) : write_job :=
  {| job_name := ax_name a;
     job_period := axis_period_of default_period a;
     job_index := default 0%Z (ax_index a);
     job_count := axis_entity_count;
     job_step := axis_entity_step_size;
     job_values := values a |}.

Definition run_job (b : buffer) (j : write_job) : result buffer :=
  array ← set_strided
             (default (default_array (job_name j) (job_count j))
                (buffer_get b (job_name j) (job_period j)))
             (job_index j) (job_step j) (job_values j);
  Ok (buffer_set b (job_name j) (job_period j) array).





(** The value buffered at an index of the array of a variable and a
    period, if any. *)
Definition cell (b : buffer) (variable : string) (period : pkey) (i : nat)
  : option num :=
  buffer_get b variable period ≫= (.!! i).

(** Two buffers with the same variables, the same periods and arrays of
    the same lengths. *)
Definition same_shape (y z : buffer) : Prop :=
  (∀ variable, is_Some (y !! variable) ↔ is_Some (z !! variable))
  ∧ (∀ variable period,
       length <$> buffer_get y variable period
       = length <$> buffer_get z variable period).

(** Two builders with the same default period, registry, sizes,
    identifiers and axes: what [expand_axes] reads apart from the buffer
    and the populations set by an earlier expansion. *)
Definition static_eq (self self' : SimulationBuilder) : Prop :=
  default_period self = default_period self'
  ∧ variable_entities self = variable_entities self'
  ∧ entity_counts self = entity_counts self'
  ∧ entity_ids self = entity_ids self'
  ∧ axes self = axes self'.

(** The writes of one perpendicular group, with the new size of its
    entity. *)
Definition group_plan (self : SimulationBuilder) (steps_count : nat)
    (entity_sizes : gmap string nat) (group : list axis * list Qc)
  : result (list write_job * (string * nat)) :=
  let '(parallel_axes, mesh) := group in
  first_axis ← first_of parallel_axes;
  axis_entity ← get_variable_entity self (ax_name first_axis);
  step ← getitem entity_sizes (entity_plural axis_entity);
  _ ← getitem (entity_ids self) (entity_plural axis_entity);
  Ok (job_of (default_period self) (steps_count * step) step
             (λ a, grid_value a (ax_count first_axis) <$> mesh)
        <$> parallel_axes,
      (entity_plural axis_entity, steps_count * step)).

(** The builder that [expand_group] returns, field by field. *)
Definition group_expansion (self : SimulationBuilder) (plural : string)
    (axis_entity_count : nat) (b : buffer) : SimulationBuilder :=
  {| default_period := default_period self; input_buffer := b;
     entity_counts := entity_counts self; entity_ids := entity_ids self;
     memberships := memberships self; roles := roles self;
     variable_entities := variable_entities self; axes := axes self;
     axes_entity_counts :=
       <[plural := axis_entity_count]> (axes_entity_counts self);
     axes_entity_ids :=
       <[plural := adjust_ids
                     (default (default [] (entity_ids self !! plural))
                        (axes_entity_ids self !! plural))
                     axis_entity_count]> (axes_entity_ids self);
     axes_memberships := axes_memberships self;
     axes_roles := axes_roles self |}.

(** All the writes of [expand_axes], in order, and the sizes that it
    records in [axes_entity_counts]; the exceptions are those that
    [expand_axes] raises before or between its writes. *)
Definition expand_plan (self : SimulationBuilder)
  : result (list write_job * gmap string nat) :=
  match axes self with
  | [(first_axis :: _) as parallel_axes] =>
      axis_entity ← get_variable_entity self (ax_name first_axis);
      step ← getitem (entity_counts self) (entity_plural axis_entity);
      _ ← getitem (entity_ids self) (entity_plural axis_entity);
      if decide (ax_count first_axis < 0)%Z then Err ValueError else
      Ok (job_of (default_period self)
                 (Z.to_nat (ax_count first_axis) * step) step
                 (λ a, Fin <$> linspace (ax_min a) (ax_max a)
                                 (Z.to_nat (ax_count first_axis)))
            <$> parallel_axes,
          {[ entity_plural axis_entity
               := Z.to_nat (ax_count first_axis) * step ]})
  | _ =>
      axes_linspaces ←
        mapM (λ parallel_axes,
                first_axis ← first_of parallel_axes;
                if decide (ax_count first_axis < 0)%Z then Err ValueError
                else Ok (linspace 0 (Qc_of_Z (ax_count first_axis - 1))
                                  (Z.to_nat (ax_count first_axis))))
             (axes self);
      sizes ← foldM (group_size (set_axes_entity_counts ∅ self))
                    (axes self) (1, ∅);
      plans ← mapM (group_plan self sizes.1 sizes.2)
                   (zip (axes self) (meshgrid_flat axes_linspaces));
      Ok (mjoin plans.*1,
          foldl (λ counts plan, <[plan.2.1 := plan.2.2]> counts) ∅ plans)
  end.

(** The strings of a JSON list. *)
Definition strings_of (v : json) : list string :=
  match v with
  | JList l => omap (λ x, match x with JStr s => Some s | _ => None end) l
  | _ => []
  end.

(** The list that an instance gives for a role, in strict syntax. *)
Definition role_definition_of (instance_object : list (string * json))
    (role : Role) : json :=
  transform_to_strict_syntax
    (default (JList []) (dict_get (role_name role) instance_object)).

(** A person is referenced by the list of a role of an instance. *)
Definition referenced (e : entity) (instances : list (string * json))
    (person_id : string) : Prop :=
  ∃ instance_id instance_object role,
    (instance_id, JDict instance_object) ∈ instances
    ∧ role ∈ entity_roles e
    ∧ person_id ∈ strings_of (role_definition_of instance_object role).

(** The assignments (person, (index of the instance, role)) that one
    instance declares, as [iter_over_entity_members] yields them, and
    those of a whole document. *)
Definition instance_members (e : entity) (ids : list string)
    (instance : string * json) : list (string * (nat * Role)) :=
  match instance.2 with
  | JDict instance_object =>
      match iter_over_entity_members e (split_roles e instance_object).1,
            list_index instance.1 ids with
      | Ok members, Ok entity_index =>
          omap (λ member,
                  match member.2 with
                  | JStr person_id =>
                      Some (person_id, (entity_index, member.1))
                  | _ => None
                  end) members
      | _, _ => []
      end
  | _ => []
  end.

Definition declared_members (e : entity) (instances : list (string * json))
  : list (string * (nat * Role)) :=
  instances ≫= instance_members e instances.*1.

(** [names] holds [n] more than once. *)
Definition repeated (n : string) (names : list string) : Prop :=
  2 ≤ length (filter (λ m, m = n) names).

(** What the comprehension of [roles_json] has built once it has gone
    through the roles named [names]: one entry for each name, whose names
    are popped from the copy of the instance; an entry is the list that the
    instance gives for the role, or the empty list, which a name met again
    gets since it is popped already. *)
Definition roles_split (instance_object : list (string * json))
    (names : list string)
    (split : list (string * json) * list (string * json)) : Prop :=
  NoDup split.1.*1
  ∧ (∀ n, n ∈ split.1.*1 ↔ n ∈ names)
  ∧ (∀ n, dict_get n split.2
          = if decide (n ∈ names) then None else dict_get n instance_object)
  ∧ (∀ n v, dict_get n split.1 = Some v →
       v = JList []
       ∨ v = transform_to_strict_syntax
               (default (JList []) (dict_get n instance_object)))
  ∧ (∀ n, repeated n names → dict_get n split.1 = Some (JList [])).

(** The state of the loop over the instances once the assignments
    [declared] are made: the persons of [declared] are distinct persons of
    the population, the others are still to allocate, and the two arrays
    hold, at the position of each person of [declared], the index of the
    instance and the role of the person. *)
Definition allocated (persons_ids : list string)
    (declared : list (string * (nat * Role))) (al : allocation) : Prop :=
  al_persons_to_allocate al
  = list_to_set persons_ids ∖ list_to_set declared.*1
  ∧ NoDup declared.*1
  ∧ (∀ p, p ∈ declared.*1 → p ∈ persons_ids)
  ∧ length (al_memberships al) = length persons_ids
  ∧ length (al_roles al) = length persons_ids
  ∧ ∀ p k r i, (p, (k, r)) ∈ declared → list_index p persons_ids = Ok i →
      al_memberships al !! i = Some (Z.of_nat k)
      ∧ al_roles al !! i = Some (Some r).

(** [isinstance(item, int)]: an integer or a boolean. *)
Definition is_int (item : json) : bool :=
  match item with
  | JInt _ | JBool _ => true
  | _ => false
  end.

(** The persons that [iter_over_entity_members] reads for a role: none when
    the entry of the role is missing or falsy, the entry itself when it is
    not a list. *)
Definition individus_of (scenario_entity : list (string * json))
    (role : Role) : list json :=
  match dict_get (role_name role) scenario_entity with
  | Some individus =>
      if truthy individus then
        match individus with JList l => l | _ => [individus] end
      else []
  | None => []
  end.

(** The role of each of these persons: the role itself, or its subrole of
    the same rank. *)
Definition members_of (scenario_entity : list (string * json))
    (role : Role) : list (Role * json) :=
  let individus := individus_of scenario_entity role in
  zip (match role_subroles role with
       | [] => replicate (length individus) role
       | subroles => subroles
       end) individus.

(** A role has a subrole for each of its persons. *)
Definition enough_subroles (scenario_entity : list (string * json))
    (role : Role) : Prop :=
  role_subroles role = []
  ∨ length (individus_of scenario_entity role)
    ≤ length (role_subroles role).

(** The values that an instance declares, as (variable, period, value), in
    the order of [init_variable_values]: a value that is not an object is
    dated with the default period. *)
Definition instance_values (default_period : pkey)
    (instance_object : list (string * json))
  : list (string * string * json) :=
  instance_object ≫= λ '(variable_name, variable_values),
    match variable_values with
    | JDict d => (λ '(period, value), (variable_name, period, value)) <$> d
    | _ =>
        match default_period with
        | Some period => [(variable_name, period, variable_values)]
        | None => []
        end
    end.

(** The persons that the instances list for the roles of the entity,
    instance after instance and role after role. *)
Definition role_lists (e : entity) (instances : list (string * json))
  : list string :=
  instances ≫= λ instance,
    match instance.2 with
    | JDict instance_object =>
        entity_roles e ≫= λ role,
          strings_of (role_definition_of instance_object role)
    | _ => []
    end.

(** The number of combinations of the groups of axes: the product of the
    counts of their first axes. *)
Definition steps_of (groups : list (list axis)) : nat :=
  product ((λ parallel_axes,
              from_option (λ a, Z.to_nat (ax_count a)) 0
                          (head parallel_axes)) <$> groups).

End Builder.

(** ** Example situations *)

(** Collaborators for the examples: periods are their own strings, a year
    (four characters) is larger than a month, every variable has a holder
    and takes integer values with default 0. *)
Definition example_collaborators : Collaborators := {|
  default_array := λ _ size, replicate size (Fin (Qc_of_Z 0));
  check_variable_defined_for_entity := λ _ _, Defined;
  check_set_value := λ _ value,
    match value with
    | JInt z => CheckedValue (Fin (Qc_of_Z z))
    | _ => Rejected "not a number"
    end;
  uninitialised := λ _, (-1)%Z;
  Period := string;
  make_period := λ period_str,
    match period_str with
    | Some p => ParsedPeriod p
    | None => Unparsable "no period"
    end;
  str_period := id;
  PeriodKey := nat;
  key_period_size := λ p, if decide (String.length p = 4) then 300 else 100;
  key_lt := Nat.ltb;
  get_holder := λ _ _, true;
  set_input := λ _ _ _, None;
|}.

Definition person : entity :=
  {| entity_key := "person"; entity_plural := "persons";
     entity_roles := [] |}.

Definition household : entity :=
  {| entity_key := "household"; entity_plural := "households";
     entity_roles :=
       [mkRole "parent" (Some "parents") (Some 2)
               [mkRole "first_parent" None (Some 1) [];
                mkRole "second_parent" None (Some 1) []];
        mkRole "child" (Some "children") None []] |}.

Definition salary_axis (count : Z) : axis :=
  {| ax_name := "salary"; ax_count := count; ax_min := Qc_of_Z 0;
     ax_max := Qc_of_Z 100; ax_period := Some "2018"; ax_index := None |}.

Definition rent_axis (count : Z) : axis :=
  {| ax_name := "rent"; ax_count := count; ax_min := Qc_of_Z 500;
     ax_max := Qc_of_Z 900; ax_period := Some "2018-01";
     ax_index := Some 0%Z |}.

(** A builder with the persons [ids], the variable [salary] and some
    axes. *)
Definition persons_builder (ids : list string) (axes : list (list axis))
  : SimulationBuilder :=
  set_axes axes
    (register_variable "salary" person
       (set_entity_ids {[ "persons" := ids ]}
          (set_entity_counts {[ "persons" := length ids ]} init))).

(** One person, and the axes of [salary] and [rent] as two perpendicular
    groups. *)
Definition two_axes_builder : SimulationBuilder :=
  register_variable "rent" person
    (persons_builder ["bob"] [[salary_axis 2]; [rent_axis 3]]).

(** The builder that [expand_axes] returns, or the builder itself when it
    raises. *)
Definition expanded (self : SimulationBuilder) : SimulationBuilder :=
  match @expand_axes example_collaborators self with
  | Ok self' => self'
  | Err _ => self
  end.

(** A builder whose buffer holds a value of [salary] for the year 2024
    and one for its first month, and the population of the persons before
    [finalize_variables_init]. *)
Definition year_and_month_builder : SimulationBuilder :=
  set_input_buffer
    (buffer_set
       (buffer_set ∅ "salary" (Some "2024") [Fin (Qc_of_Z 1200)])
       "salary" (Some "2024-01") [Fin (Qc_of_Z 100)])
    (persons_builder ["bob"] [[]]).

Definition persons_population : @population example_collaborators :=
  {| pop_entity := person; pop_count := None; pop_ids := None;
     pop_members_entity_id := None; pop_members_role := None;
     pop_inputs := [] |}.

Definition finalized :=
  @finalize_variables_init example_collaborators year_and_month_builder
    persons_population.

(** Four persons and the households of a document: two parents and a child
    in the first one, which has a rent, and one parent in the second. *)
Definition family_ids : list string := ["ann"; "bob"; "cid"; "dan"].

Definition family : list (string * json) :=
  [("h1", JDict [("parents", JList [JStr "ann"; JStr "bob"]);
                 ("rent", JDict [("2024-01", JInt 700)]);
                 ("children", JStr "cid")]);
   ("h2", JDict [("parents", JStr "dan")])].

(** The builder that [add_group_entity] returns for the households
    [instances], or the builder itself when it raises. *)
Definition grouped (self : SimulationBuilder)
    (instances : list (string * json)) : SimulationBuilder :=
  match @add_group_entity example_collaborators self "persons" family_ids
          household (JDict instances) with
  | Ok self' => self'
  | Err _ => self
  end.

(** Households that leave [dan] out: three parents for the two subroles of
    a parent, a person that is not in the population, and one parent. *)
Definition three_parents : list (string * json) :=
  [("h1", JDict [("parents", JList [JStr "ann"; JStr "bob"; JStr "cid"])])].

Definition unknown_parent : list (string * json) :=
  [("h1", JDict [("parents", JList [JStr "ann"; JStr "zed"])])].

Definition one_parent : list (string * json) :=
  [("h1", JDict [("parents", JStr "ann")])].

(** A document with a shortcut for its household, a key that is no entity
    and axes; and a document without shortcut. *)
Definition shortcut_document : list (string * json) :=
  [("persons", JDict [("bob", JDict [])]);
   ("households", JDict [("h1", JDict [("parents", JList [JStr "ann"])])]);
   ("household", JDict [("parents", JList [JStr "bob"])]);
   ("spaceships", JDict []);
   ("axes", JList [])].

Definition plural_document : list (string * json) :=
  [("persons", JDict [("bob", JDict [])]);
   ("spaceships", JDict []);
   ("axes", JList []);
   ("planets", JDict [])].

(** The persons of a document, with the salaries of a year and of a
    month. *)
Definition people : list (string * json) :=
  [("ann", JDict [("salary", JDict [("2024", JInt 1200);
                                    ("2024-01", JInt 100)])]);
   ("bob", JDict [("salary", JDict [("2024", JInt 900)])])].

(** What [add_person_entity] returns for them, or the builder itself and
    no identifier when it raises. *)
Definition added_persons (self : SimulationBuilder)
  : SimulationBuilder * list string :=
  match @add_person_entity example_collaborators self person
          (JDict people) with
  | Ok added => added
  | Err _ => (self, [])
  end.

(** The households of [family], with an axis for their rent. *)
Definition households_axis_builder : SimulationBuilder :=
  set_axes [[rent_axis 3]]
    (register_variable "rent" household (grouped init family)).

(** One person, with a salary declared for the year 2018. *)
Definition declared_salary : list (string * json) :=
  [("bob", JDict [("salary", JDict [("2018", JInt 1000)])])].

(** The builder that [add_person_entity] returns for this person, with
    the axes [axes]; the builder of no person when it raises. *)
Definition declared_builder (axes : list (list axis)) : SimulationBuilder :=
  match @add_person_entity example_collaborators
          (register_variable "rent" person
             (register_variable "salary" person init))
          person (JDict declared_salary) with
  | Ok added => set_axes axes added.1
  | Err _ => init
  end.

(** An axis of three steps from 0 to 100 on the salary of 2018, at the
    declared slot 0. *)
Definition slot_0_axis : axis :=
  {| ax_name := "salary"; ax_count := 3; ax_min := Qc_of_Z 0;
     ax_max := Qc_of_Z 100; ax_period := Some "2018";
     ax_index := Some 0%Z |}.

(** One person, and two parallel axes that do not match: the salary of
    the persons with 3 steps, and the rent of the households, which have
    no population, with 7. *)
Definition mismatched_builder : SimulationBuilder :=
  register_variable "rent" household
    (persons_builder ["bob"] [[salary_axis 3; rent_axis 7]]).

(** * Properties *)

Section Properties.

Context `{!Collaborators}.

(** ** The input buffer *)

Lemma get_input_snd b variable period :
  (get_input b variable period).2 = buffer_get b variable period.
Proof.
  unfold get_input, buffer_get; simpl.
  destruct (b !! variable) eqn:Hb; [by rewrite Hb|].
  by rewrite lookup_insert_eq.
Qed.

Lemma buffer_set_get_input b variable period array :
  buffer_set (get_input b variable period).1 variable period array
  = buffer_set b variable period array.
Proof.
  unfold get_input, buffer_set; simpl.
  destruct (b !! variable) eqn:Hb; simpl; [by rewrite Hb|].
  by rewrite lookup_insert_eq, insert_insert_eq.
Qed.

Lemma buffer_get_set b variable period array variable' period' :
  buffer_get (buffer_set b variable period array) variable' period'
  = if decide (variable = variable' ∧ period = period') then Some array
    else buffer_get b variable' period'.
Proof.
  unfold buffer_get, buffer_set.
  destruct (decide (variable = variable')) as [<-|Hv].
  - rewrite lookup_insert_eq; simpl.
    destruct (decide (period = period')) as [<-|Hp].
    + rewrite lookup_insert_eq. by destruct (decide _) as [|[]].
    + rewrite lookup_insert_ne by done.
      destruct (decide _) as [[]|]; [done|]. by destruct (b !! variable).
  - rewrite lookup_insert_ne by done.
    by destruct (decide _) as [[]|].
Qed.

Lemma distribute_eq default_period axis_entity_count step values b a :
  distribute default_period axis_entity_count step values b a
  = array ← set_strided
             (default (default_array (ax_name a) axis_entity_count)
                (buffer_get b (ax_name a) (axis_period_of default_period a)))
             (default 0%Z (ax_index a)) step (values a);
    Ok (buffer_set b (ax_name a) (axis_period_of default_period a) array).
Proof.
  unfold distribute.
  pose proof (get_input_snd b (ax_name a) (axis_period_of default_period a))
    as Hsnd.
  pose proof (buffer_set_get_input b (ax_name a)
                (axis_period_of default_period a)) as Hset.
  destruct (get_input _ _ _) as [b' array]; simpl in *; subst array.
  destruct (set_strided _ _ _ _); simpl; [|done].
  by rewrite Hset.
Qed.

(** ** Expansion without axes, and with one parallel axis *)

Lemma expand_parallel_unfold self parallel_axes first_axis :
  expand_parallel self parallel_axes first_axis
  = e ← get_variable_entity self (ax_name first_axis);
    step ← get_count self (entity_plural e);
    ids ← get_ids self (entity_plural e);
    if decide (ax_count first_axis < 0)%Z then Err ValueError else
    b ← foldM (distribute (default_period self)
                 (Z.to_nat (ax_count first_axis) * step) step
                 (λ a, Fin <$> linspace (ax_min a) (ax_max a)
                                 (Z.to_nat (ax_count first_axis))))
              parallel_axes (input_buffer self);
    Ok (parallel_expansion self first_axis e step ids b).
Proof.
  unfold expand_parallel.
  destruct (get_variable_entity self (ax_name first_axis)) as [e|];
    simpl; [|done].
  destruct (get_count self (entity_plural e)) as [step|]; simpl; [|done].
  change (get_ids (set_axes_entity_counts _ self) (entity_plural e))
    with (get_ids self (entity_plural e)).
  destruct (get_ids self (entity_plural e)) as [ids|]; simpl; [|done].
  destruct (decide (ax_count first_axis < 0)%Z); [done|].
  unfold parallel_expansion, get_memberships, get_roles; simpl.
  destruct (decide (length _ = 0)); simpl;
    by destruct (foldM _ _ _).
Qed.

(** C9. When no axis has been added ([self.axes] is one empty group, which
    the end of [build_from_entities] reaches with the document value
    [[[]]] for ['axes']), [expand_axes] takes the branch of the
    perpendicular groups, asks for the first axis of the empty group and
    raises [IndexError], which is not a structured input error. *)
Theorem expand_axes_without_axis self :
  axes self = [[]] →
  expand_axes self = Err IndexError
  ∧ build_from_entities_axes (Some [[]]) self = Err IndexError
  ∧ ∀ path msg code,
      expand_axes self ≠ Err (SituationParsingError path msg code).
Proof.
  intros Haxes.
  assert (expand_axes self = Err IndexError) as Hexpand.
  { unfold expand_axes; simpl. rewrite Haxes.
    unfold expand_perpendicular; simpl. by rewrite Haxes. }
  split; [done|]. split.
  - by unfold build_from_entities_axes.
  - intros path msg code. by rewrite Hexpand.
Qed.

Lemma linspace_0_100_3 :
  linspace (Qc_of_Z 0) (Qc_of_Z 100) 3
  = [Qc_of_Z 0; Qc_of_Z 50; Qc_of_Z 100].
Proof.
  unfold linspace; simpl.
  repeat (apply (f_equal2 cons); [by apply Qc_is_canon|]). done.
Qed.

Lemma length_slice_indices_0_1 len : length (slice_indices len 0 1) = len.
Proof.
  unfold slice_indices, slice_start. destruct (decide (0 < 0)%Z); [lia|].
  rewrite length_fmap, length_seq. change (Z.to_nat 0) with 0.
  rewrite Nat.min_0_l, Nat.div_1_r. lia.
Qed.

(** Writing at every index of an array, from the first one: values that
    are neither one nor as many as the elements of the array do not
    fit. *)
Lemma set_strided_0_1_ne {A} (array values : list A) :
  length values ≠ 1 → length values ≠ length array →
  set_strided array 0 1 values = Err ValueError.
Proof.
  intros Hone Hlen. unfold set_strided.
  destruct (decide (1 = 0)); [done|]. rewrite length_slice_indices_0_1.
  destruct values as [|v [|v' values]]; [|done|];
    by destruct (decide _).
Qed.

(** C8. One parallel axis with 3 steps from 0 to 100 at slot 0, over a
    population of one instance.  When the swept variable has no array of
    another length in the buffer, the population of the entity has 3
    instances afterwards and the buffered array of the axis is
    [0, 50, 100].  When it has one, as after a value was declared for
    the instance, [expand_axes] raises [ValueError]. *)
Theorem expand_axes_parallel_0_50_100 self a e id :
  (∀ variable size, length (default_array variable size) = size) →
  axes self = [[a]] →
  ax_count a = 3%Z → ax_min a = Qc_of_Z 0 → ax_max a = Qc_of_Z 100 →
  default 0%Z (ax_index a) = 0%Z →
  variable_entities self !! ax_name a = Some e →
  entity_counts self !! entity_plural e = Some 1 →
  entity_ids self !! entity_plural e = Some [id] →
  ((∀ array,
      buffer_get (input_buffer self) (ax_name a)
                 (axis_period_of (default_period self) a) = Some array →
      length array = 3) →
   ∃ self',
     expand_axes self = Ok self'
     ∧ get_count self' (entity_plural e) = Ok 3
     ∧ buffer_get (input_buffer self') (ax_name a)
                  (axis_period_of (default_period self) a)
       = Some [Fin (Qc_of_Z 0); Fin (Qc_of_Z 50); Fin (Qc_of_Z 100)])
  ∧ (∀ array,
       buffer_get (input_buffer self) (ax_name a)
                  (axis_period_of (default_period self) a) = Some array →
       length array ≠ 3 →
       expand_axes self = Err ValueError).
Proof.
  intros Hlen Haxes Hcount Hmin Hmax Hindex Hentity Hsize Hids.
  unfold expand_axes; simpl. rewrite Haxes, expand_parallel_unfold.
  unfold get_variable_entity, get_count, get_ids, get_or, getitem; simpl.
  rewrite Hentity; simpl. rewrite Hsize; simpl. rewrite Hids; simpl.
  rewrite Hcount. change (Z.to_nat 3) with 3.
  destruct (decide (3 < 0)%Z); [lia|]. rewrite foldM_cons. unfold foldM.
  rewrite distribute_eq, Hindex, Hmin, Hmax, linspace_0_100_3.
  rewrite lookup_empty. change (3 * default 1 None) with 3.
  change (default 1 None) with 1.
  set (period := axis_period_of (default_period self) a) in *.
  split.
  - intros Hbuf.
    assert (∃ x y z,
      default (default_array (ax_name a) 3)
        (buffer_get (input_buffer self) (ax_name a) period) = [x; y; z])
      as (x & y & z & ->).
    { destruct (buffer_get _ _ _) as [array|] eqn:Harray; simpl.
      - specialize (Hbuf array eq_refl).
        destruct array as [|x [|y [|z [|??]]]]; simplify_eq/=; eauto.
      - specialize (Hlen (ax_name a) 3).
        destruct (default_array _ _) as [|x [|y [|z [|??]]]];
          simplify_eq/=; eauto. }
    eexists; split; [done|]. simpl. split.
    + by rewrite Hsize, lookup_insert_eq, Hcount.
    + rewrite buffer_get_set. by destruct (decide _) as [|[]].
  - intros array Harray Hne. rewrite Harray. simpl.
    by rewrite set_strided_0_1_ne by (simpl; congruence).
Qed.

Lemma get_count_reset self entity_name :
  get_count (set_axes_entity_counts ∅ self) entity_name
  = getitem (entity_counts self) entity_name.
Proof.
  unfold get_count, get_or; simpl.
  destruct (getitem _ _); simpl; [|done]. by rewrite lookup_empty.
Qed.

Lemma expand_axes_parallel_inv self first_axis rest self' :
  axes self = [first_axis :: rest] →
  expand_axes self = Ok self' →
  ∃ e step ids b,
    variable_entities self !! ax_name first_axis = Some e
    ∧ entity_counts self !! entity_plural e = Some step
    ∧ get_ids self (entity_plural e) = Ok ids
    ∧ (0 ≤ ax_count first_axis)%Z
    ∧ foldM (distribute (default_period self)
               (Z.to_nat (ax_count first_axis) * step) step
               (λ a, Fin <$> linspace (ax_min a) (ax_max a)
                               (Z.to_nat (ax_count first_axis))))
            (first_axis :: rest) (input_buffer self) = Ok b
    ∧ self' = parallel_expansion (set_axes_entity_counts ∅ self)
                first_axis e step ids b.
Proof.
  intros Haxes. unfold expand_axes; simpl.
  rewrite Haxes, expand_parallel_unfold.
  unfold get_variable_entity at 1; simpl. unfold getitem at 1.
  destruct (variable_entities self !! _) as [e|] eqn:He; simpl; [|done].
  rewrite get_count_reset. unfold getitem.
  destruct (entity_counts self !! _) as [step|] eqn:Hstep; simpl; [|done].
  change (get_ids (set_axes_entity_counts ∅ self) (entity_plural e))
    with (get_ids self (entity_plural e)).
  destruct (get_ids self _) as [ids|] eqn:Hids; simpl; [|done].
  destruct (decide (ax_count first_axis < 0)%Z); [done|].
  destruct (foldM _ _ _) as [b|] eqn:Hb; simpl; [|done].
  intros [= <-]. exists e, step, ids, b. repeat split; try done. lia.
Qed.

(** ** The identifiers of an expanded population *)

Lemma digits_app_l d u : digits (d +:+ u) → digits d.
Proof.
  induction d as [|c d IH]; [done|].
  change (String c d +:+ u) with (String c (d +:+ u)). simpl.
  intros [Hc Hd]. split; [done|]. by apply IH.
Qed.

Lemma pretty_N_char_digit x : is_Some (Ascii.is_nat (pretty_N_char x)).
Proof. unfold pretty_N_char. repeat case_match; simpl; eauto. Qed.

Lemma pretty_N_go_digits x s : digits s → digits (pretty_N_go x s).
Proof.
  revert s. induction (N.lt_wf_0 x) as [x _ IH]; intros s Hs.
  assert (x = 0 ∨ 0 < x)%N as [->|Hx] by lia.
  - by rewrite pretty_N_go_0.
  - rewrite pretty_N_go_step by done. apply IH.
    + by apply N.div_lt.
    + simpl. auto using pretty_N_char_digit.
Qed.

Lemma pretty_nat_digits (i : nat) : digits (pretty i).
Proof.
  unfold pretty, pretty_nat, pretty, pretty_N.
  case_decide; [simpl; eauto|]. by apply pretty_N_go_digits.
Qed.

Lemma string_app_eq_app (x y u v : string) :
  x +:+ u = y +:+ v →
  ∃ d, (x = y +:+ d ∧ v = d +:+ u) ∨ (y = x +:+ d ∧ u = d +:+ v).
Proof.
  revert y. induction x as [|c x IH]; intros y Heq.
  - exists y. right. done.
  - destruct y as [|c' y].
    + exists (String c x). left. done.
    + change (String c (x +:+ u) = String c' (y +:+ v)) in Heq.
      injection Heq as -> Heq.
      destruct (IH y Heq) as [d [[-> ->]|[-> ->]]]; exists d; eauto.
Qed.

Lemma list_times_elem_of {A} (x : A) l n : x ∈ list_times l n → x ∈ l.
Proof.
  unfold list_times. rewrite list_elem_of_join.
  intros (l' & Hx & Hl'). by apply elem_of_replicate in Hl' as [-> _].
Qed.

Lemma adjust_ids_lookup ids n i x :
  adjust_ids ids n !! i = Some x →
  ∃ id, id ∈ ids ∧ x = id +:+ pretty i.
Proof.
  unfold adjust_ids. rewrite lookup_zip_with_Some.
  intros (id & ix & -> & Hid & Hix).
  apply lookup_seq in Hix as [-> _].
  exists id. split; [|done].
  eapply list_times_elem_of, list_elem_of_lookup_2, Hid.
Qed.

Lemma adjust_ids_NoDup ids n :
  no_digit_extension ids → NoDup (adjust_ids ids n).
Proof.
  intros Hids. apply NoDup_alt. intros i j x Hi Hj.
  apply adjust_ids_lookup in Hi as (idi & Hidi & ->).
  apply adjust_ids_lookup in Hj as (idj & Hidj & Heq).
  apply string_app_eq_app in Heq as [d [[Hx Hp]|[Hx Hp]]].
  - assert (d = "") as -> by
      (eapply Hids; [| |done|]; [done..|];
       eapply digits_app_l; rewrite <-Hp; apply pretty_nat_digits).
    change (pretty j = pretty i) in Hp. by apply (inj pretty) in Hp.
  - assert (d = "") as -> by
      (eapply Hids; [| |done|]; [done..|];
       eapply digits_app_l; rewrite <-Hp; apply pretty_nat_digits).
    change (pretty i = pretty j) in Hp. by apply (inj pretty) in Hp.
Qed.

Lemma list_times_nil {A} n : list_times (@nil A) n = [].
Proof. induction n; [done|]. unfold list_times in *. by simpl. Qed.

Lemma list_times_add {A} (l : list A) n m :
  list_times l (n + m) = list_times l n ++ list_times l m.
Proof. unfold list_times. by rewrite replicate_add, join_app. Qed.

Lemma length_list_times {A} (l : list A) n :
  length (list_times l n) = n * length l.
Proof.
  induction n as [|n IH]; [done|].
  change (S n) with (1 + n). rewrite list_times_add, length_app, IH.
  unfold list_times; simpl. rewrite app_nil_r. lia.
Qed.

Lemma zip_with_seq_imap {A B} (f : A → nat → B) (l : list A) j :
  zip_with f l (seq j (length l)) = imap (λ i x, f x (j + i)) l.
Proof.
  revert j. induction l as [|x l IH]; intros j; [done|]. simpl.
  rewrite Nat.add_0_r. f_equal. rewrite IH.
  apply imap_ext. intros i y _. simpl. f_equal. lia.
Qed.

Lemma zip_with_take_r {A B C} (f : A → B → C) l k :
  zip_with f l k = zip_with f (take (length k) l) k.
Proof.
  revert k. induction l as [|x l IH]; intros [|y k]; simpl; try done.
  by rewrite <-IH.
Qed.

(** The identifiers of the expansion are the identifiers repeated as many
    times as the first axis has steps, each with its position as suffix. *)
Lemma adjust_ids_repeated ids n :
  adjust_ids ids (n * length ids)
  = imap (λ i id, id +:+ pretty i) (list_times ids n).
Proof.
  unfold adjust_ids.
  rewrite zip_with_take_r, length_seq.
  assert (take (n * length ids) (list_times ids (n * length ids))
          = list_times ids n) as ->.
  { destruct ids as [|id ids]; [by rewrite !list_times_nil, take_nil|].
    simpl length.
    replace (n * S (length ids)) with (n + n * length ids) at 2 by lia.
    rewrite list_times_add, take_app_length'; [done|].
    rewrite length_list_times. simpl. lia. }
  rewrite <-(length_list_times ids n).
  by rewrite zip_with_seq_imap.
Qed.

(** C2, as amended.  In the branch of one group of parallel axes, the new
    identifiers of the entity of the first axis are its identifiers
    repeated as many times as the axis has steps, each followed by its
    position; they are pairwise distinct when no identifier is another
    identifier followed by decimal digits. *)
Theorem expand_axes_parallel_ids self first_axis rest self' :
  axes self = [first_axis :: rest] →
  expand_axes self = Ok self' →
  ∃ e step ids,
    variable_entities self !! ax_name first_axis = Some e
    ∧ entity_counts self !! entity_plural e = Some step
    ∧ get_ids self (entity_plural e) = Ok ids
    ∧ axes_entity_ids self' !! entity_plural e
      = Some (adjust_ids ids (Z.to_nat (ax_count first_axis) * step))
    ∧ (length ids = step →
       adjust_ids ids (Z.to_nat (ax_count first_axis) * step)
       = imap (λ i id, id +:+ pretty i)
              (list_times ids (Z.to_nat (ax_count first_axis))))
    ∧ (no_digit_extension ids →
       NoDup (adjust_ids ids (Z.to_nat (ax_count first_axis) * step))).
Proof.
  intros Haxes Hexpand.
  destruct (expand_axes_parallel_inv _ _ _ _ Haxes Hexpand)
    as (e & step & ids & b & He & Hstep & Hids & _ & _ & ->).
  exists e, step, ids. repeat split; try done.
  - simpl. by rewrite lookup_insert_eq.
  - intros <-. apply adjust_ids_repeated.
  - apply adjust_ids_NoDup.
Qed.

(** ** The situation normaliser *)

Lemma dict_get_elem_of {V} k (v : V) d : dict_get k d = Some v → (k, v) ∈ d.
Proof.
  induction d as [|[k' v'] d IH]; simpl; [done|].
  destruct (decide (k' = k)) as [->|]; [intros [= ->]; left|right; auto].
Qed.

Lemma dict_set_elem_of {V} k (v : V) d kv :
  kv ∈ dict_set k v d → kv = (k, v) ∨ kv ∈ d.
Proof.
  induction d as [|[k' v'] d IH]; simpl.
  - intros ->%list_elem_of_singleton. by left.
  - destruct (decide (k' = k)) as [->|].
    + intros [->|?]%elem_of_cons; [by left|right; by right].
    + intros [->|?]%elem_of_cons; [right; left|].
      destruct IH as [->|?]; [done|by left|right; by right].
Qed.

Lemma entities_by_singular_elem_of tax_benefit_system singular e :
  entities_by_singular tax_benefit_system singular = Some e →
  entity_plural e ∈ entities_plural tax_benefit_system.
Proof.
  unfold entities_by_singular, entities_plural.
  intros [l Hl]%head_Some. apply list_elem_of_fmap_2.
  assert (e ∈ reverse (filter (λ e, entity_key e = singular)
                              tax_benefit_system)) as He
    by (rewrite Hl; left).
  apply elem_of_reverse, list_elem_of_filter in He. tauto.
Qed.

(** C5, as amended.  A document without any singular shortcut is returned
    as it is, unknown keys included; from a document with a shortcut, the
    result keeps only entries whose key is a plural name: the plural
    entries of the input and the shortcuts under the plural name of their
    kind. *)
Theorem explicit_singular_entities_canonical tax_benefit_system input_dict :
  ((∀ k, k ∈ input_dict.*1 →
         entities_by_singular tax_benefit_system k = None) →
   explicit_singular_entities tax_benefit_system input_dict = input_dict)
  ∧ (∀ k, k ∈ input_dict.*1 →
          is_Some (entities_by_singular tax_benefit_system k) →
     ∀ kv, kv ∈ explicit_singular_entities tax_benefit_system input_dict →
           canonical_entry tax_benefit_system input_dict kv).
Proof.
  unfold explicit_singular_entities. split.
  - intros Hnone.
    destruct (decide (filter _ _ = [])) as [|Hne]; [done|].
    destruct (filter _ _) as [|k l] eqn:Hfilter; [done|].
    assert (k ∈ filter (λ k, is_Some (entities_by_singular
                                         tax_benefit_system k))
                       (remove_dups input_dict.*1)) as Hk
      by (rewrite Hfilter; left).
    apply list_elem_of_filter in Hk as [[e He] Hk].
    rewrite elem_of_remove_dups in Hk. specialize (Hnone k Hk). congruence.
  - intros k Hk Hsome.
    destruct (decide (filter _ _ = [])) as [Hnil|_].
    { exfalso. eapply filter_nil_not_elem_of; [exact Hnil|exact Hsome|].
      by rewrite elem_of_remove_dups. }
    generalize (filter (λ k, is_Some (entities_by_singular
                                         tax_benefit_system k))
                       (remove_dups input_dict.*1)) as singular_keys.
    intros singular_keys.
    assert (∀ kv, kv ∈ filter (λ kv, kv.1 ∈ entities_plural
                                         tax_benefit_system) input_dict →
                  canonical_entry tax_benefit_system input_dict kv) as Hinit.
    { intros kv [? ?]%list_elem_of_filter. split; [done|by left]. }
    revert Hinit.
    generalize (filter (λ kv, kv.1 ∈ entities_plural tax_benefit_system)
                       input_dict) as result.
    induction singular_keys as [|singular singular_keys IH];
      intros result Hresult; simpl; [done|].
    apply IH. intros kv Hkv.
    destruct (entities_by_singular tax_benefit_system singular)
      as [e|] eqn:He; [|by apply Hresult].
    destruct (dict_get singular input_dict) as [description|] eqn:Hd;
      [|by apply Hresult].
    apply dict_set_elem_of in Hkv as [->|Hkv]; [|by apply Hresult].
    split; simpl.
    + by eapply entities_by_singular_elem_of.
    + right. exists singular, e, description.
      split; [by apply dict_get_elem_of|done].
Qed.

(** ** The finaliser *)

Lemma mapM_Ok {A B} (f : A → result B) l k :
  mapM f l = Ok k → Forall2 (λ x y, f x = Ok y) l k.
Proof.
  revert k. induction l as [|x l IH]; intros k; simpl.
  - intros [= <-]. constructor.
  - destruct (f x) as [y|] eqn:Hy; simpl; [|done].
    destruct (mapM f l) as [k'|]; simpl; [|done].
    intros [= <-]. constructor; auto.
Qed.

Section sorted.

(** The order of the keys is a strict weak order. *)
Hypothesis key_lt_asym : ∀ a b, key_lt a b → ¬ key_lt b a.
Hypothesis key_lt_negtrans : ∀ a b c, key_lt a c → key_lt a b ∨ key_lt b c.

Lemma period_le_trans p q r : period_le p q → period_le q r → period_le p r.
Proof.
  unfold period_le. intros Hpq Hqr Hrp.
  destruct (key_lt_negtrans _ (key_period_size q) _ Hrp); tauto.
Qed.

Lemma insert_period_Permutation x l : insert_period x l ≡ₚ x :: l.
Proof.
  induction l as [|y l IH]; simpl; [done|].
  destruct (key_lt _ _); [|done]. rewrite IH. apply Permutation_swap.
Qed.

Lemma sorted_Permutation l : sorted l ≡ₚ l.
Proof.
  induction l as [|x l IH]; simpl; [done|].
  by rewrite insert_period_Permutation, IH.
Qed.

Lemma insert_period_sorted x l :
  StronglySorted period_le l → StronglySorted period_le (insert_period x l).
Proof.
  induction 1 as [|y l Hl IH Hy]; simpl.
  - repeat constructor.
  - destruct (key_lt (key_period_size y) (key_period_size x)) eqn:Hlt.
    + constructor; [done|].
      rewrite insert_period_Permutation. constructor; [|done].
      unfold period_le. apply key_lt_asym. by rewrite Hlt.
    + assert (period_le x y) as Hxy
        by (unfold period_le; rewrite Hlt; intros []).
      constructor; [by constructor|]. constructor; [done|].
      eapply Forall_impl; [exact Hy|]. eauto using period_le_trans.
Qed.

Lemma sorted_sorted l : StronglySorted period_le (sorted l).
Proof.
  induction l as [|x l IH]; simpl; [constructor|].
  by apply insert_period_sorted.
Qed.

Lemma commit_periods_spec variable_name buf periods inputs inputs' raised :
  commit_periods variable_name buf periods inputs = (inputs', raised) →
  ∃ committed rest,
    periods = committed ++ rest
    ∧ inputs' = inputs ++ (input_of variable_name buf <$> committed)
    ∧ Forall (λ p, is_Some (buf !! Some (str_period p))) committed
    ∧ (raised = None → rest = []).
Proof.
  revert inputs. induction periods as [|p periods IH]; intros inputs; simpl.
  - intros [= <- <-]. exists [], []. simpl. rewrite app_nil_r. by repeat split.
  - destruct (buf !! Some (str_period p)) as [array|] eqn:Harray.
    + destruct (set_input variable_name p array).
      * intros [= <- <-]. exists [], (p :: periods). simpl. rewrite app_nil_r.
        by repeat split.
      * intros (committed & rest & -> & -> & Hsome & Hrest)%IH.
        exists (p :: committed), rest. split; [done|]. split.
        { rewrite <-app_assoc. simpl. unfold input_of at 2.
          by rewrite Harray. }
        split; [|done]. constructor; [by rewrite Harray|done].
    + intros [= <- <-]. exists [], (p :: periods). simpl. rewrite app_nil_r.
        by repeat split.
Qed.

Lemma commit_variables_spec e variables inputs inputs' raised :
  NoDup variables.*1 →
  commit_variables e variables inputs = (inputs', raised) →
  ∃ new,
    inputs' = inputs ++ new
    ∧ StronglySorted smaller_first new
    ∧ Forall (λ c, c.1.1 ∈ variables.*1) new
    ∧ (raised = None →
       ∀ variable_name buf period_str array,
         (variable_name, buf) ∈ variables →
         get_holder e variable_name = true →
         buf !! period_str = Some array →
         ∃ p a, make_period period_str = ParsedPeriod p
                ∧ buf !! Some (str_period p) = Some a
                ∧ (variable_name, p, a) ∈ new).
Proof.
  revert inputs.
  induction variables as [|[variable_name buf] variables IH];
    intros inputs Hdup; simpl.
  { intros [= <- <-]. exists []. rewrite app_nil_r.
    repeat split; try constructor. intros _ ???? Hin. by inv Hin. }
  apply NoDup_cons in Hdup as [Hfresh Hdup].
  destruct (get_holder e variable_name) eqn:Hholder.
  - destruct (make_periods _) as [periods|err] eqn:Hperiods.
    + destruct (commit_periods _ _ _ _) as [inputs1 [err|]] eqn:Hcommit.
      * intros [= <- <-].
        apply commit_periods_spec in Hcommit
          as (committed & rest & Hsorted & -> & _ & _).
        eexists; split; [done|]. split; [|split; [|done]].
        -- eapply StronglySorted_fmap;
             [|eapply StronglySorted_app_1_l; rewrite <-Hsorted;
               apply sorted_sorted].
           intros p q Hpq _. exact Hpq.
        -- apply Forall_fmap, Forall_true. intros p. simpl. left.
      * apply commit_periods_spec in Hcommit
          as (committed & rest & Hsorted & -> & Hsome & Hrest).
        specialize (Hrest eq_refl) as ->. rewrite app_nil_r in Hsorted.
        subst committed.
        intros (new & -> & Hnew & Hvars & Hall)%IH; [|done].
        exists ((input_of variable_name buf <$> sorted periods) ++ new).
        split; [by rewrite app_assoc|]. split; [|split].
        -- apply StronglySorted_app_2; [|  |done].
           ++ intros c1 c2 (p & -> & _)%list_elem_of_fmap Hc2 Heq.
              rewrite Forall_forall in Hvars. apply Hvars in Hc2.
              simpl in Heq. by rewrite Heq in Hfresh.
           ++ eapply StronglySorted_fmap; [|apply sorted_sorted].
              intros p q Hpq _. exact Hpq.
        -- apply Forall_app. split.
           ++ apply Forall_fmap, Forall_true. intros p. simpl. left.
           ++ eapply Forall_impl; [exact Hvars|]. intros c Hc. by right.
        -- intros -> variable_name' buf' period_str array Hin Hholder' Harr.
           apply elem_of_cons in Hin as [[= -> ->]|Hin].
           ++ apply mapM_Ok in Hperiods.
              assert (period_str ∈ (map_to_list buf).*1) as Hkey.
              { apply list_elem_of_fmap. exists (period_str, array).
                split; [done|]. by apply elem_of_map_to_list. }
              apply list_elem_of_lookup in Hkey as [i Hi].
              destruct (Forall2_lookup_l _ _ _ _ _ Hperiods Hi)
                as (p & Hp & Hparsed).
              destruct (make_period period_str) as [p'|] eqn:Hmake;
                [|done].
              injection Hparsed as ->.
              assert (p ∈ sorted periods) as Hsortedp.
              { rewrite sorted_Permutation.
                by eapply list_elem_of_lookup_2. }
              rewrite Forall_forall in Hsome.
              destruct (Hsome p Hsortedp) as [a Ha].
              exists p, a. split; [done|]. split; [done|].
              apply elem_of_app. left.
              apply list_elem_of_fmap. exists p. split; [|done].
              unfold input_of. by rewrite Ha.
           ++ destruct (Hall eq_refl variable_name' buf' period_str array)
                as (p & a & ? & ? & ?); try done.
              exists p, a. split; [done|]. split; [done|].
              apply elem_of_app. by right.
    + intros [= <- <-]. exists []. rewrite app_nil_r.
      repeat split; try constructor; done.
  - intros (new & -> & Hnew & Hvars & Hall)%IH; [|done].
    exists new. split; [done|]. split; [done|]. split.
    + eapply Forall_impl; [exact Hvars|]. intros c Hc. by right.
    + intros -> variable_name' buf' period_str array Hin Hholder' Harr.
      apply elem_of_cons in Hin as [[= -> ->]|Hin]; [congruence|].
      by eapply Hall.
Qed.

Lemma StronglySorted_lookup {A} (R : relation A) l i j x y :
  StronglySorted R l → l !! i = Some x → l !! j = Some y → i < j → R x y.
Proof.
  intros Hl. revert i j. induction Hl as [|z l Hl IH Hz]; intros i j; [done|].
  destruct i as [|i], j as [|j]; simpl; try lia.
  - intros [= ->] Hy _. rewrite Forall_forall in Hz.
    by eapply Hz, list_elem_of_lookup_2.
  - intros Hx Hy Hij. eapply (IH i j); [done..|lia].
Qed.

(** C3. The inputs that [finalize_variables_init] sets for one variable
    come in ascending order of period size: an input with a smaller
    period is set before any input of the same variable with a larger
    one; and when the method returns, every buffered period of every
    variable that has a holder has been set. *)
Theorem finalize_sets_smaller_periods_first self pop pop' raised :
  finalize_variables_init self pop = (pop', raised) →
  ∃ new,
    pop_inputs pop' = pop_inputs pop ++ new
    ∧ (∀ i j variable_name p q a b,
         new !! i = Some (variable_name, p, a) →
         new !! j = Some (variable_name, q, b) →
         key_lt (key_period_size p) (key_period_size q) = true →
         i < j)
    ∧ (raised = None →
       ∀ variable_name buf period_str array,
         input_buffer self !! variable_name = Some buf →
         get_holder (pop_entity pop) variable_name = true →
         buf !! period_str = Some array →
         ∃ p a, make_period period_str = ParsedPeriod p
                ∧ buf !! Some (str_period p) = Some a
                ∧ (variable_name, p, a) ∈ new).
Proof.
  unfold finalize_variables_init.
  destruct (match entity_counts self !! _ with Some _ => _ | None => _ end)
    as [[c ids] [err|]].
  { intros [= <- <-]. exists []. simpl. rewrite app_nil_r.
    split; [done|]. split; [|done]. intros ???????. by rewrite lookup_nil. }
  destruct (match memberships self !! _ with Some _ => _ | None => _ end)
    as [m r].
  destruct (commit_variables _ _ _) as [inputs raised'] eqn:Hcommit.
  intros [= <- <-]. simpl.
  apply commit_variables_spec in Hcommit
    as (new & -> & Hnew & _ & Hall); [|apply NoDup_fst_map_to_list].
  exists new. split; [done|]. split.
  - intros i j variable_name p q a b Hi Hj Hlt.
    destruct (decide (i < j)) as [|Hge]; [done|]. exfalso.
    destruct (decide (i = j)) as [->|Hne].
    + rewrite Hi in Hj. injection Hj as -> _.
      by eapply key_lt_asym; rewrite Hlt.
    + assert (j < i) as Hji by lia.
      pose proof (StronglySorted_lookup _ _ _ _ _ _ Hnew Hj Hi Hji) as Hqp.
      apply (Hqp eq_refl). simpl. by rewrite Hlt.
  - intros -> variable_name buf period_str array Hbuf Hholder Harray.
    eapply (Hall eq_refl variable_name buf period_str array); [|done..].
    by apply elem_of_map_to_list.
Qed.

End sorted.

(** ** Parallel axes *)



(** ** Two perpendicular axes *)

(** On an axis of at least two steps, the value written for the grid
    coordinate [k] is the point of rank [k] of the linspace of the axis. *)
Lemma grid_value_linspace a (n k : nat) (g : Qc) :
  2 ≤ n → g = Qc_of_nat k →
  grid_value a (Z.of_nat n) g
  = Fin (ax_min a + Qc_of_nat k * ((ax_max a - ax_min a)
                                   / Qc_of_nat (n - 1)))%Qc.
Proof.
  intros Hn ->. unfold grid_value.
  destruct (decide (Z.of_nat n - 1 = 0)%Z); [lia|]. f_equal.
  replace (Z.of_nat n - 1)%Z with (Z.of_nat (n - 1)) by lia.
  fold (Qc_of_nat (n - 1)). unfold Qcdiv. ring.
Qed.

Lemma six_pairs_Permutation {A} (p1 p2 p3 p4 p5 p6 : A) :
  [p1; p4; p2; p5; p3; p6] ≡ₚ [p1; p2; p3; p4; p5; p6].
Proof.
  apply Permutation_cons; [done|].
  apply (Permutation_cons_app [p2; p3] [p5; p6]). simpl.
  apply Permutation_cons; [done|]. apply Permutation_swap.
Qed.

Lemma getitem_Some {V} (d : gmap string V) k v :
  d !! k = Some v → getitem d k = Ok v.
Proof. unfold getitem. by intros ->. Qed.

Lemma get_ids_Ok self entity_name ids :
  entity_ids self !! entity_name = Some ids →
  get_ids self entity_name
  = Ok (default ids (axes_entity_ids self !! entity_name)).
Proof. unfold get_ids, get_or, getitem. by intros ->. Qed.

(** C4. Two perpendicular groups of one axis each, with 2 and 3 steps at
    slot 0, over populations of one instance, whose swept variables
    differ (or their periods).  When neither variable has an array of
    another length in the buffer, both populations have 6 instances
    afterwards, and the pairs of the values written for the two axes are
    the 6 combinations of the 2 points of the first linspace with the 3
    points of the second, each once.  When one of them has, as after a
    value was declared for the instance, [expand_axes] raises
    [ValueError]. *)
Theorem expand_axes_perpendicular_2_3 self a b ea eb ida idb :
  (∀ variable size, length (default_array variable size) = size) →
  axes self = [[a]; [b]] →
  ax_count a = 2%Z → ax_count b = 3%Z →
  default 0%Z (ax_index a) = 0%Z → default 0%Z (ax_index b) = 0%Z →
  variable_entities self !! ax_name a = Some ea →
  variable_entities self !! ax_name b = Some eb →
  entity_counts self !! entity_plural ea = Some 1 →
  entity_counts self !! entity_plural eb = Some 1 →
  entity_ids self !! entity_plural ea = Some [ida] →
  entity_ids self !! entity_plural eb = Some [idb] →
  (ax_name a, axis_period_of (default_period self) a)
  ≠ (ax_name b, axis_period_of (default_period self) b) →
  ((∀ array,
      buffer_get (input_buffer self) (ax_name a)
                 (axis_period_of (default_period self) a) = Some array →
      length array = 6) →
   (∀ array,
      buffer_get (input_buffer self) (ax_name b)
                 (axis_period_of (default_period self) b) = Some array →
      length array = 6) →
   ∃ self' values_a values_b,
     expand_axes self = Ok self'
     ∧ get_count self' (entity_plural ea) = Ok 6
     ∧ get_count self' (entity_plural eb) = Ok 6
     ∧ buffer_get (input_buffer self') (ax_name a)
                  (axis_period_of (default_period self) a)
       = Some (Fin <$> values_a)
     ∧ buffer_get (input_buffer self') (ax_name b)
                  (axis_period_of (default_period self) b)
       = Some (Fin <$> values_b)
     ∧ zip values_a values_b
       ≡ₚ list_prod (linspace (ax_min a) (ax_max a) 2)
                    (linspace (ax_min b) (ax_max b) 3))
  ∧ (∀ array,
       buffer_get (input_buffer self) (ax_name a)
                  (axis_period_of (default_period self) a) = Some array
       ∨ buffer_get (input_buffer self) (ax_name b)
                    (axis_period_of (default_period self) b) = Some array →
       length array ≠ 6 →
       expand_axes self = Err ValueError).
Proof.
  intros Hlen Haxes Hcount_a Hcount_b Hindex_a Hindex_b Hea Heb
    Hsize_a Hsize_b Hids_a Hids_b Hkeys.
  unfold expand_axes; simpl. rewrite Haxes.
  unfold expand_perpendicular; simpl. rewrite Haxes. simpl.
  rewrite Hcount_a, Hcount_b. simpl.
  rewrite !foldM_cons. unfold foldM. simpl.
  unfold get_variable_entity. simpl.
  rewrite (getitem_Some _ _ _ Hea). simpl.
  rewrite get_count_reset, (getitem_Some _ _ _ Hsize_a). simpl.
  unfold get_variable_entity. simpl.
  rewrite (getitem_Some _ _ _ Heb). simpl.
  rewrite get_count_reset, (getitem_Some _ _ _ Hsize_b). simpl.
  rewrite ?foldM_cons. unfold foldM. simpl.
  assert (∀ (v : nat) (x y : string),
    (<[y := v]> (<[x := v]> (∅ : gmap string nat))) !! x = Some v
    ∧ (<[y := v]> (<[x := v]> (∅ : gmap string nat))) !! y = Some v)
    as Hsizes.
  { intros v x y. split; [|by rewrite lookup_insert_eq].
    destruct (decide (y = x)) as [->|];
      [by rewrite lookup_insert_eq|].
    by rewrite lookup_insert_ne, lookup_insert_eq. }
  rewrite (getitem_Some _ _ _ (proj1 (Hsizes _ _ _))). simpl.
  rewrite (get_ids_Ok _ _ [ida]) by exact Hids_a. simpl.
  rewrite Hcount_a, Hcount_b. simpl.
  rewrite distribute_eq, Hindex_a.
  set (period_a := axis_period_of (default_period self) a) in *.
  set (period_b := axis_period_of (default_period self) b) in *.
  split.
  - intros Hbuf_a Hbuf_b.
    assert (∃ x1 x2 x3 x4 x5 x6,
      default (default_array (ax_name a) 6)
        (buffer_get (input_buffer self) (ax_name a) period_a)
      = [x1; x2; x3; x4; x5; x6])
      as (x1 & x2 & x3 & x4 & x5 & x6 & ->).
    { destruct (buffer_get (input_buffer self) (ax_name a) period_a)
        as [array|] eqn:Harray; simpl.
      - specialize (Hbuf_a array eq_refl).
        destruct array as [|? [|? [|? [|? [|? [|? [|??]]]]]]];
          simplify_eq/=; eauto 10.
      - specialize (Hlen (ax_name a) 6).
        destruct (default_array _ _) as [|? [|? [|? [|? [|? [|? [|??]]]]]]];
          simplify_eq/=; eauto 10. }
    simpl. unfold get_variable_entity. simpl.
    rewrite (getitem_Some _ _ _ Heb). simpl.
    rewrite (getitem_Some _ _ _ (proj2 (Hsizes _ _ _))). simpl.
    rewrite (get_ids_Ok _ _ [idb]) by exact Hids_b. simpl.
    rewrite distribute_eq, Hindex_b. fold period_b.
    rewrite buffer_get_set.
    destruct (decide (ax_name a = ax_name b ∧ period_a = period_b))
      as [[Hname Hperiod]|_]; [by rewrite Hname, Hperiod in Hkeys|].
    assert (∃ y1 y2 y3 y4 y5 y6,
      default (default_array (ax_name b) 6)
        (buffer_get (input_buffer self) (ax_name b) period_b)
      = [y1; y2; y3; y4; y5; y6])
      as (y1 & y2 & y3 & y4 & y5 & y6 & ->).
    { destruct (buffer_get (input_buffer self) (ax_name b) period_b)
        as [array|] eqn:Harray; simpl.
      - specialize (Hbuf_b array eq_refl).
        destruct array as [|? [|? [|? [|? [|? [|? [|??]]]]]]];
          simplify_eq/=; eauto 10.
      - specialize (Hlen (ax_name b) 6).
        destruct (default_array _ _) as [|? [|? [|? [|? [|? [|? [|??]]]]]]];
          simplify_eq/=; eauto 10. }
    simpl.
    set (point (x : axis) (n k : nat) :=
           (ax_min x + Qc_of_nat k * ((ax_max x - ax_min x)
                                      / Qc_of_nat (n - 1)))%Qc).
    eexists _, [point a 2 0; point a 2 1; point a 2 0;
                point a 2 1; point a 2 0; point a 2 1],
               [point b 3 0; point b 3 0; point b 3 1;
                point b 3 1; point b 3 2; point b 3 2].
    split; [done|]. simpl.
    unfold get_count, get_or. simpl.
    rewrite (getitem_Some _ _ _ Hsize_a), (getitem_Some _ _ _ Hsize_b).
    simpl.
    rewrite (proj1 (Hsizes 6 _ _)), (proj2 (Hsizes 6 _ _)). simpl.
    split; [done|]. split; [done|].
    rewrite !buffer_get_set.
    destruct (decide (ax_name b = ax_name a ∧ period_b = period_a))
      as [[Hname Hperiod]|_]; [by rewrite Hname, Hperiod in Hkeys|].
    destruct (decide (ax_name a = ax_name a ∧ period_a = period_a))
      as [_|[]]; [|done].
    destruct (decide (ax_name b = ax_name b ∧ period_b = period_b))
      as [_|[]]; [|done].
    split; [|split].
    + f_equal.
      repeat (apply (f_equal2 cons);
              [apply (grid_value_linspace a 2);
               [lia|by apply Qc_is_canon]|]).
      done.
    + f_equal.
      repeat (apply (f_equal2 cons);
              [apply (grid_value_linspace b 3);
               [lia|by apply Qc_is_canon]|]).
      done.
    + apply six_pairs_Permutation.
  - intros array Harray Hne.
    destruct (decide (length (default (default_array (ax_name a) 6)
                                (buffer_get (input_buffer self) (ax_name a)
                                   period_a)) = 6)) as [Hlen_a|Hlen_a].
    2: { by rewrite set_strided_0_1_ne by (simpl; lia). }
    destruct Harray as [Harray|Harray].
    { by rewrite Harray in Hlen_a. }
    destruct (default _ (buffer_get _ (ax_name a) period_a))
      as [|? [|? [|? [|? [|? [|? [|??]]]]]]]; try done.
    simpl. unfold get_variable_entity. simpl.
    rewrite (getitem_Some _ _ _ Heb). simpl.
    rewrite (getitem_Some _ _ _ (proj2 (Hsizes _ _ _))). simpl.
    rewrite (get_ids_Ok _ _ [idb]) by exact Hids_b. simpl.
    rewrite distribute_eq, Hindex_b. fold period_b.
    rewrite buffer_get_set.
    destruct (decide (ax_name a = ax_name b ∧ period_a = period_b))
      as [[Hname Hperiod]|_]; [by rewrite Hname, Hperiod in Hkeys|].
    rewrite Harray. simpl.
    by rewrite set_strided_0_1_ne by (simpl; lia).
Qed.

(** ** Strided writes *)

Lemma foldl_insert_length {A B} (f : B → nat) (g : B → A) xs (a : list A) :
  length (foldl (λ a x, <[f x := g x]> a) a xs) = length a.
Proof.
  revert a. induction xs as [|x xs IH]; intros a; simpl; [done|].
  by rewrite IH, length_insert.
Qed.

(** Two arrays of one length that receive the same writes: at every
    index, either both hold the written value, or both are unchanged. *)
Lemma foldl_insert_lookup {A B} (f : B → nat) (g : B → A) xs
    (a b : list A) p :
  length a = length b →
  foldl (λ a x, <[f x := g x]> a) a xs !! p
  = foldl (λ a x, <[f x := g x]> a) b xs !! p
  ∨ (foldl (λ a x, <[f x := g x]> a) a xs !! p = a !! p
     ∧ foldl (λ a x, <[f x := g x]> a) b xs !! p = b !! p).
Proof.
  revert a b. induction xs as [|x xs IH]; intros a b Hlen; simpl.
  { by right. }
  destruct (IH (<[f x := g x]> a) (<[f x := g x]> b)) as [Heq|[Ha Hb]].
  { by rewrite !length_insert. }
  { by left. }
  rewrite Ha, Hb. destruct (decide (f x = p)) as [<-|Hne].
  - destruct (decide (f x < length a)).
    + left. rewrite !list_lookup_insert_eq by lia. done.
    + right. rewrite !list_insert_ge by lia. done.
  - right. by rewrite !list_lookup_insert_ne.
Qed.

Lemma set_strided_length {A} (a a' : list A) idx step values :
  set_strided a idx step values = Ok a' → length a' = length a.
Proof.
  unfold set_strided. destruct (decide (step = 0)); [done|].
  destruct values as [|v [|v' values]].
  - destruct (decide _); [|done]. intros [= <-].
    apply (foldl_insert_length fst snd).
  - intros [= <-]. apply (foldl_insert_length id (λ _, v)).
  - destruct (decide _); [|done]. intros [= <-].
    apply (foldl_insert_length fst snd).
Qed.

(** A strided write that succeeds on an array succeeds on any array of
    the same length, and writes the same values at the same indices. *)
Lemma set_strided_same_length {A} (a a' b : list A) idx step values :
  set_strided a idx step values = Ok a' →
  length b = length a →
  ∃ b', set_strided b idx step values = Ok b'
        ∧ ∀ p, b' !! p = a' !! p ∨ (b' !! p = b !! p ∧ a' !! p = a !! p).
Proof.
  unfold set_strided. intros Ha Hlen. rewrite Hlen.
  destruct (decide (step = 0)); [done|].
  destruct values as [|v [|v' values]].
  - destruct (decide _); [|done]. injection Ha as <-.
    eexists; split; [done|]. intros p.
    by apply (foldl_insert_lookup fst snd).
  - injection Ha as <-. eexists; split; [done|]. intros p.
    by apply (foldl_insert_lookup id (λ _, v)).
  - destruct (decide _); [|done]. injection Ha as <-.
    eexists; split; [done|]. intros p.
    by apply (foldl_insert_lookup fst snd).
Qed.

(** ** Replaying the writes of an expansion *)

Lemma buffer_ext (y z : buffer) :
  same_shape y z →
  (∀ variable period i, cell y variable period i = cell z variable period i) →
  y = z.
Proof.
  intros [Hvars Hlens] Hcells.
  assert (∀ variable period,
    buffer_get y variable period = buffer_get z variable period) as Hget.
  { intros variable period.
    specialize (Hlens variable period).
    pose proof (Hcells variable period) as Hcell. unfold cell in Hcell.
    destruct (buffer_get y variable period) as [a|],
      (buffer_get z variable period) as [c|]; simplify_eq/=; try done.
    f_equal. by apply list_eq. }
  apply map_eq. intros variable.
  specialize (Hvars variable).
  pose proof (Hget variable) as Hperiods. unfold buffer_get in Hperiods.
  destruct (y !! variable) as [iy|] eqn:Hy,
    (z !! variable) as [iz|] eqn:Hz; simpl in *.
  - f_equal. apply map_eq. intros period. apply Hperiods.
  - destruct Hvars as [Hvars _]. by destruct Hvars.
  - destruct Hvars as [_ Hvars]. by destruct Hvars.
  - done.
Qed.

Lemma run_job_get b j b' :
  run_job b j = Ok b' →
  ∃ array array',
    array = default (default_array (job_name j) (job_count j))
              (buffer_get b (job_name j) (job_period j))
    ∧ set_strided array (job_index j) (job_step j) (job_values j)
      = Ok array'
    ∧ b' = buffer_set b (job_name j) (job_period j) array'.
Proof.
  unfold run_job.
  destruct (set_strided _ _ _ _) as [array'|] eqn:Hset; simpl; [|done].
  intros [= <-]. eauto.
Qed.

(** The arrays of a buffer keep their length through the writes. *)
Lemma run_job_length b j b' variable period a :
  run_job b j = Ok b' →
  buffer_get b variable period = Some a →
  ∃ a', buffer_get b' variable period = Some a' ∧ length a' = length a.
Proof.
  intros (array & array' & -> & Hset & ->)%run_job_get Ha.
  rewrite buffer_get_set.
  destruct (decide _) as [[<- <-]|_]; [|eauto].
  rewrite Ha in Hset. simpl in Hset.
  eexists; split; [done|]. by eapply set_strided_length.
Qed.

Lemma run_jobs_length jobs b b' variable period a :
  foldM run_job jobs b = Ok b' →
  buffer_get b variable period = Some a →
  ∃ a', buffer_get b' variable period = Some a' ∧ length a' = length a.
Proof.
  revert b a. induction jobs as [|j jobs IH]; intros b a.
  - intros [= <-]. eauto.
  - rewrite foldM_cons.
    destruct (run_job b j) as [b1|] eqn:Hjob; simpl; [|done].
    intros Hjobs Ha.
    destruct (run_job_length _ _ _ _ _ _ Hjob Ha) as (a1 & Ha1 & Hlen1).
    destruct (IH _ _ Hjobs Ha1) as (a' & Ha' & Hlen').
    exists a'. split; [done|]. congruence.
Qed.

(** The writes that succeeded from the buffer [x] succeed again from any
    buffer [y] that has the shape of the buffer [z], provided the arrays
    that the first run ends with have the lengths they have in [z]; every
    cell of the result is then the cell of the first run, or still the
    cell of [z]. *)
Lemma run_jobs_replay jobs x x' y z :
  foldM run_job jobs x = Ok x' →
  (∀ variable period a,
     buffer_get x' variable period = Some a →
     ∃ c, buffer_get z variable period = Some c ∧ length c = length a) →
  same_shape y z →
  (∀ variable period i,
     cell y variable period i = cell x variable period i
     ∨ cell y variable period i = cell z variable period i) →
  ∃ y',
    foldM run_job jobs y = Ok y'
    ∧ same_shape y' z
    ∧ ∀ variable period i,
        cell y' variable period i = cell x' variable period i
        ∨ cell y' variable period i = cell z variable period i.
Proof.
  revert x y. induction jobs as [|j jobs IH]; intros x y.
  { intros [= <-] _ Hshape Hcells. exists y. eauto. }
  rewrite !foldM_cons.
  destruct (run_job x j) as [x1|] eqn:Hjob; simpl; [|done].
  intros Hjobs Hfinal [Hvars Hlens] Hcells.
  pose proof Hjob as (ax & ax' & Hax & Hset & Hx1)%run_job_get.
  (* the array of the job in [y] has the length it has in the first run *)
  assert (∃ ay, buffer_get y (job_name j) (job_period j) = Some ay
                ∧ length ay = length ax) as (ay & Hay & Hlen).
  { assert (buffer_get x1 (job_name j) (job_period j) = Some ax') as Hx1j.
    { rewrite Hx1, buffer_get_set. by destruct (decide _) as [|[]]. }
    destruct (run_jobs_length _ _ _ _ _ _ Hjobs Hx1j) as (a' & Ha' & Hlen').
    destruct (Hfinal _ _ _ Ha') as (c & Hc & Hlenc).
    specialize (Hlens (job_name j) (job_period j)).
    rewrite Hc in Hlens.
    destruct (buffer_get y _ _) as [ay|]; simplify_eq/=.
    exists ay. split; [done|].
    apply set_strided_length in Hset. congruence. }
  destruct (set_strided_same_length _ _ ay _ _ _ Hset Hlen)
    as (ay' & Hsety & Hwrite).
  assert (run_job y j
          = Ok (buffer_set y (job_name j) (job_period j) ay')) as Hjoby.
  { unfold run_job. rewrite Hay. simpl. by rewrite Hsety. }
  rewrite Hjoby. simpl.
  apply (IH x1); [done|done| |].
  - (* the shape of [y] is unchanged *)
    split.
    + intros variable. rewrite <-Hvars. unfold buffer_set.
      destruct (decide (job_name j = variable)) as [<-|Hne].
      * rewrite lookup_insert_eq. unfold buffer_get in Hay.
        destruct (y !! job_name j); [|done]. split; eauto.
      * by rewrite lookup_insert_ne.
    + intros variable period. rewrite <-Hlens, buffer_get_set.
      destruct (decide _) as [[<- <-]|_]; [|done].
      rewrite Hay. simpl. f_equal.
      apply set_strided_length in Hsety. done.
  - (* the cells *)
    intros variable period i. unfold cell.
    rewrite Hx1, !buffer_get_set.
    destruct (decide _) as [[<- <-]|_]; [|apply Hcells]. simpl.
    destruct (Hwrite i) as [Heq|[Hy Hx]]; [by left|].
    rewrite Hy, Hx.
    specialize (Hcells (job_name j) (job_period j) i).
    unfold cell in Hcells. rewrite Hay in Hcells. simpl in Hcells.
    destruct Hcells as [Hcell|Hcell]; [|by right]. left.
    rewrite Hcell.
    destruct (buffer_get x (job_name j) (job_period j)) as [ax0|] eqn:Hx0;
      simpl in *; [by subst ax|].
    rewrite Hcell in *. symmetry. apply lookup_ge_None.
    apply lookup_ge_None in Hcell. lia.
Qed.

(** Running the same writes a second time leaves the buffer as the first
    run left it. *)
Lemma run_jobs_twice jobs b b' :
  foldM run_job jobs b = Ok b' → foldM run_job jobs b' = Ok b'.
Proof.
  intros Hjobs.
  destruct (run_jobs_replay jobs b b' b' b') as (y' & Hy' & Hshape & Hcells).
  - done.
  - eauto.
  - done.
  - by right.
  - rewrite Hy'. f_equal. apply buffer_ext; [done|].
    intros variable period i. by destruct (Hcells variable period i).
Qed.

(** ** The writes of an expansion *)

Lemma distribute_run_job default_period count step values b a :
  distribute default_period count step values b a
  = run_job b (job_of default_period count step values a).
Proof. by rewrite distribute_eq. Qed.

Lemma foldM_distribute_jobs default_period count step values l b :
  foldM (distribute default_period count step values) l b
  = foldM run_job (job_of default_period count step values <$> l) b.
Proof.
  revert b. induction l as [|a l IH]; intros b; [done|].
  rewrite fmap_cons, !foldM_cons, distribute_run_job.
  destruct (run_job _ _); simpl; [apply IH|done].
Qed.

Lemma mapM_result_ext {A B} (f g : A → result B) l :
  (∀ x, f x = g x) → mapM f l = mapM g l.
Proof.
  intros Hfg. induction l as [|x l IH]; simpl; [done|].
  by rewrite Hfg, IH.
Qed.

Lemma foldM_ext {A B} (f g : B → A → result B) l acc :
  (∀ acc x, f acc x = g acc x) → foldM f l acc = foldM g l acc.
Proof.
  intros Hfg. revert acc. induction l as [|x l IH]; intros acc; [done|].
  rewrite !foldM_cons, Hfg. destruct (g acc x); simpl; [apply IH|done].
Qed.

Lemma static_eq_refl self : static_eq self self.
Proof. by repeat split. Qed.

Lemma static_eq_trans self1 self2 self3 :
  static_eq self1 self2 → static_eq self2 self3 → static_eq self1 self3.
Proof.
  unfold static_eq. intros (?&?&?&?&?) (?&?&?&?&?).
  repeat split; congruence.
Qed.

Lemma group_plan_static self self' steps_count entity_sizes group :
  static_eq self self' →
  group_plan self steps_count entity_sizes group
  = group_plan self' steps_count entity_sizes group.
Proof.
  intros (Hperiod & Hregistry & _ & Hids & _).
  unfold group_plan, get_variable_entity.
  by rewrite Hperiod, Hregistry, Hids.
Qed.

Lemma expand_group_unfold steps_count entity_sizes self group :
  expand_group steps_count entity_sizes self group
  = plan ← group_plan self steps_count entity_sizes group;
    b ← foldM run_job plan.1 (input_buffer self);
    Ok (group_expansion self plan.2.1 plan.2.2 b).
Proof.
  destruct group as [parallel_axes mesh]. unfold expand_group, group_plan.
  destruct (first_of parallel_axes) as [first_axis|]; simpl; [|done].
  destruct (get_variable_entity self _) as [e|]; simpl; [|done].
  destruct (getitem entity_sizes _) as [step|]; simpl; [|done].
  unfold get_ids, get_or, getitem at 1 2; simpl.
  destruct (entity_ids self !! entity_plural e) as [ids|] eqn:Hids;
    simpl; [|done].
  rewrite foldM_distribute_jobs.
  destruct (foldM _ _ _) as [b|]; simpl; [|done].
  unfold group_expansion. by rewrite Hids.
Qed.

Lemma expand_groups_inv steps_count entity_sizes groups self self' :
  foldM (expand_group steps_count entity_sizes) groups self = Ok self' →
  ∃ plans,
    mapM (group_plan self steps_count entity_sizes) groups = Ok plans
    ∧ foldM run_job (mjoin plans.*1) (input_buffer self)
      = Ok (input_buffer self')
    ∧ static_eq self self'
    ∧ axes_entity_counts self'
      = foldl (λ counts plan, <[plan.2.1 := plan.2.2]> counts)
              (axes_entity_counts self) plans.
Proof.
  revert self. induction groups as [|group groups IH]; intros self.
  { intros [= <-]. exists []. by repeat split. }
  rewrite foldM_cons, expand_group_unfold.
  destruct (group_plan self _ _ group) as [plan|] eqn:Hplan; simpl; [|done].
  destruct (foldM run_job plan.1 _) as [b|] eqn:Hb; simpl; [|done].
  intros (plans & Hplans & Hjobs & Hstatic & Hcounts)%IH.
  assert (static_eq self (group_expansion self plan.2.1 plan.2.2 b))
    as Hstep by (by repeat split).
  rewrite (mapM_result_ext _ (group_plan self steps_count entity_sizes))
    in Hplans by (intros; symmetry; by apply group_plan_static).
  exists (plan :: plans). split; [|split; [|split]].
  - simpl. rewrite Hplan. simpl. by rewrite Hplans.
  - simpl. rewrite foldM_app, Hb. simpl. exact Hjobs.
  - by eapply static_eq_trans.
  - rewrite Hcounts. done.
Qed.

Lemma expand_groups_intro steps_count entity_sizes groups self plans b :
  mapM (group_plan self steps_count entity_sizes) groups = Ok plans →
  foldM run_job (mjoin plans.*1) (input_buffer self) = Ok b →
  ∃ self',
    foldM (expand_group steps_count entity_sizes) groups self = Ok self'
    ∧ input_buffer self' = b
    ∧ static_eq self self'
    ∧ axes_entity_counts self'
      = foldl (λ counts plan, <[plan.2.1 := plan.2.2]> counts)
              (axes_entity_counts self) plans.
Proof.
  revert self plans. induction groups as [|group groups IH];
    intros self plans; simpl.
  { intros [= <-] [= <-]. exists self. by repeat split. }
  destruct (group_plan self _ _ group) as [plan|] eqn:Hplan; simpl; [|done].
  destruct (mapM _ groups) as [plans'|] eqn:Hplans; simpl; [|done].
  intros [= <-]. simpl. rewrite foldM_app.
  destruct (foldM run_job plan.1 _) as [b1|] eqn:Hb1; simpl; [|done].
  intros Hjobs.
  assert (static_eq self (group_expansion self plan.2.1 plan.2.2 b1))
    as Hstep by (by repeat split).
  rewrite (mapM_result_ext _
             (group_plan (group_expansion self plan.2.1 plan.2.2 b1)
                steps_count entity_sizes))
    in Hplans by (intros; by apply group_plan_static).
  destruct (IH _ _ Hplans Hjobs) as (self' & Hfold & Hbuf & Hstatic & Hcounts).
  exists self'. split; [|split; [done|split]].
  - by rewrite foldM_cons, expand_group_unfold, Hplan; simpl; rewrite Hb1.
  - by eapply static_eq_trans.
  - rewrite Hcounts. done.
Qed.

Lemma static_eq_reset self : static_eq self (set_axes_entity_counts ∅ self).
Proof. by repeat split. Qed.

Lemma group_size_static self self' sizes parallel_axes :
  static_eq self self' →
  group_size (set_axes_entity_counts ∅ self) sizes parallel_axes
  = group_size (set_axes_entity_counts ∅ self') sizes parallel_axes.
Proof.
  intros (_ & Hregistry & Hcounts & _ & _). destruct sizes as [steps sizes].
  unfold group_size, get_variable_entity.
  change (variable_entities (set_axes_entity_counts ∅ self))
    with (variable_entities self).
  change (variable_entities (set_axes_entity_counts ∅ self'))
    with (variable_entities self').
  rewrite Hregistry.
  destruct (first_of parallel_axes) as [first_axis|]; simpl; [|done].
  destruct (getitem _ _) as [e|]; simpl; [|done].
  by rewrite !get_count_reset, Hcounts.
Qed.

Lemma expand_plan_static self self' :
  static_eq self self' → expand_plan self = expand_plan self'.
Proof.
  intros Hstatic. pose proof Hstatic as (Hperiod & Hregistry & Hcounts
                                          & Hids & Haxes).
  unfold expand_plan. rewrite <-Haxes.
  destruct (axes self) as [|[|first_axis rest] [|group groups]].
  4: { unfold get_variable_entity. by rewrite Hperiod, Hregistry, Hcounts,
         Hids. }
  all: destruct (mapM _ _) as [axes_linspaces|]; simpl; [|done].
  all: try done.
  all: rewrite (foldM_ext _ (group_size (set_axes_entity_counts ∅ self')))
      by (intros; by apply group_size_static).
  all: destruct (foldM _ _ _) as [sizes|]; simpl; [|done].
  all: by rewrite (mapM_result_ext _ (group_plan self' sizes.1 sizes.2))
      by (intros; by apply group_plan_static).
Qed.



Lemma expand_axes_perpendicular_unfold self :
  (∀ first_axis rest, axes self ≠ [first_axis :: rest]) →
  expand_axes self = expand_perpendicular (set_axes_entity_counts ∅ self)
  ∧ expand_plan self
    = axes_linspaces ←
        mapM (λ parallel_axes,
                first_axis ← first_of parallel_axes;
                if decide (ax_count first_axis < 0)%Z then Err ValueError
                else Ok (linspace 0 (Qc_of_Z (ax_count first_axis - 1))
                                  (Z.to_nat (ax_count first_axis))))
             (axes self);
      sizes ← foldM (group_size (set_axes_entity_counts ∅ self))
                    (axes self) (1, ∅);
      plans ← mapM (group_plan self sizes.1 sizes.2)
                   (zip (axes self) (meshgrid_flat axes_linspaces));
      Ok (mjoin plans.*1,
          foldl (λ counts plan, <[plan.2.1 := plan.2.2]> counts) ∅ plans).
Proof.
  intros Hshape. unfold expand_axes, expand_plan.
  change (axes (set_axes_entity_counts ∅ self)) with (axes self).
  destruct (axes self) as [|[|first_axis rest] [|group groups]]; try done.
  by destruct (Hshape first_axis rest).
Qed.

Lemma get_ids_Ok_inv self entity_name ids :
  get_ids self entity_name = Ok ids →
  is_Some (entity_ids self !! entity_name).
Proof.
  unfold get_ids, get_or, getitem.
  destruct (entity_ids self !! entity_name); [eauto|done].
Qed.

(** An expansion that returns has run the writes of its plan. *)
Lemma expand_axes_plan self self' :
  expand_axes self = Ok self' →
  ∃ jobs counts,
    expand_plan self = Ok (jobs, counts)
    ∧ foldM run_job jobs (input_buffer self) = Ok (input_buffer self')
    ∧ static_eq self self'
    ∧ axes_entity_counts self' = counts.
Proof.
  intros Hexpand.
  destruct (axes self) as [|[|first_axis rest] [|group groups]] eqn:Haxes.
  4: { destruct (expand_axes_parallel_inv _ _ _ _ Haxes Hexpand)
         as (e & step & ids & b & He & Hstep & Hids & Hcount & Hb & ->).
       apply get_ids_Ok_inv in Hids as [ids0 Hids0].
       unfold expand_plan. rewrite Haxes. unfold get_variable_entity.
       rewrite (getitem_Some _ _ _ He). simpl.
       rewrite (getitem_Some _ _ _ Hstep). simpl.
       rewrite (getitem_Some _ _ _ Hids0). simpl.
       destruct (decide (ax_count first_axis < 0)%Z); [lia|].
       eexists _, _. split; [done|]. split; [|split].
       - change (input_buffer (parallel_expansion _ _ _ _ _ b)) with b.
         rewrite <-Hb. symmetry. apply foldM_distribute_jobs.
       - by repeat split.
       - simpl. by rewrite insert_empty. }
  all: destruct (expand_axes_perpendicular_unfold self) as [Hunfold Hplan];
    [rewrite Haxes; intros ??; discriminate|].
  all: rewrite Hunfold in Hexpand; rewrite Hplan; clear Hunfold Hplan.
  all: unfold expand_perpendicular in Hexpand.
  all: change (axes (set_axes_entity_counts ∅ self)) with (axes self)
    in Hexpand.
  all: destruct (mapM _ (axes self)) as [axes_linspaces|];
    simpl in Hexpand |- *; [|done].
  all: destruct (foldM (group_size _) _ _) as [[steps sizes]|];
    simpl in Hexpand |- *; [|done].
  all: apply expand_groups_inv in Hexpand
    as (plans & Hplans & Hjobs & Hstatic & Hcounts).
  all: rewrite (mapM_result_ext _ (group_plan self steps sizes)) in Hplans
    by (intros; symmetry; apply group_plan_static, static_eq_reset).
  all: rewrite Hplans; simpl.
  all: eexists _, _; split; [done|]; split; [exact Hjobs|].
  all: split; [|exact Hcounts].
  all: eapply static_eq_trans; [apply static_eq_reset|exact Hstatic].
Qed.

(** The branch of one group, step by step. *)
Lemma expand_axes_parallel_eq self first_axis rest :
  axes self = [first_axis :: rest] →
  expand_axes self
  = e ← getitem (variable_entities self) (ax_name first_axis);
    step ← getitem (entity_counts self) (entity_plural e);
    ids ← get_ids self (entity_plural e);
    if decide (ax_count first_axis < 0)%Z then Err ValueError else
    b ← foldM (distribute (default_period self)
                 (Z.to_nat (ax_count first_axis) * step) step
                 (λ a, Fin <$> linspace (ax_min a) (ax_max a)
                                 (Z.to_nat (ax_count first_axis))))
              (first_axis :: rest) (input_buffer self);
    Ok (parallel_expansion (set_axes_entity_counts ∅ self)
          first_axis e step ids b).
Proof.
  intros Haxes. unfold expand_axes; simpl.
  rewrite Haxes, expand_parallel_unfold.
  unfold get_variable_entity; simpl.
  destruct (getitem (variable_entities self) _) as [e|]; simpl; [|done].
  by rewrite get_count_reset.
Qed.

(** The writes of the plan of a builder, when they succeed, are what
    [expand_axes] does to the buffer. *)
Lemma expand_axes_replan self jobs counts b :
  expand_plan self = Ok (jobs, counts) →
  foldM run_job jobs (input_buffer self) = Ok b →
  ∃ self',
    expand_axes self = Ok self'
    ∧ input_buffer self' = b
    ∧ static_eq self self'
    ∧ axes_entity_counts self' = counts.
Proof.
  intros Hplan Hjobs.
  destruct (axes self) as [|[|first_axis rest] [|group groups]] eqn:Haxes.
  4: { rewrite (expand_axes_parallel_eq self first_axis rest Haxes).
       unfold expand_plan in Hplan. rewrite Haxes in Hplan.
       unfold get_variable_entity in Hplan.
       destruct (getitem (variable_entities self) _) as [e|];
         simpl in Hplan |- *; [|done].
       destruct (getitem (entity_counts self) _) as [step|];
         simpl in Hplan |- *; [|done].
       destruct (getitem (entity_ids self) _) as [ids0|] eqn:Hids0;
         simpl in Hplan; [|done].
       unfold getitem in Hids0.
       destruct (entity_ids self !! entity_plural e) as [ids1|] eqn:Hids1;
         [|done].
       rewrite (get_ids_Ok _ _ _ Hids1). simpl.
       destruct (decide (ax_count first_axis < 0)%Z); [done|].
       injection Hplan as <- <-.
       rewrite foldM_distribute_jobs.
       replace (foldM run_job _ (input_buffer self)) with (Ok b)
         by (symmetry; exact Hjobs).
       simpl.
       eexists; split; [done|]. split; [done|]. split; [by repeat split|].
       simpl. by rewrite insert_empty. }
  all: destruct (expand_axes_perpendicular_unfold self) as [Hunfold Hplan'];
    [rewrite Haxes; intros ??; discriminate|].
  all: rewrite Hunfold; rewrite Hplan' in Hplan; clear Hunfold Hplan'.
  all: unfold expand_perpendicular.
  all: change (axes (set_axes_entity_counts ∅ self)) with (axes self).
  all: destruct (mapM _ (axes self)) as [axes_linspaces|];
    simpl in Hplan |- *; [|done].
  all: destruct (foldM (group_size _) _ _) as [[steps sizes]|];
    simpl in Hplan |- *; [|done].
  all: destruct (mapM (group_plan self steps sizes) _) as [plans|] eqn:Hplans;
    simpl in Hplan; [|done].
  all: injection Hplan as <- <-.
  all: rewrite (mapM_result_ext _
                  (group_plan (set_axes_entity_counts ∅ self) steps sizes))
    in Hplans by (intros; apply group_plan_static, static_eq_reset).
  all: destruct (expand_groups_intro _ _ _ _ _ _ Hplans Hjobs)
    as (self' & Hfold & Hbuf & Hstatic & Hcounts).
  all: exists self'; split; [exact Hfold|]; split; [exact Hbuf|].
  all: split; [|exact Hcounts].
  all: eapply static_eq_trans; [apply static_eq_reset|exact Hstatic].
Qed.

(** ** Expanding twice *)

(** C6. When [expand_axes] has returned, a second call on the builder it
    returned, whose axes are the same, returns too, and leaves the size
    that [get_count] reports for every entity and the whole input buffer
    as the first call left them. *)
Theorem expand_axes_twice self self1 :
  expand_axes self = Ok self1 →
  ∃ self2,
    expand_axes self1 = Ok self2
    ∧ (∀ entity_name,
         get_count self2 entity_name = get_count self1 entity_name)
    ∧ input_buffer self2 = input_buffer self1.
Proof.
  intros (jobs & counts & Hplan & Hjobs & Hstatic & Hcounts)%expand_axes_plan.
  rewrite (expand_plan_static _ _ Hstatic) in Hplan.
  apply run_jobs_twice in Hjobs.
  destruct (expand_axes_replan _ _ _ _ Hplan Hjobs)
    as (self2 & Hexpand & Hbuf & (_ & _ & Hsizes & _ & _) & Hcounts2).
  exists self2. split; [done|]. split; [|done].
  intros entity_name. unfold get_count. by rewrite <-Hsizes, Hcounts, Hcounts2.
Qed.

(** ** Reading a strided slot *)











(** ** The values written by the parallel branch *)











(** ** Parallel axes that do not match *)


(** ** Allocation of the persons to the instances of a group entity *)

Lemma strings_of_fmap l : strings_of (JList (JStr <$> l)) = l.
Proof.
  unfold strings_of. induction l as [|x l IH]; [done|].
  rewrite fmap_cons. simpl. f_equal. exact IH.
Qed.

Lemma allocate_person_spec persons_plural persons_ids e instance_id role_id
    persons_to_allocate j x persons_to_allocate' :
  allocate_person persons_plural persons_ids e instance_id role_id
    persons_to_allocate (j, x) = Ok persons_to_allocate' →
  ∃ p, x = JStr p ∧ p ∈ persons_ids ∧ p ∈ persons_to_allocate
       ∧ persons_to_allocate' = persons_to_allocate ∖ {[p]}.
Proof.
  unfold allocate_person, check_persons_to_allocate, check_type_str.
  destruct x as [| | | |p| |]; simpl; try done.
  destruct (decide (p ∉ persons_ids)) as [|Hin]; simpl; [done|].
  destruct (decide (p ∉ persons_to_allocate)) as [|Hto]; simpl; [done|].
  apply dec_stable in Hin, Hto. intros [= <-]. eauto.
Qed.

(** The loop over the persons of one role list. *)
Lemma allocate_persons_spec persons_plural persons_ids e instance_id role_id
    l j persons_to_allocate persons_to_allocate' :
  foldM (allocate_person persons_plural persons_ids e instance_id role_id)
        (zip (seq j (length l)) l) persons_to_allocate
  = Ok persons_to_allocate' →
  ∃ persons,
    l = JStr <$> persons
    ∧ NoDup persons
    ∧ (∀ p, p ∈ persons → p ∈ persons_ids ∧ p ∈ persons_to_allocate)
    ∧ persons_to_allocate'
      = persons_to_allocate ∖ list_to_set persons.
Proof.
  revert j persons_to_allocate.
  induction l as [|x l IH]; intros j persons_to_allocate.
  { intros [= <-]. exists []. split; [done|]. split; [constructor|].
    split; [by intros q Hq%elem_of_nil|set_solver]. }
  simpl. rewrite foldM_cons.
  destruct (allocate_person _ _ _ _ _ persons_to_allocate (j, x))
    as [persons_to_allocate1|] eqn:Hperson; simpl; [|done].
  apply allocate_person_spec in Hperson as (p & -> & Hin & Hto & ->).
  intros (persons & -> & Hdup & Hall & ->)%IH.
  exists (p :: persons). split; [done|]. split; [|split].
  - constructor; [|done]. intros Hp. apply Hall in Hp. set_solver.
  - intros q [->|Hq]%elem_of_cons; [done|].
    apply Hall in Hq. set_solver.
  - set_solver.
Qed.

(** The loop over the role lists of one instance: they are lists of
    strings, the persons of all the lists are distinct persons still to
    allocate, and they are discarded. *)
Lemma allocate_roles_spec persons_plural persons_ids e instance_id roles_json
    persons_to_allocate persons_to_allocate' :
  foldM (allocate_role persons_plural persons_ids e instance_id)
        roles_json persons_to_allocate
  = Ok persons_to_allocate' →
  Forall (λ role, ∃ l, role.2 = JList (JStr <$> l)) roles_json
  ∧ NoDup (roles_json.*2 ≫= strings_of)
  ∧ (∀ p, p ∈ roles_json.*2 ≫= strings_of →
          p ∈ persons_ids ∧ p ∈ persons_to_allocate)
  ∧ persons_to_allocate'
    = persons_to_allocate ∖ list_to_set (roles_json.*2 ≫= strings_of).
Proof.
  revert persons_to_allocate.
  induction roles_json as [|[role_id definition] roles_json IH];
    intros persons_to_allocate.
  { intros [= <-]. split; [constructor|]. split; [constructor|].
    split; [by intros q Hq%elem_of_nil|set_solver]. }
  rewrite foldM_cons.
  destruct (allocate_role _ _ _ _ persons_to_allocate (role_id, definition))
    as [persons_to_allocate1|] eqn:Hpersons; simpl; [|done].
  unfold allocate_role, check_type_list in Hpersons.
  destruct definition as [| | | | |l|]; simpl in Hpersons; try done.
  apply allocate_persons_spec in Hpersons
    as (persons & -> & Hdup & Hall & ->).
  intros (Hlists & Hdup' & Hall' & ->)%IH.
  rewrite strings_of_fmap. split; [|split; [|split]].
  - constructor; [simpl; eauto|done].
  - apply NoDup_app. split; [done|]. split; [|done].
    intros p Hp Hp'. apply Hall' in Hp'. set_solver.
  - intros p [Hp|Hp]%elem_of_app; [by apply Hall|].
    apply Hall' in Hp. set_solver.
  - set_solver.
Qed.

(** *** Ordered dictionaries *)

Lemma dict_get_None {V} k (d : list (string * V)) :
  dict_get k d = None ↔ k ∉ d.*1.
Proof.
  induction d as [|[k' v] d IH]; simpl.
  - split; [intros _ Hk; by apply elem_of_nil in Hk|done].
  - destruct (decide (k' = k)) as [->|Hne].
    + split; [done|]. intros []. left.
    + rewrite IH, not_elem_of_cons. naive_solver.
Qed.

Lemma dict_get_set_eq {V} k (v : V) d : dict_get k (dict_set k v d) = Some v.
Proof.
  induction d as [|[k' v'] d IH]; simpl.
  - by rewrite decide_True.
  - destruct (decide (k' = k)) as [->|Hne]; simpl.
    + by rewrite decide_True.
    + by rewrite decide_False.
Qed.

Lemma dict_get_set_ne {V} k k' (v : V) d :
  k ≠ k' → dict_get k' (dict_set k v d) = dict_get k' d.
Proof.
  intros Hne. induction d as [|[k'' v'] d IH]; simpl.
  - by rewrite decide_False.
  - destruct (decide (k'' = k)) as [->|Hne']; simpl.
    + by rewrite !decide_False.
    + by rewrite IH.
Qed.

Lemma dict_set_fst_elem_of {V} k (v : V) d :
  k ∈ d.*1 → (dict_set k v d).*1 = d.*1.
Proof.
  induction d as [|[k' v'] d IH]; simpl.
  - by intros ?%elem_of_nil.
  - destruct (decide (k' = k)) as [->|Hne]; simpl; [done|].
    intros [?|Hk]%elem_of_cons; [done|]. f_equal. by apply IH.
Qed.

Lemma dict_set_not_elem_of {V} k (v : V) d :
  k ∉ d.*1 → dict_set k v d = d ++ [(k, v)].
Proof.
  induction d as [|[k' v'] d IH]; simpl; [done|].
  intros [Hne Hk]%not_elem_of_cons.
  rewrite decide_False by done. by rewrite IH.
Qed.

Lemma dict_get_filter_ne {V} k k' (d : list (string * V)) :
  dict_get k' (filter (λ kv, kv.1 ≠ k) d)
  = if decide (k' = k) then None else dict_get k' d.
Proof.
  induction d as [|[k'' v] d IH]; simpl.
  - by destruct (decide _).
  - rewrite filter_cons. simpl.
    destruct (decide (k'' ≠ k)) as [Hne|Heq%dec_stable]; simpl.
    + rewrite IH. destruct (decide (k'' = k')) as [->|]; [|done].
      by rewrite decide_False.
    + subst k''. rewrite IH.
      destruct (decide (k' = k)) as [->|]; [done|].
      by rewrite decide_False.
Qed.

Lemma dict_get_elem_of_NoDup {V} k (v : V) d :
  NoDup d.*1 → (k, v) ∈ d → dict_get k d = Some v.
Proof.
  induction d as [|[k' v'] d IH]; simpl.
  - by intros _ ?%elem_of_nil.
  - intros [Hfresh Hdup]%NoDup_cons [[= -> ->]|Hin]%elem_of_cons.
    + by rewrite decide_True.
    + rewrite decide_False; [by apply IH|].
      intros ->. apply Hfresh.
      by apply (list_elem_of_fmap_2 fst) in Hin.
Qed.

(** With distinct keys, going through the values is going through the
    keys and getting each value. *)
Lemma dict_values_bind {V B} (f : V → list B) (x : V)
    (d : list (string * V)) :
  NoDup d.*1 →
  d.*2 ≫= f = d.*1 ≫= (λ k, f (default x (dict_get k d))).
Proof.
  intros Hdup.
  assert (∀ d', (∀ kv, kv ∈ d' → dict_get kv.1 d = Some kv.2) →
    d'.*2 ≫= f = d'.*1 ≫= (λ k, f (default x (dict_get k d)))) as Hgen.
  { induction d' as [|[k v] d' IH]; intros Hd'; [done|]. simpl.
    pose proof (Hd' (k, v) ltac:(left)) as Hk. simpl in Hk.
    rewrite Hk. simpl. f_equal.
    apply IH. intros kv Hkv. apply Hd'. by right. }
  apply Hgen. intros [k v] Hkv. by apply dict_get_elem_of_NoDup.
Qed.

(** *** The role lists of an instance *)

Lemma filter_eq_nil (n : string) names :
  n ∉ names → filter (λ m, m = n) names = [].
Proof.
  intros Hn. destruct (filter _ names) as [|m l] eqn:Hfilter; [done|].
  assert (m ∈ filter (λ m, m = n) names) as Hm by (rewrite Hfilter; left).
  apply list_elem_of_filter in Hm as [-> Hm]. done.
Qed.

Lemma repeated_cons n names : n ∈ names → repeated n (n :: names).
Proof.
  intros Hn. unfold repeated. rewrite filter_cons_True by done.
  destruct (filter _ names) as [|m l] eqn:Hfilter; [|simpl; lia].
  assert (n ∈ filter (λ m, m = n) names) as Hm
    by by apply list_elem_of_filter.
  rewrite Hfilter in Hm. by apply elem_of_nil in Hm.
Qed.

Lemma repeated_cons_2 n m names : repeated n names → repeated n (m :: names).
Proof.
  unfold repeated. rewrite filter_cons.
  destruct (decide (m = n)); simpl; lia.
Qed.

Lemma repeated_snoc n m names :
  repeated n (names ++ [m]) →
  if decide (m = n) then n ∈ names else repeated n names.
Proof.
  unfold repeated. rewrite filter_app, length_app, filter_cons.
  destruct (decide (m = n)) as [->|Hne]; simpl.
  - intros Hlen. destruct (decide (n ∈ names)) as [|Hn]; [done|].
    rewrite (filter_eq_nil _ _ Hn) in Hlen. simpl in Hlen. lia.
  - intros Hlen. lia.
Qed.

Lemma transform_to_strict_syntax_nil :
  transform_to_strict_syntax (JList []) = JList [].
Proof. done. Qed.

Lemma roles_split_nil instance_object :
  roles_split instance_object [] ([], instance_object).
Proof.
  split; [constructor|]. split; [done|]. split; [done|].
  split; [done|]. unfold repeated. simpl. lia.
Qed.

Lemma roles_split_step instance_object names split role :
  roles_split instance_object names split →
  roles_split instance_object (names ++ [role_name role])
    (split_role split role).
Proof.
  destruct split as [roles_json variables_json].
  intros (Hdup & Hkeys & Hpop & Hvalues & Hrepeated).
  unfold roles_split, split_role, dict_pop. simpl in *.
  set (n := role_name role).
  assert (∀ m, m ∈ (dict_set n
      (transform_to_strict_syntax (default (JList []) (dict_get n variables_json)))
      roles_json).*1 ↔ m ∈ names ++ [n]) as Hkeys'.
  { intros m. rewrite elem_of_app, list_elem_of_singleton.
    destruct (decide (n ∈ roles_json.*1)) as [Hn|Hn].
    - rewrite dict_set_fst_elem_of by done. rewrite Hkeys.
      split; [by left|]. intros [?| ->]; [done|]. by apply Hkeys.
    - rewrite dict_set_not_elem_of by done.
      rewrite fmap_app, elem_of_app, Hkeys. simpl.
      by rewrite list_elem_of_singleton. }
  split; [|split; [done|split; [|split]]].
  - destruct (decide (n ∈ roles_json.*1)) as [Hn|Hn].
    + by rewrite dict_set_fst_elem_of.
    + rewrite dict_set_not_elem_of by done. rewrite fmap_app. simpl.
      apply NoDup_app. split; [done|]. split; [|apply NoDup_singleton].
      intros m Hm ->%list_elem_of_singleton. done.
  - intros m. rewrite dict_get_filter_ne, Hpop.
    destruct (decide (m = n)) as [->|Hne].
    + rewrite decide_True; [done|]. apply elem_of_app. right. left.
    + destruct (decide (m ∈ names)) as [Hm|Hm].
      * rewrite decide_True; [done|]. apply elem_of_app. by left.
      * rewrite decide_False; [done|].
        rewrite elem_of_app, list_elem_of_singleton. naive_solver.
  - intros m v. destruct (decide (n = m)) as [<-|Hne].
    + rewrite dict_get_set_eq. intros [= <-]. rewrite Hpop.
      destruct (decide (n ∈ names)); [left|right]; done.
    + rewrite dict_get_set_ne by done. apply Hvalues.
  - intros m Hm%repeated_snoc. fold n in Hm.
    destruct (decide (n = m)) as [<-|Hne].
    + rewrite dict_get_set_eq, Hpop. by rewrite decide_True.
    + rewrite dict_get_set_ne by done. by apply Hrepeated.
Qed.

Lemma roles_split_foldl instance_object names split roles :
  roles_split instance_object names split →
  roles_split instance_object (names ++ (role_name <$> roles))
    (foldl split_role split roles).
Proof.
  revert names split. induction roles as [|role roles IH];
    intros names split Hsplit; simpl.
  - by rewrite app_nil_r.
  - rewrite cons_middle, (assoc_L (++)).
    apply IH. by apply roles_split_step.
Qed.

Lemma split_roles_spec e instance_object :
  roles_split instance_object (role_name <$> entity_roles e)
    (split_roles e instance_object).
Proof. apply (roles_split_foldl _ []), roles_split_nil. Qed.

(** *** The members of an instance *)

Lemma role_member_snd role indexed member :
  role_member role indexed = Ok member → member.2 = indexed.2.
Proof.
  destruct indexed as [j x]. unfold role_member.
  destruct (role_subroles role); [by intros [= <-]|].
  destruct (_ !! j); by intros [= <-].
Qed.

Lemma role_members_snd roles_json role l ms :
  dict_get (role_name role) roles_json = Some (JList (JStr <$> l)) →
  role_members roles_json role = Ok ms → ms.*2 = JStr <$> l.
Proof.
  intros Hget. unfold role_members. rewrite Hget. simpl.
  case_bool_decide as Hnil.
  - intros Hms%mapM_Ok. rewrite <-(snd_zip (seq 0 (length (JStr <$> l)))
      (JStr <$> l)) by (by rewrite length_seq).
    induction Hms as [|indexed member indexeds ms Hmember _ IH]; [done|].
    simpl. f_equal; [|done]. by apply role_member_snd in Hmember.
  - rewrite Hnil. by intros [= <-].
Qed.

Lemma role_members_join roles_json roles mss :
  Forall (λ role, ∃ l, role.2 = JList (JStr <$> l)) roles_json →
  Forall (λ role, role_name role ∈ roles_json.*1) roles →
  mapM (role_members roles_json) roles = Ok mss →
  (mjoin mss).*2
  = JStr <$> ((role_name <$> roles) ≫=
                λ n, strings_of (default JNull (dict_get n roles_json))).
Proof.
  intros Hlists Hroles Hmss%mapM_Ok.
  induction Hmss as [|role ms roles mss Hms _ IH]; [done|].
  apply Forall_cons in Hroles as [Hrole Hroles].
  destruct (dict_get (role_name role) roles_json) as [v|] eqn:Hget;
    [|by apply dict_get_None in Hget].
  pose proof (dict_get_elem_of _ _ _ Hget) as Hin.
  rewrite Forall_forall in Hlists. apply Hlists in Hin as [l Hl].
  simpl in Hl. subst v.
  apply (role_members_snd _ _ _ _ Hget) in Hms.
  rewrite fmap_cons, bind_cons, Hget.
  change (default JNull (Some ?x)) with x.
  rewrite strings_of_fmap, fmap_app, <-Hms.
  change (mjoin (ms :: mss)) with (ms ++ mjoin mss). rewrite fmap_app.
  f_equal. by apply IH.
Qed.

Lemma iter_over_entity_members_snd e roles_json members :
  Forall (λ role, ∃ l, role.2 = JList (JStr <$> l)) roles_json →
  (∀ n, n ∈ roles_json.*1 ↔ n ∈ role_name <$> entity_roles e) →
  iter_over_entity_members e roles_json = Ok members →
  members.*2
  = JStr <$> ((role_name <$> entity_roles e) ≫=
                λ n, strings_of (default JNull (dict_get n roles_json))).
Proof.
  intros Hlists Hkeys. unfold iter_over_entity_members.
  destruct (mapM _ _) as [mss|] eqn:Hmss; simpl; [|done].
  intros [= <-]. apply role_members_join; [done| |done].
  apply Forall_forall. intros role Hrole. apply Hkeys.
  by apply list_elem_of_fmap_2.
Qed.

(** A name that is repeated gives nothing, so that going through the
    names is going through the distinct names. *)
Lemma bind_remove_dups {B} (f : string → list B) names :
  (∀ n, repeated n names → f n = []) →
  names ≫= f ≡ₚ remove_dups names ≫= f.
Proof.
  induction names as [|n names IH]; intros Hrepeated; [done|].
  simpl. destruct (decide_rel _ _ _) as [Hn|Hn].
  - rewrite (Hrepeated n) by (by apply repeated_cons). simpl.
    apply IH. intros m Hm. by apply Hrepeated, repeated_cons_2.
  - simpl. f_equiv. apply IH. intros m Hm.
    by apply Hrepeated, repeated_cons_2.
Qed.

(** The persons that [iter_over_entity_members] goes through are those of
    the loop over [roles_json.items()], up to their order. *)
Lemma roles_split_members instance_object names split :
  roles_split instance_object names split →
  names ≫= (λ n, strings_of (default JNull (dict_get n split.1)))
  ≡ₚ split.1.*2 ≫= strings_of.
Proof.
  intros (Hdup & Hkeys & _ & _ & Hrepeated).
  rewrite (dict_values_bind strings_of JNull) by done.
  rewrite bind_remove_dups
    by (by intros n Hn; rewrite (Hrepeated n Hn)).
  apply bind_Permutation.
  apply NoDup_Permutation; [apply NoDup_remove_dups|done|].
  intros n. by rewrite elem_of_remove_dups, Hkeys.
Qed.

(** A person of an instance is in the list that the instance gives for a
    role. *)
Lemma roles_split_referenced e instance_object p :
  p ∈ (role_name <$> entity_roles e) ≫=
        (λ n, strings_of
                (default JNull (dict_get n (split_roles e instance_object).1))) →
  ∃ role, role ∈ entity_roles e
          ∧ p ∈ strings_of (role_definition_of instance_object role).
Proof.
  destruct (split_roles_spec e instance_object) as (_ & _ & _ & Hvalues & _).
  intros (n & Hp & (role & -> & Hrole)%list_elem_of_fmap)%list_elem_of_bind.
  exists role. split; [done|].
  destruct (dict_get _ _) as [v|] eqn:Hget; [|by apply elem_of_nil in Hp].
  apply Hvalues in Hget as [->| ->]; [by apply elem_of_nil in Hp|done].
Qed.

(** *** The two arrays *)

Lemma list_index_Ok x l i : list_index x l = Ok i → l !! i = Some x.
Proof.
  revert i. induction l as [|y l IH]; intros i; simpl; [done|].
  destruct (decide (y = x)) as [->|Hne]; [by intros [= <-]|].
  destruct (list_index x l) as [j|]; simpl; [|done].
  intros [= <-]. by apply IH.
Qed.

Lemma list_index_elem_of x l : x ∈ l → ∃ i, list_index x l = Ok i.
Proof.
  induction l as [|y l IH]; simpl; [by intros ?%elem_of_nil|].
  intros Hx. destruct (decide (y = x)) as [->|Hne]; [eauto|].
  apply elem_of_cons in Hx as [->|Hx]; [done|].
  destruct (IH Hx) as [i ->]. simpl. eauto.
Qed.

Lemma list_index_inj x y l i :
  list_index x l = Ok i → list_index y l = Ok i → x = y.
Proof. intros Hx%list_index_Ok Hy%list_index_Ok. congruence. Qed.

Lemma set_member_spec persons_ids entity_index memberships roles role x
    memberships' roles' :
  set_member persons_ids entity_index (memberships, roles) (role, x)
  = Ok (memberships', roles') →
  ∃ p i, x = JStr p ∧ list_index p persons_ids = Ok i
         ∧ i < length memberships
         ∧ memberships' = <[i := Z.of_nat entity_index]> memberships
         ∧ roles' = <[i := Some role]> roles.
Proof.
  unfold set_member. destruct x as [| | | |p| |]; simpl; try done.
  destruct (list_index p persons_ids) as [i|] eqn:Hi; simpl; [|done].
  destruct (decide _); [|done]. intros [= <- <-]. by exists p, i.
Qed.

(** The loop that fills the two arrays: a position that is not the one of
    a member is left as it is, and the position of a member holds the index
    of the instance and the role of the member. *)
Lemma set_members_spec persons_ids entity_index members memberships roles
    memberships' roles' :
  foldM (set_member persons_ids entity_index) members (memberships, roles)
  = Ok (memberships', roles') →
  length roles = length memberships →
  length memberships' = length memberships
  ∧ length roles' = length memberships
  ∧ (∀ i, (∀ role p, (role, JStr p) ∈ members →
                     list_index p persons_ids ≠ Ok i) →
          memberships' !! i = memberships !! i ∧ roles' !! i = roles !! i)
  ∧ (NoDup members.*2 →
     ∀ role p i, (role, JStr p) ∈ members →
                 list_index p persons_ids = Ok i →
                 memberships' !! i = Some (Z.of_nat entity_index)
                 ∧ roles' !! i = Some (Some role)).
Proof.
  revert memberships roles.
  induction members as [|[role0 x] members IH]; intros memberships roles.
  { intros [= <- <-] Hlen. split; [done|]. split; [done|].
    split; [done|]. by intros _ role p i ?%elem_of_nil. }
  rewrite foldM_cons.
  destruct (set_member _ _ _ _) as [[memberships1 roles1]|] eqn:Hfirst;
    simpl; [|done].
  apply set_member_spec in Hfirst as (p0 & i0 & -> & Hi0 & Hlt & -> & ->).
  intros Hrest Hlen.
  apply IH in Hrest as (Hlen1 & Hlen2 & Hother & Hmember);
    [|by rewrite !length_insert].
  rewrite !length_insert in Hlen1, Hlen2.
  split; [done|]. split; [done|]. split.
  - intros i Hi. destruct (Hother i) as [-> ->].
    { intros role p Hin. apply (Hi role). by right. }
    assert (i0 ≠ i) as Hne.
    { intros <-. by apply (Hi role0 p0); [left|]. }
    by rewrite !list_lookup_insert_ne.
  - intros [Hfresh Hdup]%NoDup_cons role p i
      [[= -> ->]|Hin]%elem_of_cons Hi; [|by apply (Hmember Hdup role p)].
    rewrite Hi in Hi0. injection Hi0 as ->.
    destruct (Hother i0) as [-> ->].
    { intros role' p' Hin Hp'.
      rewrite (list_index_inj _ _ _ _ Hi Hp') in Hfresh.
      apply Hfresh. by apply (list_elem_of_fmap_2 snd) in Hin. }
    rewrite !list_lookup_insert_eq by lia. done.
Qed.

(** The assignments of an instance whose members are the persons
    [persons]. *)
Lemma members_assignments (entity_index : nat)
    (members : list (Role * json)) (persons : list string) :
  members.*2 = JStr <$> persons →
  (omap (λ member : Role * json,
           match member.2 with
           | JStr person_id => Some (person_id, (entity_index, member.1))
           | _ => None
           end) members).*1 = persons.
Proof.
  revert persons. induction members as [|[role x] members IH];
    intros [|p persons]; try done.
  rewrite !fmap_cons. intros [= -> Hmembers]. simpl. f_equal. by apply IH.
Qed.

(** *** The loop over the instances *)

Lemma start_allocation_allocated self persons_ids e ids :
  allocated persons_ids [] (start_allocation self persons_ids e ids).
Proof.
  unfold allocated, start_allocation. simpl.
  split; [set_solver|]. split; [constructor|].
  split; [by intros p ?%elem_of_nil|].
  rewrite length_fmap, length_seq, length_replicate.
  split; [done|]. split; [done|]. by intros p k r i ?%elem_of_nil.
Qed.

(** One instance: its members are distinct persons that no instance before
    has taken, they are allocated, and each of them is in the list that the
    instance gives for a role. *)
Lemma add_group_instance_spec persons_plural persons_ids e ids declared al
    instance al' :
  allocated persons_ids declared al →
  add_group_instance persons_plural persons_ids e ids al instance = Ok al' →
  allocated persons_ids (declared ++ instance_members e ids instance) al'
  ∧ ∀ p, p ∈ (instance_members e ids instance).*1 →
         ∃ instance_object role,
           instance.2 = JDict instance_object
           ∧ role ∈ entity_roles e
           ∧ p ∈ strings_of (role_definition_of instance_object role).
Proof.
  intros (Hto & Hdup & Hin & Hlen_m & Hlen_r & Hcells).
  destruct instance as [instance_id instance_object].
  unfold add_group_instance, instance_members, check_type_dict.
  destruct instance_object as [| | | | | |instance_object]; simpl; try done.
  pose proof (split_roles_spec e instance_object) as Hsplit.
  pose proof (roles_split_referenced e instance_object) as Href.
  destruct (split_roles e instance_object) as [roles_json variables_json].
  pose proof (roles_split_members _ _ _ Hsplit) as Hperm.
  destruct Hsplit as (_ & Hkeys & _). simpl in Hperm, Hkeys, Href.
  destruct (foldM (allocate_role _ _ _ _) _ _)
    as [persons_to_allocate|] eqn:Hroles; simpl; [|done].
  destruct (list_index instance_id ids) as [entity_index|];
    simpl; [|done].
  destruct (iter_over_entity_members e roles_json)
    as [members|] eqn:Hmembers; simpl; [|done].
  destruct (foldM (set_member _ _) _ _) as [[memberships' roles']|]
    eqn:Harrays; simpl; [|done].
  destruct (init_variable_values _ _ _ _) as [self'|]; simpl; [|done].
  intros [= <-].
  apply allocate_roles_spec in Hroles as (Hlists & Hdup' & Hall & ->).
  apply iter_over_entity_members_snd in Hmembers; [|done|done].
  revert Hperm Hmembers Href.
  generalize ((role_name <$> entity_roles e) ≫=
    λ n, strings_of (default JNull (dict_get n roles_json))).
  intros persons Hperm Hmembers Href.
  rewrite <-Hperm in Hdup'. setoid_rewrite <-Hperm in Hall.
  assert (list_to_set (roles_json.*2 ≫= strings_of)
          = (list_to_set persons : gset string)) as ->.
  { apply set_eq. intros p. by rewrite !elem_of_list_to_set, Hperm. }
  apply set_members_spec in Harrays
    as (Hlen_m' & Hlen_r' & Hother & Hmember); [|congruence].
  rewrite (members_assignments _ _ _ Hmembers).
  assert (∀ role p, (role, JStr p) ∈ members → p ∈ persons) as Hpersons.
  { intros role p Hp%(list_elem_of_fmap_2 snd). rewrite Hmembers in Hp.
    by apply list_elem_of_fmap in Hp as (q & [= ->] & Hq). }
  split; [|intros p (role & ? & ?)%Href; by exists instance_object, role].
  unfold allocated. simpl. rewrite fmap_app, list_to_set_app_L.
  rewrite (members_assignments _ _ _ Hmembers).
  split; [set_solver|]. split; [|split; [|split; [|split]]].
  - apply NoDup_app. split; [done|]. split; [|done].
    intros p Hp Hp'. apply Hall in Hp' as [_ Hp']. set_solver.
  - intros p [Hp|Hp]%elem_of_app; [by apply Hin|by apply Hall].
  - congruence.
  - congruence.
  - intros p k r i [Hp|Hp]%elem_of_app Hi.
    + destruct (Hother i) as [-> ->]; [|by apply (Hcells p)].
      intros role q Hq%Hpersons Hi'.
      rewrite (list_index_inj _ _ _ _ Hi' Hi) in Hq.
      apply Hall in Hq as [_ Hq].
      apply (list_elem_of_fmap_2 fst) in Hp. set_solver.
    + apply list_elem_of_omap in Hp as ([role x] & Hx & Hp). simpl in Hp.
      destruct x as [| | | |q| |]; try done. injection Hp as -> -> ->.
      apply (Hmember) with (p := p); [|done|done].
      rewrite Hmembers. apply NoDup_fmap_2; [by intros ?? [=]|done].
Qed.

Lemma add_group_instances_spec persons_plural persons_ids e ids instances
    declared al al' :
  allocated persons_ids declared al →
  foldM (add_group_instance persons_plural persons_ids e ids) instances al
  = Ok al' →
  allocated persons_ids (declared ++ (instances ≫= instance_members e ids))
    al'
  ∧ ∀ p, p ∈ (instances ≫= instance_members e ids).*1 →
         referenced e instances p.
Proof.
  revert declared al.
  induction instances as [|instance instances IH]; intros declared al Hal.
  { intros [= <-]. simpl. rewrite app_nil_r. split; [done|].
    by intros p ?%elem_of_nil. }
  rewrite foldM_cons.
  destruct (add_group_instance _ _ _ _ al instance) as [al1|] eqn:Hfirst;
    simpl; [|done].
  destruct (add_group_instance_spec _ _ _ _ _ _ _ _ Hal Hfirst)
    as [Hal1 Href1].
  intros [Hal' Href]%(IH _ _ Hal1).
  rewrite <-(assoc_L (++)) in Hal'. split; [done|].
  intros p. rewrite fmap_app, elem_of_app. intros [Hp|Hp].
  - destruct (Href1 p Hp) as (instance_object & role & Hobject & Hrole).
    exists instance.1, instance_object, role. split; [|done].
    rewrite <-Hobject. destruct instance. left.
  - destruct (Href p Hp) as (instance_id & instance_object & role & ? & ?).
    exists instance_id, instance_object, role. split; [by right|done].
Qed.

Lemma filter_fst_NoDup {A} (l : list (string * A)) k (x : A) :
  NoDup l.*1 → (k, x) ∈ l → filter (λ a, a.1 = k) l = [(k, x)].
Proof.
  induction l as [|[k' x'] l IH]; [by intros _ ?%elem_of_nil|].
  rewrite fmap_cons, filter_cons. simpl.
  intros [Hfresh Hdup]%NoDup_cons [[= <- <-]|Hin]%elem_of_cons.
  - rewrite decide_True by done. f_equal.
    destruct (filter _ l) as [|[k' x'] l'] eqn:Hfilter; [done|].
    assert ((k', x') ∈ filter (λ a, a.1 = k) l) as Hk
      by (rewrite Hfilter; left).
    apply list_elem_of_filter in Hk as [Hk Hl]. simpl in Hk. subst k'.
    by apply (list_elem_of_fmap_2 fst) in Hl.
  - rewrite decide_False; [by apply IH|].
    intros ->. by apply (list_elem_of_fmap_2 fst) in Hin.
Qed.

(** A person is referenced by no instance when no list of a role of an
    instance holds it. *)
Lemma not_referenced e instances person_id :
  Forall (λ instance : string * json,
            match instance.2 with
            | JDict instance_object =>
                Forall (λ role,
                          person_id
                          ∉ strings_of
                              (role_definition_of instance_object role))
                       (entity_roles e)
            | _ => True
            end) instances →
  ¬ referenced e instances person_id.
Proof.
  rewrite Forall_forall.
  intros Hnone (instance_id & instance_object & role & Hin & Hrole & Hp).
  apply Hnone in Hin. simpl in Hin. rewrite Forall_forall in Hin.
  by apply (Hin role).
Qed.

(** C1. When [add_group_entity] returns, the arrays of memberships and of
    roles that it stores for the group entity have one cell for each person
    of the population, and the cell of a person holds the index of the
    instance and the role of the one assignment that the instances declare
    for this person: every person has an assignment, and no person has
    two. *)
Theorem add_group_entity_one_assignment self persons_plural persons_ids e
    instances_json self' :
  NoDup persons_ids →
  add_group_entity self persons_plural persons_ids e instances_json
  = Ok self' →
  ∃ instances entity_memberships entity_roles,
    instances_json = JDict instances
    ∧ memberships self' !! entity_plural e = Some entity_memberships
    ∧ roles self' !! entity_plural e = Some entity_roles
    ∧ length entity_memberships = length persons_ids
    ∧ length entity_roles = length persons_ids
    ∧ ∀ i person_id,
        persons_ids !! i = Some person_id →
        ∃ entity_index role,
          filter (λ a, a.1 = person_id) (declared_members e instances)
          = [(person_id, (entity_index, role))]
          ∧ entity_memberships !! i = Some (Z.of_nat entity_index)
          ∧ entity_roles !! i = Some (Some role).
Proof.
  intros Hpersons. unfold add_group_entity, check_type_dict.
  destruct instances_json as [| | | | | |instances]; simpl; try done.
  destruct (foldM _ _ _) as [al|] eqn:Hloop; simpl; [|done].
  destruct (decide _) as [|Hempty%dec_stable]; [done|]. intros [= <-].
  destruct (add_group_instances_spec _ _ _ _ _ _ _ _
              (start_allocation_allocated _ _ _ _) Hloop)
    as [(Hto & Hdup & _ & Hlen_m & Hlen_r & Hcells) _].
  simpl in Hto, Hdup, Hcells.
  fold (declared_members e instances) in Hto, Hdup, Hcells.
  exists instances, (al_memberships al), (al_roles al).
  split; [done|]. simpl. rewrite !lookup_insert_eq.
  split; [done|]. split; [done|]. split; [done|]. split; [done|].
  intros i person_id Hi.
  assert (person_id ∈ (declared_members e instances).*1) as Hdeclared.
  { apply list_elem_of_lookup_2 in Hi.
    destruct (decide (person_id ∈ (declared_members e instances).*1))
      as [|Hleft]; [done|].
    assert (person_id ∈ al_persons_to_allocate al) as Hto'.
    { rewrite Hto. apply elem_of_difference.
      by rewrite !elem_of_list_to_set. }
    rewrite Hempty in Hto'. by apply elem_of_empty in Hto'. }
  apply list_elem_of_fmap in Hdeclared
    as ([p [entity_index role]] & -> & Hdeclared). simpl in Hi.
  exists entity_index, role. split; [by apply filter_fst_NoDup|].
  apply (Hcells p); [done|].
  destruct (list_index_elem_of p persons_ids) as [j Hj];
    [by eapply list_elem_of_lookup_2|].
  rewrite Hj. f_equal.
  apply (NoDup_lookup persons_ids j i p);
    [done|by apply list_index_Ok|done].
Qed.

(** C7, amended.  When a person of the population is in no list that an
    instance gives for a role, [add_group_entity] raises.  When no instance
    raises, the persons left to allocate are the persons of the population
    with no assignment, the person is one of them, and the exception is the
    parsing error at the path of the group entity that lists them. *)
Theorem add_group_entity_unallocated_person self persons_plural persons_ids
    e instances person_id :
  person_id ∈ persons_ids →
  ¬ referenced e instances person_id →
  (∃ err, add_group_entity self persons_plural persons_ids e
            (JDict instances) = Err err)
  ∧ ∀ al,
      foldM (add_group_instance persons_plural persons_ids e instances.*1)
            instances (start_allocation self persons_ids e instances.*1)
      = Ok al →
      al_persons_to_allocate al
      = list_to_set persons_ids
        ∖ list_to_set (declared_members e instances).*1
      ∧ person_id ∈ al_persons_to_allocate al
      ∧ add_group_entity self persons_plural persons_ids e (JDict instances)
        = Err (SituationParsingError [entity_plural e]
                 (NotMembers (al_persons_to_allocate al) persons_plural
                             (entity_key e)) None).
Proof.
  intros Hperson Hnever. unfold add_group_entity, check_type_dict. simpl.
  destruct (foldM _ _ _) as [al|err] eqn:Hloop; simpl;
    [|split; [by exists err|done]].
  destruct (add_group_instances_spec _ _ _ _ _ _ _ _
              (start_allocation_allocated _ _ _ _) Hloop)
    as [(Hto & _) Href].
  simpl in Hto. fold (declared_members e instances) in Hto, Href.
  assert (person_id ∈ al_persons_to_allocate al) as Hleft.
  { rewrite Hto. apply elem_of_difference.
    rewrite !elem_of_list_to_set. split; [done|]. by intros ?%Href. }
  rewrite decide_True by set_solver.
  split; [by eexists|]. by intros al' [= <-].
Qed.

(** ** Further properties *)

(** *** The strict syntax of a role *)

Lemma str_of_int_item_idemp item :
  str_of_int_item (str_of_int_item item) = str_of_int_item item.
Proof. by destruct item. Qed.

Lemma str_of_int_item_not_int item : is_int (str_of_int_item item) = false.
Proof. by destruct item. Qed.

(** X1. [transform_to_strict_syntax] is idempotent: a value in strict
    syntax is left as it is. *)
Theorem transform_to_strict_syntax_idempotent data :
  transform_to_strict_syntax (transform_to_strict_syntax data)
  = transform_to_strict_syntax data.
Proof.
  destruct data as [| | | | |l|]; try done.
  unfold transform_to_strict_syntax. f_equal.
  rewrite <-list_fmap_compose. apply list_fmap_ext.
  intros i item _. apply str_of_int_item_idemp.
Qed.

(** X2. [transform_to_strict_syntax] returns a list for a string, an
    integer, a boolean and a list, in which no item is an integer any more
    and which has one item for a scalar and as many items as the list; any
    other value is returned as it is. *)
Theorem transform_to_strict_syntax_no_int data :
  match data with
  | JStr _ | JInt _ | JBool _ =>
      ∃ item, transform_to_strict_syntax data = JList [item]
              ∧ is_int item = false
  | JList l =>
      ∃ l', transform_to_strict_syntax data = JList l'
            ∧ length l' = length l
            ∧ Forall (λ item, is_int item = false) l'
  | _ => transform_to_strict_syntax data = data
  end.
Proof.
  destruct data as [| | | | |l|]; try done; simpl; try by eexists.
  eexists. split; [done|]. rewrite length_fmap. split; [done|].
  apply Forall_fmap, Forall_true. intros item.
  apply str_of_int_item_not_int.
Qed.

(** *** The roles and the variables of an instance *)

Lemma filter_all {A} (P : A → Prop) `{!∀ x, Decision (P x)} (l : list A) :
  (∀ x, P x) → filter P l = l.
Proof.
  intros HP. induction l as [|x l IH]; [done|].
  by rewrite filter_cons_True, IH.
Qed.

Lemma split_roles_variables_foldl roles split :
  (foldl split_role split roles).2
  = filter (λ kv, kv.1 ∉ role_name <$> roles) split.2.
Proof.
  revert split. induction roles as [|role roles IH]; intros [R V]; simpl.
  - symmetry. apply filter_all. intros kv. apply not_elem_of_nil.
  - rewrite IH. unfold dict_pop. simpl. rewrite list_filter_filter.
    apply list_filter_iff. intros kv. rewrite not_elem_of_cons. tauto.
Qed.

(** With distinct role names, [roles_json] gives each role its list in
    strict syntax, in the order of the roles. *)
Lemma split_roles_foldl_NoDup instance_object roles split :
  NoDup (split.1.*1 ++ (role_name <$> roles)) →
  (∀ role, role ∈ roles →
           dict_get (role_name role) split.2
           = dict_get (role_name role) instance_object) →
  (foldl split_role split roles).1
  = split.1 ++ ((λ role, (role_name role,
                          role_definition_of instance_object role))
                  <$> roles).
Proof.
  revert split. induction roles as [|role roles IH]; intros [R V]; simpl.
  - intros _ _. by rewrite app_nil_r.
  - intros Hdup HV. unfold dict_pop.
    apply NoDup_app in Hdup as (HR & Hfresh & [Hrole Hroles]%NoDup_cons).
    rewrite IH; simpl.
    + rewrite dict_set_not_elem_of
        by (intros Hin; apply (Hfresh _ Hin); left).
      rewrite <-(assoc_L (++)). simpl. unfold role_definition_of.
      rewrite HV by left. done.
    + rewrite dict_set_not_elem_of
        by (intros Hin; apply (Hfresh _ Hin); left).
      rewrite fmap_app. simpl. rewrite <-(assoc_L (++)). simpl.
      apply NoDup_app. split; [done|]. split; [|by constructor].
      intros n Hn. apply Hfresh in Hn. done.
    + intros role' Hrole'. rewrite dict_get_filter_ne.
      rewrite decide_False; [apply HV; by right|].
      intros Heq. apply Hrole. rewrite <-Heq.
      by apply list_elem_of_fmap_2.
Qed.

Lemma split_roles_NoDup e instance_object :
  NoDup (role_name <$> entity_roles e) →
  (split_roles e instance_object).1
  = (λ role, (role_name role, role_definition_of instance_object role))
      <$> entity_roles e.
Proof.
  intros Hdup. unfold split_roles.
  by rewrite (split_roles_foldl_NoDup instance_object).
Qed.

(** X3. The keys of the roles are taken out of the variables of an
    instance and every other entry is kept, in its order; with distinct
    role names, each role gets the list that the instance gives for it, in
    strict syntax. *)
Theorem split_roles_roles_and_variables e instance_object :
  (split_roles e instance_object).2
  = filter (λ kv, kv.1 ∉ role_name <$> entity_roles e) instance_object
  ∧ (NoDup (role_name <$> entity_roles e) →
     (split_roles e instance_object).1
     = (λ role,
          (role_name role,
           transform_to_strict_syntax
             (default (JList [])
                      (dict_get (role_name role) instance_object))))
         <$> entity_roles e).
Proof.
  split; [apply split_roles_variables_foldl|apply split_roles_NoDup].
Qed.

(** *** The members of an instance, role by role *)

Lemma mapM_result_cons {A B} (f : A → result B) x l :
  mapM f (x :: l) = y ← f x; k ← mapM f l; Ok (y :: k).
Proof. done. Qed.

Lemma role_member_mapM role individus j :
  role_subroles role = [] ∨ j ≤ length (role_subroles role) →
  mapM (role_member role) (zip (seq j (length individus)) individus)
  = match role_subroles role with
    | [] => Ok (zip (replicate (length individus) role) individus)
    | subroles =>
        if decide (j + length individus ≤ length subroles)
        then Ok (zip (drop j subroles) individus)
        else Err IndexError
    end.
Proof.
  intros Hj.
  destruct (role_subroles role) as [|subrole subroles] eqn:Hsub.
  - clear Hj. revert j.
    induction individus as [|individu individus IH]; intros j; [done|].
    change (zip (seq j (length (individu :: individus)))
                (individu :: individus))
      with ((j, individu) :: zip (seq (S j) (length individus)) individus).
    rewrite mapM_result_cons, IH. unfold role_member. by rewrite Hsub.
  - destruct Hj as [|Hj]; [done|]. revert j Hj.
    induction individus as [|individu individus IH]; intros j Hj.
    { cbv zeta. simpl. rewrite decide_True by (simpl in *; lia).
      by destruct (drop j _). }
    change (zip (seq j (length (individu :: individus)))
                (individu :: individus))
      with ((j, individu) :: zip (seq (S j) (length individus)) individus).
    rewrite mapM_result_cons.
    destruct ((subrole :: subroles) !! j) as [r|] eqn:Hr.
    + pose proof (lookup_lt_Some _ _ _ Hr) as Hlt.
      rewrite IH by (simpl in *; lia).
      cbv zeta. rewrite (drop_S _ _ _ Hr). unfold role_member.
      rewrite Hsub, Hr.
      destruct (decide (S j + _ ≤ _)) as [Hle|Hgt].
      * rewrite decide_True by (simpl in *; lia). done.
      * rewrite decide_False by (simpl in *; lia). done.
    + unfold role_member at 2. rewrite Hsub, Hr. cbv zeta.
      apply lookup_ge_None in Hr.
      rewrite decide_False by (simpl in *; lia). done.
Qed.

Lemma role_members_eq scenario_entity role :
  role_members scenario_entity role
  = if decide (enough_subroles scenario_entity role)
    then Ok (members_of scenario_entity role)
    else Err IndexError.
Proof.
  unfold role_members, enough_subroles, members_of, individus_of.
  destruct (dict_get _ _) as [individus|]; simpl.
  - destruct (truthy individus); simpl.
    + rewrite role_member_mapM by (right; lia).
      destruct (role_subroles role) as [|subrole subroles].
      * by rewrite decide_True by (by left).
      * simpl. destruct (decide (_ ≤ _)) as [Hle|Hgt].
        -- by rewrite decide_True by (right; simpl; lia).
        -- rewrite decide_False; [done|]. intros [?|?]; [done|].
           simpl in *. lia.
    + rewrite decide_True by (right; simpl; lia).
      by destruct (role_subroles role).
  - rewrite decide_True by (right; simpl; lia).
    by destruct (role_subroles role).
Qed.

(** X4. [iter_over_entity_members] yields, role after role, the persons of
    the role with the role itself, or with the subrole of their rank; it
    raises [IndexError] exactly when a role with subroles has more persons
    than subroles. *)
Theorem iter_over_entity_members_eq e scenario_entity :
  iter_over_entity_members e scenario_entity
  = if decide (Forall (enough_subroles scenario_entity) (entity_roles e))
    then Ok (entity_roles e ≫= members_of scenario_entity)
    else Err IndexError.
Proof.
  unfold iter_over_entity_members.
  induction (entity_roles e) as [|role roles IH]; [done|].
  simpl. rewrite role_members_eq.
  destruct (decide (enough_subroles _ role)) as [Hrole|Hrole]; simpl.
  - destruct (mapM _ roles) as [mss|]; simpl in *.
    + destruct (decide (Forall _ roles)) as [Hroles|]; [|done].
      rewrite decide_True by (by constructor). by injection IH as ->.
    + destruct (decide (Forall _ roles)) as [|Hroles]; [done|].
      rewrite decide_False; [done|]. by intros [_ ?]%Forall_cons.
  - rewrite decide_False; [done|]. by intros [? _]%Forall_cons.
Qed.

(** *** The groups of axes *)

Lemma set_axes_axes self : set_axes (axes self) self = self.
Proof. by destruct self. Qed.

Lemma add_parallel_axis_Ok self parallel_axes perpendicular a :
  axes self = parallel_axes :: perpendicular →
  add_parallel_axis a self
  = Ok (set_axes ((parallel_axes ++ [a]) :: perpendicular) self).
Proof. intros Haxes. unfold add_parallel_axis. by rewrite Haxes. Qed.

Lemma add_parallel_axes self parallel_axes perpendicular new_axes :
  axes self = parallel_axes :: perpendicular →
  foldM (λ self a, add_parallel_axis a self) new_axes self
  = Ok (set_axes ((parallel_axes ++ new_axes) :: perpendicular) self).
Proof.
  revert self parallel_axes.
  induction new_axes as [|a new_axes IH]; intros self parallel_axes Haxes.
  - rewrite app_nil_r, <-Haxes. by rewrite set_axes_axes.
  - rewrite foldM_cons, (add_parallel_axis_Ok _ _ _ _ Haxes). simpl.
    rewrite (IH _ (parallel_axes ++ [a])) by done.
    by rewrite <-(assoc_L (++)).
Qed.

(** X5. [build_from_entities] appends every axis of the document to the
    first group of the builder, in the order of the document and whatever
    the dimension that the document gives it, and calls [expand_axes] when
    the list of the document is not empty. *)
Theorem build_from_entities_axes_first_group self parallel_axes
    perpendicular axes_json :
  axes self = parallel_axes :: perpendicular →
  build_from_entities_axes (Some axes_json) self
  = let self' :=
      set_axes ((parallel_axes ++ mjoin (mjoin axes_json))
                  :: perpendicular) self in
    if decide (axes_json ≠ []) then expand_axes self' else Ok self'.
Proof.
  intros Haxes. unfold build_from_entities_axes. simpl.
  assert (∀ dimensions self parallel_axes,
    axes self = parallel_axes :: perpendicular →
    foldM (λ self parallel_axes,
             foldM (λ self a, add_parallel_axis a self) parallel_axes self)
          dimensions self
    = Ok (set_axes ((parallel_axes ++ mjoin dimensions) :: perpendicular)
                   self)) as Hdimension.
  { induction dimensions as [|new_axes dimensions IH];
      intros self1 parallel_axes1 Haxes1.
    - simpl. rewrite app_nil_r, <-Haxes1. by rewrite set_axes_axes.
    - rewrite foldM_cons, (add_parallel_axes _ _ _ _ Haxes1). simpl.
      rewrite (IH _ (parallel_axes1 ++ new_axes)) by done.
      by rewrite <-(assoc_L (++)). }
  assert (∀ dimensions self parallel_axes,
    axes self = parallel_axes :: perpendicular →
    foldM (λ self perpendicular_dimensions,
             foldM (λ self parallel_axes,
                      foldM (λ self a, add_parallel_axis a self)
                            parallel_axes self)
                   perpendicular_dimensions self)
          dimensions self
    = Ok (set_axes ((parallel_axes ++ mjoin (mjoin dimensions))
                      :: perpendicular) self)) as Hdocument.
  { induction dimensions as [|dimension dimensions IH];
      intros self1 parallel_axes1 Haxes1.
    - simpl. rewrite app_nil_r, <-Haxes1. by rewrite set_axes_axes.
    - rewrite foldM_cons, (Hdimension _ _ _ Haxes1). simpl.
      rewrite (IH _ (parallel_axes1 ++ mjoin dimension)) by done.
      rewrite join_app. by rewrite <-(assoc_L (++)). }
  by rewrite (Hdocument _ _ _ Haxes).
Qed.

Lemma expand_perpendicular_empty_first_group self perpendicular :
  axes self = [] :: perpendicular →
  expand_perpendicular self = Err IndexError.
Proof. intros Haxes. unfold expand_perpendicular. by rewrite Haxes. Qed.

Lemma expand_axes_empty_first self perpendicular :
  axes self = [] :: perpendicular → expand_axes self = Err IndexError.
Proof.
  intros Haxes. unfold expand_axes.
  pose proof (expand_perpendicular_empty_first_group
                (set_axes_entity_counts ∅ self) _ Haxes) as Hraise.
  change (axes (set_axes_entity_counts ∅ self)) with (axes self).
  rewrite Haxes. by destruct perpendicular.
Qed.

(** X6. When the first group of axes is empty, [expand_axes] raises
    [IndexError], whatever the other groups are: so it does after
    [add_perpendicular_axis] on a builder that has no parallel axis. *)
Theorem expand_axes_empty_first_group self a :
  head (axes self) = Some [] →
  expand_axes self = Err IndexError
  ∧ expand_axes (add_perpendicular_axis a self) = Err IndexError.
Proof.
  destruct (axes self) as [|parallel_axes perpendicular] eqn:Haxes;
    [done|].
  intros [= ->]. split.
  - by apply (expand_axes_empty_first _ perpendicular).
  - apply (expand_axes_empty_first _ (perpendicular ++ [[a]])).
    unfold add_perpendicular_axis. simpl. by rewrite Haxes.
Qed.

(** *** The normaliser and the choice of the builder *)

Lemma explicit_singular_entities_eq tax_benefit_system input_dict :
  explicit_singular_entities tax_benefit_system input_dict
  = let singular_keys :=
      filter (λ k, is_Some (entities_by_singular tax_benefit_system k))
             (remove_dups input_dict.*1) in
    if decide (singular_keys = []) then input_dict
    else foldl (explicit_singular_entity tax_benefit_system input_dict)
               (filter (λ kv, kv.1 ∈ entities_plural tax_benefit_system)
                       input_dict)
               singular_keys.
Proof. done. Qed.

Lemma entities_by_singular_key tax_benefit_system singular e :
  entities_by_singular tax_benefit_system singular = Some e →
  entity_key e = singular ∧ e ∈ tax_benefit_system.
Proof.
  unfold entities_by_singular. intros [l Hl]%head_Some.
  assert (e ∈ reverse (filter (λ e, entity_key e = singular)
                              tax_benefit_system)) as He
    by (rewrite Hl; left).
  by apply elem_of_reverse, list_elem_of_filter in He.
Qed.

Lemma singular_keys_nil tax_benefit_system (input_dict : list (string * json)) :
  filter (λ k, is_Some (entities_by_singular tax_benefit_system k))
         (remove_dups input_dict.*1) = []
  ↔ Forall (λ k, entities_by_singular tax_benefit_system k = None)
           input_dict.*1.
Proof.
  rewrite Forall_forall. split.
  - intros Hnil k Hk.
    destruct (entities_by_singular tax_benefit_system k) as [e|] eqn:He;
      [|done].
    exfalso. apply (filter_nil_not_elem_of _ _ k Hnil).
    + simpl. by rewrite He.
    + by rewrite elem_of_remove_dups.
  - intros Hnone.
    destruct (filter _ _) as [|k l] eqn:Hfilter; [done|].
    assert (k ∈ filter (λ k, is_Some (entities_by_singular
                                         tax_benefit_system k))
                       (remove_dups input_dict.*1)) as Hk
      by (rewrite Hfilter; left).
    apply list_elem_of_filter in Hk as [[e He] Hk].
    rewrite elem_of_remove_dups in Hk. rewrite (Hnone k Hk) in He. done.
Qed.

Lemma dict_set_keys {V} k (v : V) d k' :
  k' ∈ (dict_set k v d).*1 ↔ k' = k ∨ k' ∈ d.*1.
Proof.
  destruct (decide (k ∈ d.*1)) as [Hk|Hk].
  - rewrite dict_set_fst_elem_of by done. naive_solver.
  - rewrite dict_set_not_elem_of by done.
    rewrite fmap_app, elem_of_app. simpl. rewrite list_elem_of_singleton.
    tauto.
Qed.

Lemma dict_get_is_Some {V} k (d : list (string * V)) :
  is_Some (dict_get k d) ↔ k ∈ d.*1.
Proof.
  rewrite <-not_eq_None_Some, dict_get_None.
  split; [apply dec_stable|by intros ? ?].
Qed.

(** The keys after the loop over some singular keys of the document. *)
Lemma explicit_singular_entity_keys tax_benefit_system input_dict result
    singular_keys k :
  Forall (λ s, is_Some (entities_by_singular tax_benefit_system s)
               ∧ s ∈ input_dict.*1) singular_keys →
  k ∈ (foldl (explicit_singular_entity tax_benefit_system input_dict)
             result singular_keys).*1
  ↔ k ∈ result.*1
    ∨ ∃ s e, s ∈ singular_keys
             ∧ entities_by_singular tax_benefit_system s = Some e
             ∧ k = entity_plural e.
Proof.
  revert result. induction singular_keys as [|s singular_keys IH];
    intros result Hkeys; simpl.
  { split; [by left|]. intros [?|(s & e & ?%elem_of_nil & _)]; done. }
  apply Forall_cons in Hkeys as [[[e He] [description Hd]%dict_get_is_Some]
                                  Hkeys].
  rewrite IH by done. unfold explicit_singular_entity.
  rewrite He, Hd, dict_set_keys. split.
  - intros [[->|?]|(s' & e' & ? & ? & ?)].
    + right. exists s, e. split; [left|done].
    + by left.
    + right. exists s', e'. split; [by right|done].
  - intros [?|(s' & e' & [->|?]%elem_of_cons & He' & ->)].
    + left. by right.
    + left. left. congruence.
    + right. by exists s', e'.
Qed.

Lemma singular_keys_Forall tax_benefit_system (input_dict : list (string * json)) :
  Forall (λ s, is_Some (entities_by_singular tax_benefit_system s)
               ∧ s ∈ input_dict.*1)
    (filter (λ k, is_Some (entities_by_singular tax_benefit_system k))
            (remove_dups input_dict.*1)).
Proof.
  apply Forall_forall. intros s [? Hs]%list_elem_of_filter.
  by rewrite elem_of_remove_dups in Hs.
Qed.

(** The keys of the normalised document, for a document with a singular
    shortcut. *)
Lemma explicit_singular_entities_keys tax_benefit_system input_dict k :
  Exists (λ k, is_Some (entities_by_singular tax_benefit_system k))
         input_dict.*1 →
  k ∈ (explicit_singular_entities tax_benefit_system input_dict).*1
  ↔ (k ∈ input_dict.*1 ∧ k ∈ entities_plural tax_benefit_system)
    ∨ ∃ s e, s ∈ input_dict.*1
             ∧ entities_by_singular tax_benefit_system s = Some e
             ∧ k = entity_plural e.
Proof.
  intros Hshortcut. rewrite explicit_singular_entities_eq. cbv zeta.
  destruct (decide (_ = [])) as [Hnil|_].
  { apply singular_keys_nil in Hnil.
    apply Exists_exists in Hshortcut as (s & Hs & [e He]).
    rewrite Forall_forall in Hnil. rewrite (Hnil s Hs) in He. done. }
  rewrite explicit_singular_entity_keys by apply singular_keys_Forall.
  split.
  - intros [(kv & -> & [? ?]%list_elem_of_filter)%list_elem_of_fmap
           |(s & e & [? Hs]%list_elem_of_filter & ? & ->)].
    + left. split; [by apply list_elem_of_fmap_2|done].
    + right. exists s, e. by rewrite elem_of_remove_dups in Hs.
  - intros [[(kv & -> & ?)%list_elem_of_fmap ?]|(s & e & Hs & He & ->)].
    + left. apply list_elem_of_fmap_2. by apply list_elem_of_filter.
    + right. exists s, e. split; [|done].
      apply list_elem_of_filter. rewrite He. split; [by eexists|].
      by rewrite elem_of_remove_dups.
Qed.

Lemma explicit_singular_entities_no_shortcut tax_benefit_system input_dict :
  Forall (λ k, entities_by_singular tax_benefit_system k = None)
         input_dict.*1 →
  explicit_singular_entities tax_benefit_system input_dict = input_dict.
Proof.
  intros Hnone%singular_keys_nil. rewrite explicit_singular_entities_eq.
  cbv zeta. by rewrite decide_True.
Qed.

Lemma entities_by_singular_plural tax_benefit_system singular e :
  entities_by_singular tax_benefit_system singular = Some e →
  entity_plural e ∈ entities_plural tax_benefit_system.
Proof.
  intros [_ He]%entities_by_singular_key. by apply list_elem_of_fmap_2.
Qed.

(** X7. [build_from_dict] builds from the entities of the normalised
    document as soon as a key of the document is the singular or the plural
    name of an entity; otherwise it builds from the variables of the
    document, which is not changed. *)
Theorem build_from_dict_choice {A}
    (build_from_entities build_from_variables : list (string * json) → A)
    tax_benefit_system input_dict :
  build_from_dict build_from_entities build_from_variables
    tax_benefit_system input_dict
  = if decide (Exists (λ key,
                         key ∈ entities_plural tax_benefit_system
                         ∨ is_Some (entities_by_singular tax_benefit_system
                                      key))
                      input_dict.*1)
    then build_from_entities
           (explicit_singular_entities tax_benefit_system input_dict)
    else build_from_variables input_dict.
Proof.
  unfold build_from_dict.
  destruct (decide (Exists (λ k, is_Some (entities_by_singular
                                            tax_benefit_system k))
                           input_dict.*1)) as [Hshortcut|Hnone].
  - rewrite decide_True.
    + rewrite decide_True; [done|].
      apply Exists_exists in Hshortcut as (s & Hs & Hsome).
      apply Exists_exists. exists s. split; [done|by right].
    + pose proof Hshortcut as (s & Hs & [e He])%Exists_exists.
      apply Exists_exists. exists (entity_plural e).
      split; [|by eapply entities_by_singular_plural].
      apply explicit_singular_entities_keys; [done|].
      right. by exists s, e.
  - apply not_Exists_Forall in Hnone; [|intros k; apply _].
    assert (Forall (λ k, entities_by_singular tax_benefit_system k = None)
                   input_dict.*1) as Hnone'.
    { eapply Forall_impl; [exact Hnone|]. simpl. intros k Hk.
      by destruct (entities_by_singular tax_benefit_system k);
        [destruct Hk; eexists|]. }
    rewrite explicit_singular_entities_no_shortcut by done.
    destruct (decide (Exists (λ key, key ∈ entities_plural tax_benefit_system)
                             input_dict.*1)) as [Hplural|Hplural].
    + rewrite decide_True; [done|].
      eapply Exists_impl; [exact Hplural|]. by left.
    + rewrite decide_False; [done|].
      intros (k & Hk & [?|Hsome])%Exists_exists.
      * apply Hplural, Exists_exists. by exists k.
      * rewrite Forall_forall in Hnone'. rewrite (Hnone' k Hk) in Hsome.
        by destruct Hsome.
Qed.

(** X8. When no plural name of an entity is the singular name of an
    entity, [explicit_singular_entities] is idempotent. *)
Theorem explicit_singular_entities_idempotent tax_benefit_system input_dict :
  (∀ e e', e ∈ tax_benefit_system → e' ∈ tax_benefit_system →
           entity_plural e ≠ entity_key e') →
  explicit_singular_entities tax_benefit_system
    (explicit_singular_entities tax_benefit_system input_dict)
  = explicit_singular_entities tax_benefit_system input_dict.
Proof.
  intros Hnames.
  destruct (decide (Exists (λ k, is_Some (entities_by_singular
                                            tax_benefit_system k))
                           input_dict.*1)) as [Hshortcut|Hnone].
  - apply explicit_singular_entities_no_shortcut, Forall_forall.
    intros k Hk.
    destruct (entities_by_singular tax_benefit_system k) as [e'|] eqn:He';
      [|done].
    apply entities_by_singular_key in He' as [<- He'].
    assert (entity_key e' ∈ entities_plural tax_benefit_system) as Hplural.
    { apply (explicit_singular_entities_keys _ _ _ Hshortcut) in Hk
        as [[_ ?]|(s & e & _ & He & Heq)]; [done|].
      rewrite Heq. by eapply entities_by_singular_plural. }
    apply list_elem_of_fmap in Hplural as (e & Heq & He).
    by destruct (Hnames e e' He He').
  - apply not_Exists_Forall in Hnone; [|intros k; apply _].
    assert (Forall (λ k, entities_by_singular tax_benefit_system k = None)
                   input_dict.*1) as Hnone'.
    { eapply Forall_impl; [exact Hnone|]. simpl. intros k Hk.
      by destruct (entities_by_singular tax_benefit_system k);
        [destruct Hk; eexists|]. }
    by rewrite !(explicit_singular_entities_no_shortcut _ input_dict Hnone').
Qed.

Lemma dict_get_filter_elem_of {V} (keys : list string) k
    (d : list (string * V)) :
  dict_get k (filter (λ kv, kv.1 ∈ keys) d)
  = if decide (k ∈ keys) then dict_get k d else None.
Proof.
  induction d as [|[k' v] d IH]; simpl.
  - by destruct (decide _).
  - rewrite filter_cons. simpl.
    destruct (decide (k' ∈ keys)) as [Hk'|Hk']; simpl.
    + rewrite IH. destruct (decide (k' = k)) as [->|]; [|done].
      by rewrite decide_True.
    + rewrite IH. destruct (decide (k' = k)) as [->|]; [|done].
      by rewrite !decide_False.
Qed.

(** The loop over singular keys whose entities have another plural name
    than [k] leaves the entry of [k] as it is. *)
Lemma explicit_singular_entity_get_ne tax_benefit_system input_dict result
    singular_keys k :
  (∀ s e, s ∈ singular_keys →
          entities_by_singular tax_benefit_system s = Some e →
          entity_plural e ≠ k) →
  dict_get k (foldl (explicit_singular_entity tax_benefit_system input_dict)
                    result singular_keys)
  = dict_get k result.
Proof.
  revert result. induction singular_keys as [|s singular_keys IH];
    intros result Hother; simpl; [done|].
  rewrite IH by (intros s' e ? ?; apply (Hother s'); [by right|done]).
  unfold explicit_singular_entity.
  destruct (entities_by_singular tax_benefit_system s) as [e|] eqn:He;
    [|done].
  destruct (dict_get s input_dict); [|done].
  apply dict_get_set_ne, (Hother s); [left|done].
Qed.

(** X9. When two entities never share a plural name, a singular shortcut
    of the document becomes the entry of the plural name of its entity,
    replacing the entry that the document may have for this plural name,
    and the plural entries of the entities without a shortcut are kept. *)
Theorem explicit_singular_entities_shortcut tax_benefit_system input_dict :
  (∀ e1 e2, e1 ∈ tax_benefit_system → e2 ∈ tax_benefit_system →
            entity_plural e1 = entity_plural e2 →
            entity_key e1 = entity_key e2) →
  (∀ s e description,
     entities_by_singular tax_benefit_system s = Some e →
     dict_get s input_dict = Some description →
     dict_get (entity_plural e)
              (explicit_singular_entities tax_benefit_system input_dict)
     = Some (JDict [(s, description)]))
  ∧ (∀ k,
       Exists (λ s, is_Some (entities_by_singular tax_benefit_system s))
              input_dict.*1 →
       k ∈ entities_plural tax_benefit_system →
       (∀ s e, s ∈ input_dict.*1 →
               entities_by_singular tax_benefit_system s = Some e →
               entity_plural e ≠ k) →
       dict_get k (explicit_singular_entities tax_benefit_system input_dict)
       = dict_get k input_dict).
Proof.
  intros Hplural. split.
  - intros s e description He Hd.
    rewrite explicit_singular_entities_eq. cbv zeta.
    assert (s ∈ filter (λ k, is_Some (entities_by_singular
                                         tax_benefit_system k))
                       (remove_dups input_dict.*1)) as Hs.
    { apply list_elem_of_filter. rewrite He. split; [by eexists|].
      rewrite elem_of_remove_dups. apply dict_get_is_Some. by eexists. }
    assert (NoDup (filter (λ k, is_Some (entities_by_singular
                                            tax_benefit_system k))
                          (remove_dups input_dict.*1))) as Hdup
      by apply NoDup_filter, NoDup_remove_dups.
    destruct (decide (_ = [])) as [Hnil|_];
      [rewrite Hnil in Hs; by apply elem_of_nil in Hs|].
    revert Hs Hdup. generalize (filter
      (λ k, is_Some (entities_by_singular tax_benefit_system k))
      (remove_dups input_dict.*1)) as singular_keys.
    intros singular_keys (l1 & l2 & ->)%list_elem_of_split
      (_ & _ & [Hs _]%NoDup_cons)%NoDup_app.
    rewrite foldl_app. simpl.
    rewrite explicit_singular_entity_get_ne.
    + unfold explicit_singular_entity. rewrite He, Hd.
      apply dict_get_set_eq.
    + intros s' e' Hs' He' Heq.
      apply entities_by_singular_key in He as [<- He].
      apply entities_by_singular_key in He' as [<- He'].
      apply Hs. by rewrite <-(Hplural e' e He' He Heq).
  - intros k Hshortcut Hk Hother.
    rewrite explicit_singular_entities_eq. cbv zeta.
    destruct (decide (_ = [])) as [|_]; [done|].
    rewrite explicit_singular_entity_get_ne.
    + rewrite dict_get_filter_elem_of. by rewrite decide_True.
    + intros s e [_ Hs]%list_elem_of_filter He.
      rewrite elem_of_remove_dups in Hs. by apply (Hother s).
Qed.

Lemma filter_none {A} (P : A → Prop) `{!∀ x, Decision (P x)} (l : list A) :
  (∀ x, x ∈ l → ¬ P x) → filter P l = [].
Proof.
  intros HP. induction l as [|x l IH]; [done|].
  rewrite filter_cons_False by (apply HP; left).
  apply IH. intros y Hy. apply HP. by right.
Qed.

Lemma filter_id {A} (P : A → Prop) `{!∀ x, Decision (P x)} (l : list A) :
  (∀ x, x ∈ l → P x) → filter P l = l.
Proof.
  intros HP. induction l as [|x l IH]; [done|].
  rewrite filter_cons_True by (apply HP; left).
  f_equal. apply IH. intros y Hy. apply HP. by right.
Qed.

(** X10. For a document with a singular shortcut, the normalised document
    passes the first checks of [build_from_entities] with no unexpected
    entity and no axes, even when the document has other keys or axes:
    only the persons can be missing. *)
Theorem build_from_entities_checks_shortcut tax_benefit_system person_entity
    input_dict :
  Exists (λ s, is_Some (entities_by_singular tax_benefit_system s))
         input_dict.*1 →
  "axes" ∉ entities_plural tax_benefit_system →
  build_from_entities_checks tax_benefit_system person_entity
    (JDict (explicit_singular_entities tax_benefit_system input_dict))
  = let input_dict :=
      explicit_singular_entities tax_benefit_system input_dict in
    let persons_json :=
      default JNull (dict_get (entity_plural person_entity) input_dict) in
    if truthy persons_json then Ok (None, input_dict, persons_json)
    else Err (SituationParsingError [entity_plural person_entity]
                (NoPersonFound (entity_key person_entity)) None).
Proof.
  intros Hshortcut Haxes.
  assert (∀ k, k ∈ (explicit_singular_entities tax_benefit_system
                      input_dict).*1 →
               k ∈ entities_plural tax_benefit_system) as Hkeys.
  { intros k [[_ ?]|(s & e & _ & He & ->)]%explicit_singular_entities_keys;
      [done| |done]. by eapply entities_by_singular_plural. }
  revert Hkeys.
  generalize (explicit_singular_entities tax_benefit_system input_dict)
    as document.
  intros document Hkeys. unfold build_from_entities_checks, dict_pop. simpl.
  rewrite (filter_id (λ kv : string * json, kv.1 ≠ "axes")).
  - rewrite filter_none by (intros k Hk Hnot; by apply Hnot, Hkeys).
    assert (dict_get "axes" document = None) as ->; [|done].
    apply dict_get_None. intros Hin. by apply Haxes, Hkeys.
  - intros [k v] Hkv. simpl. intros ->. apply Haxes, Hkeys.
    by apply (list_elem_of_fmap_2 fst) in Hkv.
Qed.

(** X11. For a document without any singular shortcut and with an entry
    for a plural name, a key other than [axes] that is not a plural name
    makes [build_from_dict] raise the error of the unexpected entities, at
    the path of the first of these keys. *)
Theorem build_from_dict_unexpected_entities
    (build_from_variables : list (string * json) →
                            result (option json * list (string * json) * json))
    tax_benefit_system person_entity input_dict unexpected_entity
    unexpected_entities :
  Forall (λ k, entities_by_singular tax_benefit_system k = None)
         input_dict.*1 →
  Exists (λ k, k ∈ entities_plural tax_benefit_system) input_dict.*1 →
  filter (λ k, k ∉ entities_plural tax_benefit_system)
         (filter (λ kv, kv.1 ≠ "axes") input_dict).*1
  = unexpected_entity :: unexpected_entities →
  build_from_dict
    (λ input_dict,
       build_from_entities_checks tax_benefit_system person_entity
         (JDict input_dict))
    build_from_variables tax_benefit_system input_dict
  = Err (SituationParsingError [unexpected_entity]
           (UnexpectedEntities (unexpected_entity :: unexpected_entities)
              (entities_plural tax_benefit_system)) None).
Proof.
  intros Hnone Hplural Hunexpected. unfold build_from_dict.
  rewrite explicit_singular_entities_no_shortcut by done.
  rewrite decide_True by done.
  unfold build_from_entities_checks, dict_pop. simpl.
  by rewrite Hunexpected.
Qed.

(** *** The values of the instances in the input buffer *)

Lemma set_input_buffer_input_buffer self :
  set_input_buffer (input_buffer self) self = self.
Proof. by destruct self. Qed.

Lemma cell_buffer_set b v p array v' p' j :
  cell (buffer_set b v p array) v' p' j
  = if decide (v = v' ∧ p = p') then array !! j else cell b v' p' j.
Proof. unfold cell. rewrite buffer_get_set. by destruct (decide _). Qed.

Lemma add_variable_value_not_null self e variable_name instance_index
    instance_id period_str value :
  value ≠ JNull →
  add_variable_value self e variable_name instance_index instance_id
    period_str value
  = (array ← match buffer_get (input_buffer self) variable_name
                     (Some period_str) with
             | Some array => Ok array
             | None =>
                 array_size ← get_count self (entity_plural e);
                 Ok (default_array variable_name array_size)
             end;
     value ← match check_set_value variable_name value with
             | CheckedValue v => Ok v
             | Rejected text =>
                 Err (SituationParsingError
                        [entity_plural e; instance_id; variable_name;
                         period_str]
                        (Collaborator text) None)
             end;
     if decide (instance_index < length array) then
       Ok (set_input_buffer
             (buffer_set (input_buffer self) variable_name (Some period_str)
                (<[instance_index := value]> array)) self)
     else Err IndexError).
Proof.
  intros Hvalue. unfold add_variable_value.
  pose proof (get_input_snd (input_buffer self) variable_name
                (Some period_str)) as Hsnd.
  pose proof (buffer_set_get_input (input_buffer self) variable_name
                (Some period_str)) as Hset.
  destruct (get_input _ _ _) as [b array]. simpl in Hsnd, Hset.
  rewrite <-Hsnd.
  assert (∀ (body : result SimulationBuilder),
            match value with JNull => Ok self | _ => body end = body)
    as -> by (by destruct value).
  destruct array as [array|]; simpl.
  - destruct (check_set_value _ _); simpl; [|done].
    destruct (decide _); [|done]. by rewrite Hset.
  - destruct (get_count _ _); simpl; [|done].
    destruct (check_set_value _ _); simpl; [|done].
    destruct (decide _); [|done]. by rewrite Hset.
Qed.

(** One value: the builder changes by its buffer only, the value is
    checked and put at the index, and the other cells that hold a value
    keep it. *)
Lemma add_variable_value_spec self e v i id p x self' :
  add_variable_value self e v i id p x = Ok self' →
  self' = set_input_buffer (input_buffer self') self
  ∧ (x ≠ JNull →
     ∃ y, check_set_value v x = CheckedValue y
          ∧ cell (input_buffer self') v (Some p) i = Some y)
  ∧ (∀ v' p' j z,
       cell (input_buffer self) v' p' j = Some z →
       ¬ (v' = v ∧ p' = Some p ∧ j = i) →
       cell (input_buffer self') v' p' j = Some z).
Proof.
  assert (x = JNull ∨ x ≠ JNull) as [->|Hx]
    by (destruct x; (by left) || (by right)).
  { intros [= <-]. by rewrite set_input_buffer_input_buffer. }
  rewrite add_variable_value_not_null by done.
  destruct (match buffer_get _ _ _ with Some _ => _ | None => _ end)
    as [array|] eqn:Harray; simpl; [|done].
  destruct (check_set_value v x) as [y|]; simpl; [|done].
  destruct (decide _) as [Hlt|]; [|done]. intros [= <-]. simpl.
  split; [done|]. split.
  - intros _. exists y. split; [done|].
    rewrite cell_buffer_set, decide_True by done.
    by apply list_lookup_insert_eq.
  - intros v' p' j z Hcell Hne. rewrite cell_buffer_set.
    destruct (decide _) as [[<- <-]|]; [|done].
    rewrite list_lookup_insert_ne by (intros <-; by apply Hne).
    unfold cell in Hcell.
    destruct (buffer_get _ _ _) as [array'|]; [|done].
    by injection Harray as <-.
Qed.

(** The values of an instance, one after the other. *)
Lemma add_variable_values_spec self e i id
    (values : list (string * string * json)) self' :
  foldM (λ self '(v, p, x), add_variable_value self e v i id p x)
        values self = Ok self' →
  self' = set_input_buffer (input_buffer self') self
  ∧ (NoDup values.*1 →
     ∀ v p x, (v, p, x) ∈ values → x ≠ JNull →
       ∃ y, check_set_value v x = CheckedValue y
            ∧ cell (input_buffer self') v (Some p) i = Some y)
  ∧ (∀ v' p' j z,
       cell (input_buffer self) v' p' j = Some z →
       j ≠ i ∨ (∀ p, p' = Some p → (v', p) ∉ values.*1) →
       cell (input_buffer self') v' p' j = Some z).
Proof.
  revert self. induction values as [|[[v p] x] values IH]; intros self.
  { intros [= <-]. rewrite set_input_buffer_input_buffer.
    split; [done|]. split; [|done]. by intros _ v p x ?%elem_of_nil. }
  rewrite foldM_cons.
  destruct (add_variable_value self e v i id p x) as [self1|] eqn:Hfirst;
    simpl; [|done].
  apply add_variable_value_spec in Hfirst as (Hframe1 & Hvalue1 & Hkeep1).
  intros (Hframe & Hvalues & Hkeep)%IH.
  split; [|split].
  - rewrite Hframe, Hframe1. done.
  - intros [Hfresh Hdup]%NoDup_cons v' p' x'
      [[= -> -> ->]|Hin]%elem_of_cons Hx; [|by apply Hvalues].
    destruct (Hvalue1 Hx) as (y & Hy & Hcell).
    exists y. split; [done|]. apply Hkeep; [done|].
    right. by intros ? [= <-].
  - intros v' p' j z Hcell Hother. apply Hkeep.
    + apply Hkeep1; [done|]. intros (-> & -> & ->).
      destruct Hother as [?|Hother]; [done|].
      apply (Hother p); [done|left].
    + destruct Hother as [?|Hother]; [by left|]. right.
      intros q -> Hq. apply (Hother q); [done|by right].
Qed.

Lemma instance_values_cons default_period variable instance_object :
  instance_values default_period (variable :: instance_object)
  = instance_values default_period [variable]
    ++ instance_values default_period instance_object.
Proof.
  unfold instance_values. rewrite !bind_cons. simpl.
  by rewrite app_nil_r.
Qed.

Lemma init_variable_values_cons self e variable instance_object instance_id :
  init_variable_values self e (variable :: instance_object) instance_id
  = self1 ← init_variable_values self e [variable] instance_id;
    init_variable_values self1 e instance_object instance_id.
Proof.
  unfold init_variable_values.
  change (variable :: instance_object) with ([variable] ++ instance_object).
  by rewrite foldM_app.
Qed.

(** The values of one variable. *)
Lemma init_variable_values_one self e v values instance_id ids i self' :
  get_ids self (entity_plural e) = Ok ids →
  list_index instance_id ids = Ok i →
  init_variable_values self e [(v, values)] instance_id = Ok self' →
  foldM (λ self '(v, p, x), add_variable_value self e v i instance_id p x)
        (instance_values (default_period self) [(v, values)]) self
  = Ok self'.
Proof.
  intros Hids Hi. unfold init_variable_values, instance_values.
  rewrite foldM_cons. cbv beta iota.
  destruct (check_variable_defined_for_entity e v); simpl; try done.
  rewrite Hids. simpl. rewrite Hi. simpl. rewrite app_nil_r.
  assert (∀ d self0 self1,
    foldM (λ self '(period, value),
             _ ← match make_period (Some period) with
                 | ParsedPeriod _ => Ok ()
                 | Unparsable text =>
                     Err (SituationParsingError
                            [entity_plural e; instance_id; v]
                            (Collaborator text) None)
                 end;
             add_variable_value self e v i instance_id period value)
          d self0 = Ok self1 →
    foldM (λ self '(v, p, x), add_variable_value self e v i instance_id p x)
          ((λ '(period, value), (v, period, value)) <$> d) self0
    = Ok self1) as Hperiods.
  { induction d as [|[p x] d IHd]; intros self0 self1; [done|].
    rewrite fmap_cons, !foldM_cons.
    destruct (make_period (Some p)); simpl; [|done].
    destruct (add_variable_value self0 e v i instance_id p x); simpl;
      [apply IHd|done]. }
  destruct values as [| | | | | |d];
    try (destruct (default_period self) as [period|]; simpl; [|done];
         destruct (foldM _ [(period, _)] self) as [self1|] eqn:Hfirst;
         simpl; [|done];
         intros [= <-]; by apply (Hperiods [(period, _)])).
  simpl. destruct (foldM _ d self) as [self1|] eqn:Hfirst; simpl; [|done].
  intros [= <-]. by apply Hperiods.
Qed.

(** The two loops of [init_variable_values] as one loop over the values
    that the instance declares. *)
Lemma init_variable_values_flat self e instance_object instance_id ids i
    self' :
  get_ids self (entity_plural e) = Ok ids →
  list_index instance_id ids = Ok i →
  init_variable_values self e instance_object instance_id = Ok self' →
  foldM (λ self '(v, p, x), add_variable_value self e v i instance_id p x)
        (instance_values (default_period self) instance_object) self
  = Ok self'.
Proof.
  revert self.
  induction instance_object as [|[v values] instance_object IH];
    intros self Hids Hi; [done|].
  rewrite init_variable_values_cons.
  destruct (init_variable_values self e [(v, values)] instance_id)
    as [self1|] eqn:Hfirst; simpl; [|done].
  apply (init_variable_values_one _ _ _ _ _ _ _ _ Hids Hi) in Hfirst.
  pose proof (add_variable_values_spec _ _ _ _ _ _ Hfirst) as [Hframe _].
  intros Hrest.
  unfold instance_values in Hfirst. simpl in Hfirst.
  rewrite app_nil_r in Hfirst. rewrite foldM_app, Hfirst. simpl.
  replace (default_period self) with (default_period self1)
    by (by rewrite Hframe).
  apply IH; [by rewrite Hframe|done|done].
Qed.

(** One instance: the frame, the values and the cells of the other
    instances. *)
Lemma init_variable_values_spec self e instance_object instance_id self' :
  init_variable_values self e instance_object instance_id = Ok self' →
  self' = set_input_buffer (input_buffer self') self
  ∧ (NoDup (instance_values (default_period self) instance_object).*1 →
     ∀ v p x,
       (v, p, x) ∈ instance_values (default_period self) instance_object →
       x ≠ JNull →
       ∃ ids i y,
         get_ids self (entity_plural e) = Ok ids
         ∧ list_index instance_id ids = Ok i
         ∧ check_set_value v x = CheckedValue y
         ∧ cell (input_buffer self') v (Some p) i = Some y)
  ∧ (∀ ids v p j z,
       get_ids self (entity_plural e) = Ok ids →
       cell (input_buffer self) v p j = Some z →
       list_index instance_id ids ≠ Ok j →
       cell (input_buffer self') v p j = Some z).
Proof.
  intros Hinit.
  destruct instance_object as [|[v0 values0] instance_object].
  { injection Hinit as <-. rewrite set_input_buffer_input_buffer.
    split; [done|]. split; [|done]. by intros _ v p x ?%elem_of_nil. }
  assert (∃ ids i, get_ids self (entity_plural e) = Ok ids
                   ∧ list_index instance_id ids = Ok i)
    as (ids & i & Hids & Hi).
  { unfold init_variable_values in Hinit. rewrite foldM_cons in Hinit.
    cbv beta iota in Hinit.
    destruct (check_variable_defined_for_entity e v0); simpl in Hinit;
      try done.
    destruct (get_ids self (entity_plural e)) as [ids|] eqn:Hids;
      simpl in Hinit; [|done].
    destruct (list_index instance_id ids) as [i|] eqn:Hi; simpl in Hinit;
      [|done].
    by exists ids, i. }
  apply (init_variable_values_flat _ _ _ _ _ _ _ Hids Hi) in Hinit.
  apply add_variable_values_spec in Hinit as (Hframe & Hvalues & Hkeep).
  split; [done|]. split.
  - intros Hdup v p x Hin Hx.
    destruct (Hvalues Hdup v p x Hin Hx) as (y & Hy & Hcell).
    by exists ids, i, y.
  - intros ids' v p j z Hids' Hcell Hj. apply Hkeep; [done|]. left.
    intros ->. rewrite Hids in Hids'. injection Hids' as <-. done.
Qed.

(** X12. [init_variable_values] changes the builder by its input buffer
    only; when the instance declares each variable and period once, every
    value that is not null is checked and buffered, for its variable and
    its period, at the index of the instance among the identifiers of its
    entity. *)
Theorem init_variable_values_buffered self e instance_object instance_id
    self' :
  init_variable_values self e instance_object instance_id = Ok self' →
  self' = set_input_buffer (input_buffer self') self
  ∧ (NoDup (instance_values (default_period self) instance_object).*1 →
     ∀ v p x,
       (v, p, x) ∈ instance_values (default_period self) instance_object →
       x ≠ JNull →
       ∃ ids i y,
         get_ids self (entity_plural e) = Ok ids
         ∧ list_index instance_id ids = Ok i
         ∧ check_set_value v x = CheckedValue y
         ∧ cell (input_buffer self') v (Some p) i = Some y).
Proof.
  intros (Hframe & Hvalues & _)%init_variable_values_spec. done.
Qed.

(** The loop of [add_person_entity] over the instances. *)
Lemma add_person_instances_spec e ids instances self self' :
  foldM (add_person_instance e) instances self = Ok self' →
  get_ids self (entity_plural e) = Ok ids →
  self' = set_input_buffer (input_buffer self') self
  ∧ (NoDup instances.*1 →
     ∀ instance_id instance_json,
       (instance_id, instance_json) ∈ instances →
       ∃ instance_object,
         instance_json = JDict instance_object
         ∧ (NoDup (instance_values (default_period self)
                     instance_object).*1 →
            ∀ v p x,
              (v, p, x) ∈ instance_values (default_period self)
                            instance_object →
              x ≠ JNull →
              ∃ i y,
                list_index instance_id ids = Ok i
                ∧ check_set_value v x = CheckedValue y
                ∧ cell (input_buffer self') v (Some p) i = Some y))
  ∧ (∀ v p j z,
       cell (input_buffer self) v p j = Some z →
       (∀ instance_id, instance_id ∈ instances.*1 →
                       list_index instance_id ids ≠ Ok j) →
       cell (input_buffer self') v p j = Some z).
Proof.
  revert self.
  induction instances as [|[instance_id instance_json] instances IH];
    intros self.
  { intros [= <-] _. rewrite set_input_buffer_input_buffer.
    split; [done|]. split; [|done]. by intros _ ? ? ?%elem_of_nil. }
  rewrite foldM_cons. unfold add_person_instance at 1, check_type_dict.
  destruct instance_json as [| | | | | |instance_object]; simpl; try done.
  destruct (init_variable_values self e instance_object instance_id)
    as [self1|] eqn:Hfirst; simpl; [|done].
  apply init_variable_values_spec in Hfirst
    as (Hframe1 & Hvalues1 & Hkeep1).
  intros Hrest Hids.
  assert (get_ids self1 (entity_plural e) = Ok ids) as Hids1
    by (by rewrite Hframe1).
  assert (default_period self1 = default_period self) as Hperiod
    by (by rewrite Hframe1).
  destruct (IH _ Hrest Hids1) as (Hframe & Hvalues & Hkeep).
  rewrite Hperiod in Hvalues.
  split; [|split].
  - rewrite Hframe, Hframe1. done.
  - intros [Hfresh Hdup]%NoDup_cons instance_id' instance_json'
      [[= -> ->]|Hin]%elem_of_cons; [|by apply Hvalues].
    exists instance_object. split; [done|]. intros Hdup' v p x Hvalue Hx.
    destruct (Hvalues1 Hdup' v p x Hvalue Hx)
      as (ids' & i & y & Hids' & Hi & Hy & Hcell).
    rewrite Hids in Hids'. injection Hids' as <-.
    exists i, y. split; [done|]. split; [done|].
    apply Hkeep; [done|]. intros instance_id' Hin Hi'.
    apply Hfresh. by rewrite (list_index_inj _ _ _ _ Hi Hi').
  - intros v p j z Hcell Hother. apply Hkeep.
    + apply (Hkeep1 ids); [done|done|]. apply Hother. left.
    + intros instance_id' Hin. apply Hother. by right.
Qed.

(** X13. [add_person_entity] records the keys of the document as the
    identifiers of the persons, in their order, and their number, and
    changes nothing else in the builder than the input buffer.  When no
    identifiers are left from an expansion of the axes, it returns these
    keys, and every value that is not null of the person of rank [i] is
    checked and buffered at the index [i] of the array of its variable and
    period. *)
Theorem add_person_entity_buffered self e instances_json self' ids :
  add_person_entity self e instances_json = Ok (self', ids) →
  ∃ instances,
    instances_json = JDict instances
    ∧ self'
      = set_input_buffer (input_buffer self')
          (set_entity_counts
             (<[entity_plural e := length instances]> (entity_counts self))
             (set_entity_ids
                (<[entity_plural e := instances.*1]> (entity_ids self))
                self))
    ∧ (axes_entity_ids self !! entity_plural e = None →
       ids = instances.*1
       ∧ (NoDup instances.*1 →
          ∀ i instance_id instance_json,
            instances !! i = Some (instance_id, instance_json) →
            ∃ instance_object,
              instance_json = JDict instance_object
              ∧ (NoDup (instance_values (default_period self)
                          instance_object).*1 →
                 ∀ v p x,
                   (v, p, x) ∈ instance_values (default_period self)
                                 instance_object →
                   x ≠ JNull →
                   ∃ y, check_set_value v x = CheckedValue y
                        ∧ cell (input_buffer self') v (Some p) i
                          = Some y))).
Proof.
  unfold add_person_entity, check_type_dict.
  destruct instances_json as [| | | | | |instances]; simpl; try done.
  destruct (foldM _ _ _) as [self1|] eqn:Hloop; simpl; [|done].
  destruct (get_ids self1 (entity_plural e)) as [ids1|] eqn:Hids1;
    simpl; [|done].
  intros [= <- <-]. exists instances. split; [done|].
  rewrite length_fmap in Hloop.
  assert (get_ids
            (set_entity_counts
               (<[entity_plural e := length instances]> (entity_counts self))
               (set_entity_ids
                  (<[entity_plural e := instances.*1]> (entity_ids self))
                  self))
            (entity_plural e)
          = Ok (default instances.*1
                        (axes_entity_ids self !! entity_plural e)))
    as Hids0.
  { unfold get_ids, get_or, getitem. simpl. by rewrite lookup_insert_eq. }
  destruct (add_person_instances_spec _ _ _ _ _ Hloop Hids0)
    as (Hframe & Hvalues & _).
  split; [done|]. intros Haxes. rewrite Haxes in Hids0, Hvalues.
  simpl in Hids0, Hvalues.
  rewrite Hframe in Hids1.
  change (get_ids (set_input_buffer ?b ?s) ?n) with (get_ids s n) in Hids1.
  rewrite Hids0 in Hids1. injection Hids1 as <-. split; [done|].
  intros Hdup i instance_id instance_json Hi.
  destruct (Hvalues Hdup instance_id instance_json)
    as (instance_object & -> & Hobject);
    [by eapply list_elem_of_lookup_2|].
  exists instance_object. split; [done|]. intros Hdup' v p x Hvalue Hx.
  destruct (Hobject Hdup' v p x Hvalue Hx) as (i' & y & Hi' & Hy & Hcell).
  exists y. split; [done|].
  replace i with i'; [done|].
  apply (NoDup_lookup instances.*1 i' i instance_id);
    [done|by apply list_index_Ok|].
  by rewrite list_lookup_fmap, Hi.
Qed.

(** *** The role lists of a group entity *)

Lemma foldM_Ok_Forall {A B} (body : B → A → result B) xs acc acc' :
  foldM body xs acc = Ok acc' →
  Forall (λ x, ∃ acc1 acc2, body acc1 x = Ok acc2) xs.
Proof.
  revert acc. induction xs as [|x xs IH]; intros acc; [by constructor|].
  rewrite foldM_cons.
  destruct (body acc x) as [acc1|] eqn:Hx; simpl; [|done].
  intros Hxs%IH. constructor; [by exists acc, acc1|done].
Qed.

(** With distinct role names, the members of an instance that is added
    without exception are the persons of its role lists, which are lists of
    strings. *)
Lemma add_group_instance_role_lists persons_plural persons_ids e ids al
    instance al' :
  NoDup (role_name <$> entity_roles e) →
  add_group_instance persons_plural persons_ids e ids al instance = Ok al' →
  ∃ instance_object,
    instance.2 = JDict instance_object
    ∧ (instance_members e ids instance).*1
      ≡ₚ entity_roles e ≫= (λ role,
           strings_of (role_definition_of instance_object role))
    ∧ ∀ role, role ∈ entity_roles e →
        ∃ l, role_definition_of instance_object role = JList (JStr <$> l).
Proof.
  intros Hnames. destruct instance as [instance_id instance_object].
  unfold add_group_instance, instance_members, check_type_dict.
  destruct instance_object as [| | | | | |instance_object]; simpl; try done.
  pose proof (split_roles_spec e instance_object) as Hsplit.
  pose proof (split_roles_NoDup e instance_object Hnames) as Hroles_json.
  destruct (split_roles e instance_object) as [roles_json variables_json].
  pose proof (roles_split_members _ _ _ Hsplit) as Hperm.
  destruct Hsplit as (_ & Hkeys & _). simpl in Hperm, Hkeys, Hroles_json.
  destruct (foldM (allocate_role _ _ _ _) _ _)
    as [persons_to_allocate|] eqn:Hroles; simpl; [|done].
  destruct (list_index instance_id ids) as [entity_index|];
    simpl; [|done].
  destruct (iter_over_entity_members e roles_json)
    as [members|] eqn:Hmembers; simpl; [|done].
  destruct (foldM (set_member _ _) _ _) as [[memberships' roles']|];
    simpl; [|done].
  destruct (init_variable_values _ _ _ _) as [self'|]; simpl; [|done].
  intros _. exists instance_object. split; [done|].
  apply allocate_roles_spec in Hroles as (Hlists & _).
  apply iter_over_entity_members_snd in Hmembers; [|done|done].
  rewrite (members_assignments _ _ _ Hmembers), Hperm, Hroles_json.
  split.
  - rewrite <-list_fmap_compose, list_fmap_bind. done.
  - intros role Hrole. rewrite Forall_forall in Hlists.
    destruct (Hlists (role_name role,
                      role_definition_of instance_object role))
      as [l Hl]; [|by exists l].
    rewrite Hroles_json.
    by apply (list_elem_of_fmap_2
                (λ role, (role_name role,
                          role_definition_of instance_object role))).
Qed.

Lemma add_group_instances_role_lists persons_plural persons_ids e ids
    instances al al' :
  NoDup (role_name <$> entity_roles e) →
  foldM (add_group_instance persons_plural persons_ids e ids) instances al
  = Ok al' →
  (instances ≫= instance_members e ids).*1 ≡ₚ role_lists e instances
  ∧ ∀ instance_id instance_json role,
      (instance_id, instance_json) ∈ instances →
      role ∈ entity_roles e →
      ∃ instance_object l,
        instance_json = JDict instance_object
        ∧ role_definition_of instance_object role = JList (JStr <$> l).
Proof.
  intros Hnames Hloop%foldM_Ok_Forall.
  induction Hloop as [|instance instances (al1 & al2 & Hinstance) _ IH].
  { split; [done|]. by intros ? ? ? ?%elem_of_nil. }
  destruct IH as [IHperm IHlists].
  destruct (add_group_instance_role_lists _ _ _ _ _ _ _ Hnames Hinstance)
    as (instance_object & Hobject & Hperm & Hlists).
  split.
  - unfold role_lists. rewrite !bind_cons, fmap_app, Hobject.
    by apply Permutation_app.
  - intros instance_id instance_json role
      [Heq|Hin]%elem_of_cons Hrole; [|by eapply IHlists].
    subst instance. simpl in Hobject.
    destruct (Hlists role Hrole) as [l Hl].
    by exists instance_object, l.
Qed.

(** X14. When the names of the roles of the entity are distinct and
    [add_group_entity] returns, every instance is an object, each of its
    role lists is, in strict syntax, a list of strings, and the role lists
    of all the instances, taken together, hold every person of the
    population once and nothing else. *)
Theorem add_group_entity_role_lists self persons_plural persons_ids e
    instances_json self' :
  NoDup (role_name <$> entity_roles e) →
  add_group_entity self persons_plural persons_ids e instances_json
  = Ok self' →
  ∃ instances,
    instances_json = JDict instances
    ∧ NoDup (role_lists e instances)
    ∧ (∀ person_id,
         person_id ∈ role_lists e instances ↔ person_id ∈ persons_ids)
    ∧ ∀ instance_id instance_json role,
        (instance_id, instance_json) ∈ instances →
        role ∈ entity_roles e →
        ∃ instance_object l,
          instance_json = JDict instance_object
          ∧ role_definition_of instance_object role = JList (JStr <$> l).
Proof.
  intros Hnames. unfold add_group_entity, check_type_dict.
  destruct instances_json as [| | | | | |instances]; simpl; try done.
  destruct (foldM _ _ _) as [al|] eqn:Hloop; simpl; [|done].
  destruct (decide _) as [|Hempty%dec_stable]; [done|]. intros _.
  destruct (add_group_instances_spec _ _ _ _ _ _ _ _
              (start_allocation_allocated _ _ _ _) Hloop)
    as [(Hto & Hdup & Hin & _) _].
  destruct (add_group_instances_role_lists _ _ _ _ _ _ _ Hnames Hloop)
    as [Hperm Hlists].
  simpl in Hto, Hdup, Hin. rewrite Hperm in Hdup.
  setoid_rewrite Hperm in Hin.
  exists instances. split; [done|]. split; [done|]. split; [|done].
  intros person_id. split; [apply Hin|]. intros Hperson.
  destruct (decide (person_id ∈ role_lists e instances)) as [|Hleft];
    [done|].
  assert (person_id ∈ al_persons_to_allocate al) as Hto'.
  { rewrite Hto. apply elem_of_difference.
    rewrite !elem_of_list_to_set. by rewrite Hperm. }
  rewrite Hempty in Hto'. by apply elem_of_empty in Hto'.
Qed.

(** *** The variables of the instances of a group entity *)

Lemma add_group_instance_variables persons_plural persons_ids e ids al
    instance_id instance_json al' :
  add_group_instance persons_plural persons_ids e ids al
    (instance_id, instance_json) = Ok al' →
  ∃ instance_object,
    instance_json = JDict instance_object
    ∧ init_variable_values (al_self al) e
        (split_roles e instance_object).2 instance_id
      = Ok (al_self al').
Proof.
  unfold add_group_instance, check_type_dict.
  destruct instance_json as [| | | | | |instance_object]; simpl; try done.
  destruct (split_roles e instance_object)
    as [roles_json variables_json] eqn:Hsplit.
  destruct (foldM (allocate_role _ _ _ _) _ _); simpl; [|done].
  destruct (list_index instance_id ids); simpl; [|done].
  destruct (iter_over_entity_members e roles_json); simpl; [|done].
  destruct (foldM (set_member _ _) _ _); simpl; [|done].
  destruct (init_variable_values _ _ _ _) as [self'|] eqn:Hinit; simpl;
    [|done].
  intros [= <-]. exists instance_object. split; [done|].
  rewrite Hsplit. exact Hinit.
Qed.

(** The loop of [add_group_entity] over the instances, for their
    variables. *)
Lemma add_group_instances_values persons_plural persons_ids e entity_ids
    ids instances al al' :
  foldM (add_group_instance persons_plural persons_ids e entity_ids)
        instances al = Ok al' →
  get_ids (al_self al) (entity_plural e) = Ok ids →
  al_self al' = set_input_buffer (input_buffer (al_self al')) (al_self al)
  ∧ (NoDup instances.*1 →
     ∀ instance_id instance_json,
       (instance_id, instance_json) ∈ instances →
       ∃ instance_object,
         instance_json = JDict instance_object
         ∧ (NoDup (instance_values (default_period (al_self al))
                     (split_roles e instance_object).2).*1 →
            ∀ v p x,
              (v, p, x) ∈ instance_values (default_period (al_self al))
                            (split_roles e instance_object).2 →
              x ≠ JNull →
              ∃ i y,
                list_index instance_id ids = Ok i
                ∧ check_set_value v x = CheckedValue y
                ∧ cell (input_buffer (al_self al')) v (Some p) i = Some y))
  ∧ (∀ v p j z,
       cell (input_buffer (al_self al)) v p j = Some z →
       (∀ instance_id, instance_id ∈ instances.*1 →
                       list_index instance_id ids ≠ Ok j) →
       cell (input_buffer (al_self al')) v p j = Some z).
Proof.
  revert al.
  induction instances as [|[instance_id instance_json] instances IH];
    intros al.
  { intros [= <-] _. rewrite set_input_buffer_input_buffer.
    split; [done|]. split; [|done]. by intros _ ? ? ?%elem_of_nil. }
  rewrite foldM_cons.
  destruct (add_group_instance _ _ _ _ al (instance_id, instance_json))
    as [al1|] eqn:Hfirst; simpl; [|done].
  apply add_group_instance_variables in Hfirst
    as (instance_object & -> & Hfirst).
  apply init_variable_values_spec in Hfirst
    as (Hframe1 & Hvalues1 & Hkeep1).
  intros Hrest Hids.
  assert (get_ids (al_self al1) (entity_plural e) = Ok ids) as Hids1
    by (by rewrite Hframe1).
  assert (default_period (al_self al1) = default_period (al_self al))
    as Hperiod by (by rewrite Hframe1).
  destruct (IH _ Hrest Hids1) as (Hframe & Hvalues & Hkeep).
  rewrite Hperiod in Hvalues.
  split; [|split].
  - rewrite Hframe, Hframe1. done.
  - intros [Hfresh Hdup]%NoDup_cons instance_id' instance_json'
      [[= -> ->]|Hin]%elem_of_cons; [|by apply Hvalues].
    exists instance_object. split; [done|]. intros Hdup' v p x Hvalue Hx.
    destruct (Hvalues1 Hdup' v p x Hvalue Hx)
      as (ids' & i & y & Hids' & Hi & Hy & Hcell).
    rewrite Hids in Hids'. injection Hids' as <-.
    exists i, y. split; [done|]. split; [done|].
    apply Hkeep; [done|]. intros instance_id' Hin Hi'.
    apply Hfresh. by rewrite (list_index_inj _ _ _ _ Hi Hi').
  - intros v p j z Hcell Hother. apply Hkeep.
    + apply (Hkeep1 ids); [done|done|]. apply Hother. left.
    + intros instance_id' Hin. apply Hother. by right.
Qed.

(** X15. When [add_group_entity] returns, the builder differs from the one
    before by the identifiers (the keys of the document, in their order)
    and the number of the instances of the entity, by the two arrays of
    the entity and by the input buffer, and by nothing else.  When no
    identifiers are left from an expansion of the axes, every value that
    is not null of the instance of rank [i], the keys of the roles apart,
    is checked and buffered at the index [i] of the array of its variable
    and period. *)
Theorem add_group_entity_buffered self persons_plural persons_ids e
    instances_json self' :
  add_group_entity self persons_plural persons_ids e instances_json
  = Ok self' →
  ∃ instances group_memberships group_roles,
    instances_json = JDict instances
    ∧ self'
      = set_memberships
          (<[entity_plural e := group_memberships]> (memberships self))
          (set_roles
             (<[entity_plural e := group_roles]> (roles self))
             (set_input_buffer (input_buffer self')
                (set_entity_counts
                   (<[entity_plural e := length instances]>
                      (entity_counts self))
                   (set_entity_ids
                      (<[entity_plural e := instances.*1]>
                         (entity_ids self))
                      self))))
    ∧ (axes_entity_ids self !! entity_plural e = None →
       NoDup instances.*1 →
       ∀ i instance_id instance_json,
         instances !! i = Some (instance_id, instance_json) →
         ∃ instance_object,
           instance_json = JDict instance_object
           ∧ let variables_json :=
               filter (λ kv, kv.1 ∉ role_name <$> entity_roles e)
                      instance_object in
             NoDup (instance_values (default_period self)
                      variables_json).*1 →
             ∀ v p x,
               (v, p, x) ∈ instance_values (default_period self)
                             variables_json →
               x ≠ JNull →
               ∃ y, check_set_value v x = CheckedValue y
                    ∧ cell (input_buffer self') v (Some p) i = Some y).
Proof.
  unfold add_group_entity, check_type_dict.
  destruct instances_json as [| | | | | |instances]; simpl; try done.
  destruct (foldM _ _ _) as [al|] eqn:Hloop; simpl; [|done].
  destruct (decide _) as [|_]; [done|]. intros [= <-].
  exists instances, (al_memberships al), (al_roles al). split; [done|].
  assert (get_ids
            (al_self (start_allocation self persons_ids e instances.*1))
            (entity_plural e)
          = Ok (default instances.*1
                        (axes_entity_ids self !! entity_plural e)))
    as Hids0.
  { unfold get_ids, get_or, getitem. simpl. by rewrite lookup_insert_eq. }
  destruct (add_group_instances_values _ _ _ _ _ _ _ _ Hloop Hids0)
    as (Hframe & Hvalues & _).
  split.
  { rewrite Hframe. unfold start_allocation. simpl.
    by rewrite length_fmap. }
  intros Haxes Hdup i instance_id instance_json Hi.
  rewrite Haxes in Hvalues. simpl in Hvalues.
  destruct (Hvalues Hdup instance_id instance_json)
    as (instance_object & -> & Hobject);
    [by eapply list_elem_of_lookup_2|].
  exists instance_object. split; [done|]. cbv zeta.
  replace (filter (λ kv : string * json,
                     kv.1 ∉ role_name <$> entity_roles e) instance_object)
    with (split_roles e instance_object).2
    by apply split_roles_variables_foldl.
  intros Hdup' v p x Hvalue Hx.
  destruct (Hobject Hdup' v p x Hvalue Hx) as (i' & y & Hi' & Hy & Hcell).
  exists y. split; [done|].
  replace i with i'; [done|].
  apply (NoDup_lookup instances.*1 i' i instance_id);
    [done|by apply list_index_Ok|].
  by rewrite list_lookup_fmap, Hi.
Qed.

(** *** The roles and the memberships of an expanded population *)

Lemma list_times_lookup {A} (l : list A) n k i x :
  k < n → l !! i = Some x →
  list_times l n !! (k * length l + i) = Some x.
Proof.
  intros Hk Hi. pose proof (lookup_lt_Some _ _ _ Hi) as Hlt.
  revert k Hk. induction n as [|n IH]; intros k Hk; [lia|].
  change (S n) with (1 + n). rewrite list_times_add.
  replace (list_times l 1) with l
    by (unfold list_times; simpl; by rewrite app_nil_r).
  destruct k as [|k].
  - simpl. by rewrite lookup_app_l.
  - rewrite lookup_app_r by (simpl; lia).
    replace (S k * length l + i - length l) with (k * length l + i)
      by (simpl; lia).
    apply IH. lia.
Qed.

Lemma np_repeat_seq_lookup j n len k i :
  k < n → i < len →
  np_repeat (seq j n) len !! (k * len + i) = Some (j + k).
Proof.
  intros Hk Hi. unfold np_repeat.
  revert j k Hk. induction n as [|n IH]; intros j k Hk; [lia|].
  simpl. destruct k as [|k].
  - rewrite lookup_app_l by (by rewrite length_replicate).
    rewrite Nat.add_0_r. by apply lookup_replicate_2.
  - rewrite lookup_app_r by (rewrite length_replicate; simpl; lia).
    rewrite length_replicate.
    replace (S k * len + i - len) with (k * len + i) by (simpl; lia).
    rewrite IH by lia. f_equal. lia.
Qed.

Lemma length_np_repeat_seq j n len :
  length (np_repeat (seq j n) len) = n * len.
Proof.
  unfold np_repeat. revert j. induction n as [|n IH]; intros j; [done|].
  simpl. by rewrite length_app, length_replicate, IH.
Qed.

Lemma adjust_memberships_lookup original_memberships axis_count step k i x :
  k < axis_count → original_memberships !! i = Some x →
  adjust_memberships original_memberships axis_count step
    !! (k * length original_memberships + i)
  = Some (x + Z.of_nat (k * step))%Z.
Proof.
  intros Hk Hi. pose proof (lookup_lt_Some _ _ _ Hi) as Hlt.
  unfold adjust_memberships.
  rewrite lookup_zip_with, (list_times_lookup _ _ _ _ _ Hk Hi). simpl.
  by rewrite list_lookup_fmap, np_repeat_seq_lookup.
Qed.

Lemma length_adjust_memberships original_memberships axis_count step :
  length (adjust_memberships original_memberships axis_count step)
  = axis_count * length original_memberships.
Proof.
  unfold adjust_memberships.
  rewrite length_zip_with, length_list_times, length_fmap,
    length_np_repeat_seq. lia.
Qed.

(** X16. In the branch of one group, [expand_axes] gives the entity of the
    first axis the roles and the memberships of its population once for
    each step: the copy of rank [k] of a cell keeps the role, and its
    membership is shifted by [k] times the size of the entity.  An empty
    array of memberships, as for the persons, stays empty. *)
Theorem expand_axes_parallel_memberships self first_axis rest self' :
  axes self = [first_axis :: rest] →
  expand_axes self = Ok self' →
  ∃ e step,
    variable_entities self !! ax_name first_axis = Some e
    ∧ entity_counts self !! entity_plural e = Some step
    ∧ let plural := entity_plural e in
      let n := Z.to_nat (ax_count first_axis) in
      let original_roles := get_roles self plural in
      let original_memberships := get_memberships self plural in
      length (get_roles self' plural) = n * length original_roles
      ∧ (∀ k i role,
           k < n → original_roles !! i = Some role →
           get_roles self' plural !! (k * length original_roles + i)
           = Some role)
      ∧ length (get_memberships self' plural)
        = n * length original_memberships
      ∧ (∀ k i x,
           k < n → original_memberships !! i = Some x →
           get_memberships self' plural
             !! (k * length original_memberships + i)
           = Some (x + Z.of_nat (k * step))%Z)
      ∧ (original_memberships = [] → get_memberships self' plural = []).
Proof.
  intros Haxes Hexpand.
  destruct (expand_axes_parallel_inv _ _ _ _ Haxes Hexpand)
    as (e & step & ids & b & He & Hstep & _ & _ & _ & ->).
  exists e, step. split; [done|]. split; [done|]. cbv zeta.
  change (get_roles (set_axes_entity_counts ∅ self) (entity_plural e))
    with (get_roles self (entity_plural e)).
  assert (get_roles
            (parallel_expansion (set_axes_entity_counts ∅ self) first_axis e
               step ids b) (entity_plural e)
          = list_times (get_roles self (entity_plural e))
              (Z.to_nat (ax_count first_axis))) as ->.
  { unfold get_roles at 1, parallel_expansion. simpl.
    by rewrite lookup_insert_eq. }
  assert (get_memberships
            (parallel_expansion (set_axes_entity_counts ∅ self) first_axis e
               step ids b) (entity_plural e)
          = if decide (length (get_memberships self (entity_plural e)) = 0)
            then get_memberships self (entity_plural e)
            else adjust_memberships (get_memberships self (entity_plural e))
                   (Z.to_nat (ax_count first_axis)) step) as ->.
  { unfold get_memberships at 1, parallel_expansion. simpl.
    change (get_memberships (set_axes_entity_counts ∅ self)
              (entity_plural e))
      with (get_memberships self (entity_plural e)).
    destruct (decide _); [done|]. by rewrite lookup_insert_eq. }
  split; [apply length_list_times|].
  split; [intros k i role; apply list_times_lookup|].
  destruct (decide _) as [Hnil|Hne].
  - apply length_zero_iff_nil in Hnil. rewrite Hnil.
    split; [simpl; lia|]. split; [|done]. by intros k i x _ ?.
  - split; [apply length_adjust_memberships|].
    split; [intros k i x; apply adjust_memberships_lookup|].
    intros Hnil. by rewrite Hnil in Hne.
Qed.

(** X17. In the branch of one group, [expand_axes] expands the entity of
    the first axis only: for any other entity, the size is the one before
    any expansion, and the identifiers, the roles and the memberships are
    those that the builder had. *)
Theorem expand_axes_parallel_other_entities self first_axis rest self' :
  axes self = [first_axis :: rest] →
  expand_axes self = Ok self' →
  ∃ e,
    variable_entities self !! ax_name first_axis = Some e
    ∧ ∀ entity_name,
        entity_name ≠ entity_plural e →
        get_count self' entity_name
        = getitem (entity_counts self) entity_name
        ∧ get_ids self' entity_name = get_ids self entity_name
        ∧ get_roles self' entity_name = get_roles self entity_name
        ∧ get_memberships self' entity_name
          = get_memberships self entity_name.
Proof.
  intros Haxes Hexpand.
  destruct (expand_axes_parallel_inv _ _ _ _ Haxes Hexpand)
    as (e & step & ids & b & He & Hstep & _ & _ & _ & ->).
  exists e. split; [done|]. intros entity_name Hne.
  unfold get_count, get_ids, get_roles, get_memberships, get_or,
    parallel_expansion. simpl.
  rewrite !lookup_insert_ne by done. rewrite lookup_empty.
  split; [by destruct (getitem _ _)|]. split; [done|]. split; [done|].
  destruct (decide _); [done|]. by rewrite lookup_insert_ne.
Qed.

(** *** The inputs that the finaliser sets *)

(** Every input that the loop over the variables sets is the array
    buffered for a variable that has a holder, under the string of a period
    that a key of the buffer of the variable gives. *)
Lemma commit_variables_sound e variables inputs inputs' raised :
  commit_variables e variables inputs = (inputs', raised) →
  ∃ new,
    inputs' = inputs ++ new
    ∧ ∀ variable_name p a,
        (variable_name, p, a) ∈ new →
        get_holder e variable_name = true
        ∧ ∃ buf period_str,
            (variable_name, buf) ∈ variables
            ∧ is_Some (buf !! period_str)
            ∧ make_period period_str = ParsedPeriod p
            ∧ buf !! Some (str_period p) = Some a.
Proof.
  revert inputs.
  induction variables as [|[variable_name buf] variables IH];
    intros inputs; simpl.
  { intros [= <- <-]. exists []. rewrite app_nil_r. split; [done|].
    by intros ? ? ? ?%elem_of_nil. }
  assert (∀ new : list (string * Period * list num),
    (∀ v p a, (v, p, a) ∈ new →
       get_holder e v = true
       ∧ ∃ buf' period_str,
           (v, buf') ∈ variables
           ∧ is_Some (buf' !! period_str)
           ∧ make_period period_str = ParsedPeriod p
           ∧ buf' !! Some (str_period p) = Some a) →
    ∀ v p a, (v, p, a) ∈ new →
       get_holder e v = true
       ∧ ∃ buf' period_str,
           (v, buf') ∈ (variable_name, buf) :: variables
           ∧ is_Some (buf' !! period_str)
           ∧ make_period period_str = ParsedPeriod p
           ∧ buf' !! Some (str_period p) = Some a) as Hweaken.
  { intros new Hnew v p a Hin.
    destruct (Hnew v p a Hin) as (? & buf' & period_str & ? & ?).
    split; [done|]. exists buf', period_str. split; [by right|done]. }
  destruct (get_holder e variable_name) eqn:Hholder.
  - destruct (make_periods _) as [periods|err] eqn:Hperiods.
    + destruct (commit_periods _ _ _ _) as [inputs1 raised1] eqn:Hcommit.
      apply commit_periods_spec in Hcommit
        as (committed & rest & Hsorted & -> & Hsome & _).
      assert (∀ v p a,
        (v, p, a) ∈ input_of variable_name buf <$> committed →
        get_holder e v = true
        ∧ ∃ buf' period_str,
            (v, buf') ∈ (variable_name, buf) :: variables
            ∧ is_Some (buf' !! period_str)
            ∧ make_period period_str = ParsedPeriod p
            ∧ buf' !! Some (str_period p) = Some a) as Hcommitted.
      { intros v p a (q & [= -> -> ->] & Hq)%list_elem_of_fmap.
        split; [done|].
        assert (q ∈ periods) as Hperiod.
        { rewrite <-(sorted_Permutation periods), Hsorted.
          apply elem_of_app. by left. }
        apply mapM_Ok in Hperiods.
        apply list_elem_of_lookup in Hperiod as [i Hi].
        destruct (Forall2_lookup_r _ _ _ _ _ Hperiods Hi)
          as (period_str & Hkey & Hparsed).
        apply list_elem_of_lookup_2, list_elem_of_fmap in Hkey
          as ([period_str' array] & -> & Hkey%elem_of_map_to_list).
        simpl in Hparsed.
        rewrite Forall_forall in Hsome. destruct (Hsome q Hq) as [a Ha].
        exists buf, period_str'. split; [left|].
        split; [by eexists|]. split.
        - by destruct (make_period period_str') as [p'|];
            [injection Hparsed as ->|].
        - by rewrite Ha. }
      destruct raised1 as [err|].
      * intros [= <- <-]. by eexists.
      * intros (new & -> & Hnew)%IH.
        exists ((input_of variable_name buf <$> committed) ++ new).
        split; [by rewrite app_assoc|].
        intros v p a [Hin|Hin]%elem_of_app; [by apply Hcommitted|].
        by apply (Hweaken new).
    + intros [= <- <-]. exists []. rewrite app_nil_r. split; [done|].
      by intros ? ? ? ?%elem_of_nil.
  - intros (new & -> & Hnew)%IH. exists new. split; [done|].
    by apply Hweaken.
Qed.

(** X18. Every input that [finalize_variables_init] sets is, for a
    variable that has a holder in the entity, the array that the builder
    has buffered for this variable under the string of the period, and the
    period is the one that a key of the buffer of the variable gives.
    When it returns, the population has the size and the identifiers of
    [get_count] and [get_ids] if the builder has a size for the entity,
    and the arrays of [get_memberships] and [get_roles] if it has
    memberships for it; otherwise the population keeps its own. *)
Theorem finalize_sets_buffered_arrays self pop pop' raised :
  finalize_variables_init self pop = (pop', raised) →
  let plural := entity_plural (pop_entity pop) in
  (∃ new,
     pop_inputs pop' = pop_inputs pop ++ new
     ∧ ∀ variable_name p a,
         (variable_name, p, a) ∈ new →
         get_holder (pop_entity pop) variable_name = true
         ∧ ∃ buf period_str,
             input_buffer self !! variable_name = Some buf
             ∧ is_Some (buf !! period_str)
             ∧ make_period period_str = ParsedPeriod p
             ∧ buf !! Some (str_period p) = Some a)
  ∧ (raised = None →
     (if entity_counts self !! plural is Some _
      then ∃ count ids,
             get_count self plural = Ok count
             ∧ get_ids self plural = Ok ids
             ∧ pop_count pop' = Some count
             ∧ pop_ids pop' = Some ids
      else pop_count pop' = pop_count pop ∧ pop_ids pop' = pop_ids pop)
     ∧ (if memberships self !! plural is Some _
        then pop_members_entity_id pop'
             = Some (get_memberships self plural)
             ∧ pop_members_role pop' = Some (get_roles self plural)
        else pop_members_entity_id pop' = pop_members_entity_id pop
             ∧ pop_members_role pop' = pop_members_role pop)).
Proof.
  unfold finalize_variables_init. cbv zeta.
  destruct (entity_counts self !! _) as [n|].
  - destruct (get_count self _) as [c|err]; simpl.
    + destruct (get_ids self _) as [ids|err]; simpl.
      * destruct (memberships self !! _) as [m|];
          destruct (commit_variables _ _ _) as [inputs raised'] eqn:Hcommit;
          intros [= <- <-]; simpl;
          apply commit_variables_sound in Hcommit as (new & -> & Hnew);
          (split; [|intros _; split; [by exists c, ids|done]]);
          exists new; (split; [done|]);
          intros v p a Hin;
          destruct (Hnew v p a Hin)
            as (? & buf & period_str & ?%elem_of_map_to_list & ?);
          (split; [done|]); by exists buf, period_str.
      * intros [= <- <-]. simpl. split; [|done]. exists [].
        rewrite app_nil_r. split; [done|]. by intros ? ? ? ?%elem_of_nil.
    + intros [= <- <-]. simpl. split; [|done]. exists [].
      rewrite app_nil_r. split; [done|]. by intros ? ? ? ?%elem_of_nil.
  - simpl. destruct (memberships self !! _) as [m|];
      destruct (commit_variables _ _ _) as [inputs raised'] eqn:Hcommit;
      intros [= <- <-]; simpl;
      apply commit_variables_sound in Hcommit as (new & -> & Hnew);
      (split; [|done]); exists new; (split; [done|]);
      intros v p a Hin;
      destruct (Hnew v p a Hin)
        as (? & buf & period_str & ?%elem_of_map_to_list & ?);
      (split; [done|]); by exists buf, period_str.
Qed.

(** *** The sizes of the perpendicular groups *)

Lemma group_sizes_spec self groups n0 (m0 : gmap string nat) n m :
  foldM (group_size (set_axes_entity_counts ∅ self)) groups (n0, m0)
  = Ok (n, m) →
  (∀ k x, m0 !! k = Some x → entity_counts self !! k = Some x) →
  n = n0 * steps_of groups
  ∧ (∀ k x, m !! k = Some x → entity_counts self !! k = Some x)
  ∧ (∀ k, is_Some (m0 !! k) → is_Some (m !! k))
  ∧ Forall (λ parallel_axes,
              ∃ first_axis rest e,
                parallel_axes = first_axis :: rest
                ∧ variable_entities self !! ax_name first_axis = Some e
                ∧ is_Some (m !! entity_plural e)) groups.
Proof.
  revert n0 m0.
  induction groups as [|parallel_axes groups IH]; intros n0 m0.
  { intros [= <- <-] Hgood. unfold steps_of. simpl.
    split; [lia|]. split; [done|]. split; [done|]. constructor. }
  rewrite foldM_cons.
  destruct (group_size _ (n0, m0) parallel_axes) as [[n1 m1]|] eqn:Hsize;
    simpl; [|done].
  unfold group_size in Hsize.
  destruct parallel_axes as [|first_axis rest]; simpl in Hsize; [done|].
  unfold get_variable_entity, getitem in Hsize. simpl in Hsize.
  destruct (variable_entities self !! ax_name first_axis) as [e|] eqn:He;
    simpl in Hsize; [|done].
  rewrite get_count_reset in Hsize. unfold getitem in Hsize.
  destruct (entity_counts self !! entity_plural e) as [base|] eqn:Hbase;
    simpl in Hsize; [|done].
  injection Hsize as <- <-.
  intros Hrest Hgood.
  apply IH in Hrest as (-> & Hgood' & Hkept & Hgroups).
  - split; [unfold steps_of; simpl; by rewrite Nat.mul_assoc|].
    split; [done|]. split.
    + intros k Hk. apply Hkept.
      destruct (decide (entity_plural e = k)) as [<-|Hne].
      * rewrite lookup_insert_eq. by eexists.
      * by rewrite lookup_insert_ne.
    + constructor; [|done]. exists first_axis, rest, e.
      split; [done|]. split; [done|]. apply Hkept.
      rewrite lookup_insert_eq. by eexists.
  - intros k x. destruct (decide (entity_plural e = k)) as [<-|Hne].
    + rewrite lookup_insert_eq. by intros [= <-].
    + rewrite lookup_insert_ne by done. apply Hgood.
Qed.

Lemma group_plans_spec self steps_count entity_sizes groups plans :
  mapM (group_plan self steps_count entity_sizes) groups = Ok plans →
  Forall2 (λ group plan,
             ∃ first_axis rest e step,
               group.1 = first_axis :: rest
               ∧ variable_entities self !! ax_name first_axis = Some e
               ∧ entity_sizes !! entity_plural e = Some step
               ∧ plan.2 = (entity_plural e, steps_count * step))
          groups plans.
Proof.
  intros Hplans%mapM_Ok. eapply Forall2_impl; [exact Hplans|].
  intros [parallel_axes mesh] plan. unfold group_plan. simpl.
  destruct parallel_axes as [|first_axis rest]; simpl; [done|].
  unfold get_variable_entity, getitem.
  destruct (variable_entities self !! ax_name first_axis) as [e|] eqn:He;
    simpl; [|done].
  destruct (entity_sizes !! entity_plural e) as [step|] eqn:Hstep;
    simpl; [|done].
  destruct (entity_ids self !! entity_plural e); simpl; [|done].
  intros [= <-]. by exists first_axis, rest, e, step.
Qed.

Lemma foldl_insert_counts_ne {A} (plans : list (A * (string * nat)))
    (counts : gmap string nat) k :
  k ∉ plans.*2.*1 →
  foldl (λ counts plan, <[plan.2.1 := plan.2.2]> counts) counts plans !! k
  = counts !! k.
Proof.
  revert counts. induction plans as [|plan plans IH]; intros counts;
    [done|].
  simpl. intros [Hne Hk]%not_elem_of_cons.
  rewrite IH by done. by rewrite lookup_insert_ne.
Qed.

Lemma foldl_insert_counts {A} (size : string → nat)
    (plans : list (A * (string * nat))) (counts : gmap string nat) k :
  Forall (λ plan, plan.2.2 = size plan.2.1) plans →
  k ∈ plans.*2.*1 →
  foldl (λ counts plan, <[plan.2.1 := plan.2.2]> counts) counts plans !! k
  = Some (size k).
Proof.
  revert counts. induction plans as [|plan plans IH]; intros counts;
    [by intros _ ?%elem_of_nil|].
  simpl. intros [Hplan Hplans]%Forall_cons Hk.
  destruct (decide (k ∈ plans.*2.*1)) as [Hin|Hout]; [by apply IH|].
  apply elem_of_cons in Hk as [->|?]; [|done].
  rewrite foldl_insert_counts_ne by done.
  by rewrite lookup_insert_eq, Hplan.
Qed.

(** X19. In the branch of the perpendicular groups, when [expand_axes]
    returns, every group has a first axis, and the size that [get_count]
    gives for the entity of this axis is the size of the entity before any
    expansion times the product of the counts of the first axes of all the
    groups. *)
Theorem expand_axes_perpendicular_counts self self' :
  (∀ first_axis rest, axes self ≠ [first_axis :: rest]) →
  expand_axes self = Ok self' →
  ∀ parallel_axes,
    parallel_axes ∈ axes self →
    ∃ first_axis rest e base,
      parallel_axes = first_axis :: rest
      ∧ variable_entities self !! ax_name first_axis = Some e
      ∧ entity_counts self !! entity_plural e = Some base
      ∧ get_count self' (entity_plural e)
        = Ok (steps_of (axes self) * base).
Proof.
  intros Hshape Hexpand parallel_axes Hgroup.
  destruct (expand_axes_plan _ _ Hexpand)
    as (jobs & counts & Hplan & _ & (_ & _ & Hsizes & _) & Hcounts).
  destruct (expand_axes_perpendicular_unfold self Hshape) as [_ Hunfold].
  rewrite Hunfold in Hplan. clear Hunfold.
  destruct (mapM _ (axes self)) as [axes_linspaces|] eqn:Hlinspaces;
    simpl in Hplan; [|done].
  destruct (foldM (group_size _) _ _) as [[steps sizes]|] eqn:Hgroups;
    simpl in Hplan; [|done].
  destruct (mapM (group_plan self steps sizes) _) as [plans|] eqn:Hplans;
    simpl in Hplan; [|done].
  injection Hplan as _ <-.
  apply group_sizes_spec in Hgroups as (-> & Hgood & _ & Hfirst);
    [|by intros k x; rewrite lookup_empty].
  rewrite Nat.mul_1_l in Hplans.
  rewrite Forall_forall in Hfirst.
  destruct (Hfirst parallel_axes Hgroup)
    as (first_axis & rest & e & -> & He & [base Hbase]).
  exists first_axis, rest, e, base.
  split; [done|]. split; [done|]. split; [by apply Hgood|].
  apply group_plans_spec in Hplans.
  assert (length (meshgrid_flat axes_linspaces) = length (axes self))
    as Hlength.
  { unfold meshgrid_flat. rewrite length_imap.
    apply mapM_Ok, Forall2_length in Hlinspaces. done. }
  apply list_elem_of_lookup in Hgroup as [i Hi].
  destruct (lookup_lt_is_Some_2 (meshgrid_flat axes_linspaces) i)
    as [mesh Hmesh];
    [rewrite Hlength; by eapply lookup_lt_Some|].
  assert (zip (axes self) (meshgrid_flat axes_linspaces) !! i
          = Some (first_axis :: rest, mesh)) as Hzip.
  { apply lookup_zip_with_Some. by exists (first_axis :: rest), mesh. }
  destruct (Forall2_lookup_l _ _ _ _ _ Hplans Hzip)
    as (plan & Hplan & first_axis' & rest' & e' & step & [= <- <-] & He'
        & Hstep & Hplan2).
  rewrite He in He'. injection He' as <-.
  unfold get_count, get_or, getitem.
  rewrite <-Hsizes, (Hgood _ _ Hbase). simpl. rewrite Hcounts.
  rewrite (foldl_insert_counts
             (λ k, steps_of (axes self) * default 0 (sizes !! k))).
  - simpl. by rewrite Hbase.
  - eapply Forall_impl;
      [eapply Forall2_Forall_r; [exact Hplans|]|].
    + apply Forall_true. intros group plan0.
      intros (? & ? & e0 & step0 & _ & _ & Hstep0 & Hplan0). exact
        (ex_intro _ e0 (ex_intro _ step0 (conj Hstep0 Hplan0))).
    + simpl. intros plan0 (e0 & step0 & Hstep0 & ->). simpl.
      by rewrite Hstep0.
  - apply list_elem_of_fmap. exists plan.2. split; [by rewrite Hplan2|].
    apply list_elem_of_fmap_2. by eapply list_elem_of_lookup_2.
Qed.

End Properties.

(** * The properties on the example situations *)

(** C2, as stated, fails: with the persons b, a1 and a and an axis of four
    steps, the persons of rank 1 and 11 are both called a11. *)
Lemma expand_axes_ids_collision :
  let self := persons_builder ["b"; "a1"; "a"] [[salary_axis 4]] in
  ∃ self' ids,
    @expand_axes example_collaborators self = Ok self'
    ∧ get_ids self' "persons" = Ok ids
    ∧ ids !! 1 = Some "a11" ∧ ids !! 11 = Some "a11"
    ∧ ¬ NoDup ids.
Proof.
  intros self. exists (expanded self), (adjust_ids ["b"; "a1"; "a"] 12).
  split; [by vm_compute|]. split; [by vm_compute|].
  split; [by vm_compute|]. split; [by vm_compute|].
  rewrite NoDup_alt. intros Hdup.
  specialize (Hdup 1 11 "a11"). vm_compute in Hdup.
  by specialize (Hdup eq_refl eq_refl).
Qed.

Lemma expand_axes_parallel_ids_witness :
  let self := persons_builder ["bob"] [[salary_axis 3]] in
  axes self = [salary_axis 3 :: []]
  ∧ @expand_axes example_collaborators self = Ok (expanded self)
  ∧ ∃ e step ids,
      variable_entities self !! "salary" = Some e
      ∧ entity_counts self !! entity_plural e = Some step
      ∧ get_ids self (entity_plural e) = Ok ids
      ∧ axes_entity_ids (expanded self) !! entity_plural e
        = Some (adjust_ids ids (3 * step))
      ∧ (length ids = step →
         adjust_ids ids (3 * step)
         = imap (λ i id, id +:+ pretty i) (list_times ids 3))
      ∧ (no_digit_extension ids → NoDup (adjust_ids ids (3 * step))).
Proof.
  intros self.
  split; [reflexivity|]. split; [by vm_compute|].
  apply (@expand_axes_parallel_ids example_collaborators self
           (salary_axis 3) []).
  - reflexivity.
  - by vm_compute.
Defined.

Lemma expand_axes_without_axis_witness :
  axes init = [[]]
  ∧ @expand_axes example_collaborators init = Err IndexError
  ∧ @build_from_entities_axes example_collaborators (Some [[]]) init
    = Err IndexError
  ∧ ∀ path msg code,
      @expand_axes example_collaborators init
      ≠ Err (SituationParsingError path msg code).
Proof.
  split; [reflexivity|].
  apply (@expand_axes_without_axis example_collaborators init).
  reflexivity.
Defined.

(** C8, as stated, fails: the salary declared for the person is an array
    of one element in the buffer, and the write of the three values of
    the axis into it raises. *)
Lemma expand_axes_parallel_declared_value :
  let self := declared_builder [[slot_0_axis]] in
  axes self = [[slot_0_axis]]
  ∧ variable_entities self !! "salary" = Some person
  ∧ get_count self "persons" = Ok 1
  ∧ buffer_get (input_buffer self) "salary" (Some "2018")
    = Some [Fin (Qc_of_Z 1000)]
  ∧ @expand_axes example_collaborators self = Err ValueError
  ∧ @build_from_entities_axes example_collaborators
      (Some [[[slot_0_axis]]]) (declared_builder [[]])
    = Err ValueError.
Proof. repeat split; by vm_compute. Qed.

Lemma expand_axes_parallel_0_50_100_witness :
  (let self := persons_builder ["bob"] [[salary_axis 3]] in
   ∃ self',
     @expand_axes example_collaborators self = Ok self'
     ∧ get_count self' "persons" = Ok 3
     ∧ buffer_get (input_buffer self') "salary" (Some "2018")
       = Some [Fin (Qc_of_Z 0); Fin (Qc_of_Z 50); Fin (Qc_of_Z 100)])
  ∧ @expand_axes example_collaborators (declared_builder [[slot_0_axis]])
    = Err ValueError.
Proof.
  split.
  - intros self.
    apply (proj1 (@expand_axes_parallel_0_50_100 example_collaborators
                    self (salary_axis 3) person "bob"
                    (λ _ size, length_replicate size _)
                    eq_refl eq_refl eq_refl eq_refl eq_refl eq_refl eq_refl
                    eq_refl)).
    intros array. vm_compute. discriminate.
  - apply (proj2 (@expand_axes_parallel_0_50_100 example_collaborators
                    (declared_builder [[slot_0_axis]]) slot_0_axis person
                    "bob" (λ _ size, length_replicate size _)
                    eq_refl eq_refl eq_refl eq_refl eq_refl eq_refl eq_refl
                    eq_refl) [Fin (Qc_of_Z 1000)]).
    + by vm_compute.
    + simpl. lia.
Defined.

(** C5, as stated, fails: without a singular shortcut the document comes
    back unchanged, and the unknown key is still there. *)
Lemma explicit_singular_entities_keeps_unknown_key :
  let tax_benefit_system := [person; household] in
  let input_dict := [("persons", JDict []); ("spaceships", JDict [])] in
  (("spaceships", JDict [])
     ∈ explicit_singular_entities tax_benefit_system input_dict)
  ∧ ("spaceships" ∉ entities_plural tax_benefit_system)
  ∧ entities_by_singular tax_benefit_system "spaceships" = None.
Proof.
  split; [|split].
  - vm_compute. apply list_elem_of_In. right. by left.
  - intros Hin. apply list_elem_of_In in Hin. vm_compute in Hin.
    by destruct Hin as [?|[?|?]].
  - reflexivity.
Qed.

Lemma explicit_singular_entities_canonical_witness :
  let tax_benefit_system := [person; household] in
  let input_dict :=
    [("persons", JDict []); ("household", JDict []);
     ("spaceships", JDict [])] in
  "household" ∈ input_dict.*1
  ∧ is_Some (entities_by_singular tax_benefit_system "household")
  ∧ ∀ kv, kv ∈ explicit_singular_entities tax_benefit_system input_dict →
          canonical_entry tax_benefit_system input_dict kv.
Proof.
  intros tax_benefit_system input_dict.
  assert ("household" ∈ input_dict.*1) as Hin
    by (apply list_elem_of_In; vm_compute; tauto).
  assert (is_Some (entities_by_singular tax_benefit_system "household"))
    as Hsome by (by eexists).
  split; [done|]. split; [done|].
  exact (proj2 (explicit_singular_entities_canonical tax_benefit_system
                  input_dict) "household" Hin Hsome).
Defined.

Lemma finalized_month_first :
  pop_inputs finalized.1
  = [("salary", "2024-01", [Fin (Qc_of_Z 100)]);
     ("salary", "2024", [Fin (Qc_of_Z 1200)])]
  ∧ finalized.2 = None.
Proof. by vm_compute. Qed.

Lemma finalize_sets_smaller_periods_first_witness :
  ∃ new,
    pop_inputs finalized.1 = pop_inputs persons_population ++ new
    ∧ (∀ i j variable_name p q a b,
         new !! i = Some (variable_name, p, a) →
         new !! j = Some (variable_name, q, b) →
         @key_lt example_collaborators (key_period_size p)
           (key_period_size q) = true →
         i < j)
    ∧ (finalized.2 = None →
       ∀ variable_name buf period_str array,
         input_buffer year_and_month_builder !! variable_name = Some buf →
         @get_holder example_collaborators person variable_name = true →
         buf !! period_str = Some array →
         ∃ p a, @make_period example_collaborators period_str
                = ParsedPeriod p
                ∧ buf !! Some (str_period p) = Some a
                ∧ (variable_name, p, a) ∈ new).
Proof.
  apply (@finalize_sets_smaller_periods_first example_collaborators).
  - intros a b Ha Hb. apply Is_true_true in Ha, Hb.
    apply Nat.ltb_lt in Ha, Hb. lia.
  - intros a b c Hac. apply Is_true_true, Nat.ltb_lt in Hac.
    destruct (decide (a < b)) as [Hab|Hab].
    + left. by apply Is_true_true, Nat.ltb_lt.
    + right. apply Is_true_true, Nat.ltb_lt. lia.
  - apply surjective_pairing.
Defined.


(** The arrays of the two axes that do not match, after the expansion. *)
Lemma mismatched_builder_arrays :
  ∃ salaries rents,
    buffer_get (input_buffer (expanded mismatched_builder)) "salary"
               (Some "2018") = Some (Fin <$> salaries)
    ∧ buffer_get (input_buffer (expanded mismatched_builder)) "rent"
                 (Some "2018-01") = Some (Fin <$> rents)
    ∧ salaries = [Qc_of_Z 0; Qc_of_Z 50; Qc_of_Z 100]
    ∧ rents = [Qc_of_Z 500; Qc_of_Z 700; Qc_of_Z 900].
Proof.
  exists (linspace (Qc_of_Z 0) (Qc_of_Z 100) 3),
         (linspace (Qc_of_Z 500) (Qc_of_Z 900) 3).
  split; [by vm_compute|]. split; [by vm_compute|].
  unfold linspace; simpl.
  split; repeat (apply (f_equal2 cons); [by apply Qc_is_canon|]); done.
Qed.

(** C4, as stated, fails: with the salary declared for the person, the
    write of the six values of the first axis into the array of one
    element raises. *)
Lemma expand_axes_perpendicular_declared_value :
  let self :=
    add_perpendicular_axis (rent_axis 3)
      (declared_builder [[salary_axis 2]]) in
  axes self = [[salary_axis 2]; [rent_axis 3]]
  ∧ variable_entities self !! "salary" = Some person
  ∧ variable_entities self !! "rent" = Some person
  ∧ get_count self "persons" = Ok 1
  ∧ buffer_get (input_buffer self) "salary" (Some "2018")
    = Some [Fin (Qc_of_Z 1000)]
  ∧ @expand_axes example_collaborators self = Err ValueError.
Proof. repeat split; by vm_compute. Qed.

Lemma expand_axes_perpendicular_2_3_witness :
  (∃ self' values_a values_b,
     @expand_axes example_collaborators two_axes_builder = Ok self'
     ∧ get_count self' "persons" = Ok 6
     ∧ get_count self' "persons" = Ok 6
     ∧ buffer_get (input_buffer self') "salary" (Some "2018")
       = Some (Fin <$> values_a)
     ∧ buffer_get (input_buffer self') "rent" (Some "2018-01")
       = Some (Fin <$> values_b)
     ∧ zip values_a values_b
       ≡ₚ list_prod (linspace (Qc_of_Z 0) (Qc_of_Z 100) 2)
                    (linspace (Qc_of_Z 500) (Qc_of_Z 900) 3))
  ∧ @expand_axes example_collaborators
      (add_perpendicular_axis (rent_axis 3)
         (declared_builder [[salary_axis 2]]))
    = Err ValueError.
Proof.
  split.
  - apply (proj1 (@expand_axes_perpendicular_2_3 example_collaborators
                    two_axes_builder (salary_axis 2) (rent_axis 3) person
                    person "bob" "bob"
                    (λ _ size, length_replicate size _)
                    eq_refl eq_refl eq_refl eq_refl eq_refl eq_refl eq_refl
                    eq_refl eq_refl eq_refl eq_refl
                    ltac:(discriminate))).
    + intros array. vm_compute. discriminate.
    + intros array. vm_compute. discriminate.
  - apply (proj2 (@expand_axes_perpendicular_2_3 example_collaborators
                    (add_perpendicular_axis (rent_axis 3)
                       (declared_builder [[salary_axis 2]]))
                    (salary_axis 2) (rent_axis 3) person person "bob" "bob"
                    (λ _ size, length_replicate size _)
                    eq_refl eq_refl eq_refl eq_refl eq_refl eq_refl eq_refl
                    eq_refl eq_refl eq_refl eq_refl
                    ltac:(discriminate))
             [Fin (Qc_of_Z 1000)]).
    + left. by vm_compute.
    + simpl. lia.
Defined.

Lemma expand_axes_twice_witness :
  let self := persons_builder ["bob"] [[salary_axis 3; rent_axis 3]] in
  @expand_axes example_collaborators self = Ok (expanded self)
  ∧ ∃ self2,
      @expand_axes example_collaborators (expanded self) = Ok self2
      ∧ (∀ entity_name,
           get_count self2 entity_name
           = get_count (expanded self) entity_name)
      ∧ input_buffer self2 = input_buffer (expanded self).
Proof.
  intros self.
  assert (@expand_axes example_collaborators self = Ok (expanded self))
    as Hexpand by (by vm_compute).
  split; [exact Hexpand|].
  exact (@expand_axes_twice example_collaborators self (expanded self)
           Hexpand).
Defined.

(** The arrays of the households of [family]. *)
Lemma grouped_family_arrays :
  memberships (grouped init family) !! "households" = Some [0; 0; 0; 1]%Z
  ∧ roles (grouped init family) !! "households"
    = Some [Some (mkRole "first_parent" None (Some 1) []);
            Some (mkRole "second_parent" None (Some 1) []);
            Some (mkRole "child" (Some "children") None []);
            Some (mkRole "first_parent" None (Some 1) [])].
Proof. split; by vm_compute. Qed.

Lemma add_group_entity_one_assignment_witness :
  NoDup family_ids
  ∧ @add_group_entity example_collaborators init "persons" family_ids
      household (JDict family) = Ok (grouped init family)
  ∧ ∃ instances entity_memberships entity_roles,
      JDict family = JDict instances
      ∧ memberships (grouped init family) !! entity_plural household
        = Some entity_memberships
      ∧ roles (grouped init family) !! entity_plural household
        = Some entity_roles
      ∧ length entity_memberships = length family_ids
      ∧ length entity_roles = length family_ids
      ∧ ∀ i person_id,
          family_ids !! i = Some person_id →
          ∃ entity_index role,
            filter (λ a, a.1 = person_id)
                   (declared_members household instances)
            = [(person_id, (entity_index, role))]
            ∧ entity_memberships !! i = Some (Z.of_nat entity_index)
            ∧ entity_roles !! i = Some (Some role).
Proof.
  assert (NoDup family_ids) as Hdup
    by (apply (bool_decide_unpack _); by vm_compute).
  assert (@add_group_entity example_collaborators init "persons" family_ids
            household (JDict family) = Ok (grouped init family)) as Hgrouped
    by (by vm_compute).
  split; [exact Hdup|]. split; [exact Hgrouped|].
  exact (@add_group_entity_one_assignment example_collaborators init
           "persons" family_ids household (JDict family)
           (grouped init family) Hdup Hgrouped).
Defined.

(** C7, as stated, fails: [dan] is in no list of a role, and with three
    parents for the two subroles of a parent the exception is an
    [IndexError]; with a parent that is not in the population, it is the
    parsing error of this parent, at the path of the role, which does not
    list [dan]. *)
Lemma add_group_entity_other_exception :
  "dan" ∈ family_ids
  ∧ ¬ referenced household three_parents "dan"
  ∧ @add_group_entity example_collaborators init "persons" family_ids
      household (JDict three_parents) = Err IndexError
  ∧ ¬ referenced household unknown_parent "dan"
  ∧ @add_group_entity example_collaborators init "persons" family_ids
      household (JDict unknown_parent)
    = Err (SituationParsingError ["households"; "h1"; "parents"]
             (UnexpectedValue "zed" "h1" "parents" "persons") None).
Proof.
  split; [apply (bool_decide_unpack _); by vm_compute|].
  split; [|split; [by vm_compute|split; [|by vm_compute]]].
  - apply not_referenced, Forall_singleton. simpl.
    apply Forall_cons; split; [|apply Forall_singleton];
      apply (bool_decide_unpack _); by vm_compute.
  - apply not_referenced, Forall_singleton. simpl.
    apply Forall_cons; split; [|apply Forall_singleton];
      apply (bool_decide_unpack _); by vm_compute.
Qed.

Lemma add_group_entity_unallocated_person_witness :
  "dan" ∈ family_ids
  ∧ ¬ referenced household one_parent "dan"
  ∧ (∃ err, @add_group_entity example_collaborators init "persons"
              family_ids household (JDict one_parent) = Err err)
  ∧ ∀ al,
      foldM (@add_group_instance example_collaborators "persons" family_ids
               household one_parent.*1)
            one_parent
            (@start_allocation example_collaborators init family_ids
               household one_parent.*1)
      = Ok al →
      al_persons_to_allocate al
      = list_to_set family_ids
        ∖ list_to_set (declared_members household one_parent).*1
      ∧ "dan" ∈ al_persons_to_allocate al
      ∧ @add_group_entity example_collaborators init "persons" family_ids
          household (JDict one_parent)
        = Err (SituationParsingError [entity_plural household]
                 (NotMembers (al_persons_to_allocate al) "persons"
                             (entity_key household)) None).
Proof.
  assert ("dan" ∈ family_ids) as Hdan
    by (apply (bool_decide_unpack _); by vm_compute).
  assert (¬ referenced household one_parent "dan") as Hnever.
  { apply not_referenced, Forall_singleton. simpl.
    apply Forall_cons; split; [|apply Forall_singleton];
      apply (bool_decide_unpack _); by vm_compute. }
  split; [exact Hdan|]. split; [exact Hnever|].
  exact (@add_group_entity_unallocated_person example_collaborators init
           "persons" family_ids household one_parent "dan" Hdan Hnever).
Defined.

(** The persons that [one_parent] leaves out are listed. *)
Lemma add_group_entity_one_parent :
  @add_group_entity example_collaborators init "persons" family_ids
    household (JDict one_parent)
  = Err (SituationParsingError ["households"]
           (NotMembers {[ "bob"; "cid"; "dan" ]} "persons" "household")
           None).
Proof. by vm_compute. Qed.

Lemma split_roles_roles_and_variables_witness :
  let instance_object :=
    [("parents", JStr "ann"); ("rent", JInt 700); ("children", JInt 3)] in
  NoDup (role_name <$> entity_roles household)
  ∧ (split_roles household instance_object).2 = [("rent", JInt 700)]
  ∧ (split_roles household instance_object).1
    = [("parents", JList [JStr "ann"]); ("children", JList [JStr "3"])].
Proof.
  intros instance_object.
  assert (NoDup (role_name <$> entity_roles household)) as Hdup
    by (apply (bool_decide_unpack _); by vm_compute).
  destruct (split_roles_roles_and_variables household instance_object)
    as [Hvariables Hroles].
  split; [exact Hdup|]. split.
  - rewrite Hvariables. by vm_compute.
  - rewrite (Hroles Hdup). by vm_compute.
Defined.

Lemma build_from_entities_axes_first_group_witness :
  let self := persons_builder ["bob"] [[]] in
  let axes_json := [[[salary_axis 3]]; [[rent_axis 3]]] in
  axes self = [[]]
  ∧ @build_from_entities_axes example_collaborators (Some axes_json) self
    = @expand_axes example_collaborators
        (set_axes [[salary_axis 3; rent_axis 3]] self).
Proof.
  intros self axes_json. split; [reflexivity|].
  rewrite (@build_from_entities_axes_first_group example_collaborators
             self [] [] axes_json eq_refl).
  reflexivity.
Defined.

Lemma expand_axes_empty_first_group_witness :
  head (axes init) = Some []
  ∧ @expand_axes example_collaborators init = Err IndexError
  ∧ @expand_axes example_collaborators
      (add_perpendicular_axis (salary_axis 3) init) = Err IndexError.
Proof.
  split; [reflexivity|].
  apply (@expand_axes_empty_first_group example_collaborators init
           (salary_axis 3)).
  reflexivity.
Defined.

Lemma person_household_names e e' :
  e ∈ [person; household] → e' ∈ [person; household] →
  entity_plural e ≠ entity_key e'
  ∧ (entity_plural e = entity_plural e' → entity_key e = entity_key e').
Proof.
  intros [->|[->|[]%elem_of_nil]%elem_of_cons]%elem_of_cons
         [->|[->|[]%elem_of_nil]%elem_of_cons]%elem_of_cons; done.
Qed.

Lemma explicit_singular_entities_idempotent_witness :
  let tax_benefit_system := [person; household] in
  explicit_singular_entities tax_benefit_system
    (explicit_singular_entities tax_benefit_system shortcut_document)
  = explicit_singular_entities tax_benefit_system shortcut_document.
Proof.
  intros tax_benefit_system.
  apply (explicit_singular_entities_idempotent tax_benefit_system
           shortcut_document).
  intros e e' He He'. by apply person_household_names.
Defined.

Lemma explicit_singular_entities_shortcut_witness :
  let tax_benefit_system := [person; household] in
  dict_get "households"
    (explicit_singular_entities tax_benefit_system shortcut_document)
  = Some (JDict [("household", JDict [("parents", JList [JStr "bob"])])])
  ∧ dict_get "persons"
      (explicit_singular_entities tax_benefit_system shortcut_document)
    = dict_get "persons" shortcut_document.
Proof.
  intros tax_benefit_system.
  destruct (explicit_singular_entities_shortcut tax_benefit_system
              shortcut_document) as [Hshortcut Hplural].
  { intros e e' He He'. by apply person_household_names. }
  split.
  - exact (Hshortcut "household" household _ eq_refl eq_refl).
  - apply Hplural.
    + apply (bool_decide_unpack _). by vm_compute.
    + apply (bool_decide_unpack _). by vm_compute.
    + intros s e Hs He.
      apply entities_by_singular_key in He as [<- He].
      apply elem_of_cons in He as [->|He];
        [apply (bool_decide_pack _) in Hs; by vm_compute in Hs|].
      apply list_elem_of_singleton in He as ->. done.
Defined.

Lemma build_from_entities_checks_shortcut_witness :
  let tax_benefit_system := [person; household] in
  Exists (λ s, is_Some (entities_by_singular tax_benefit_system s))
         shortcut_document.*1
  ∧ ("axes" ∉ entities_plural tax_benefit_system)
  ∧ build_from_entities_checks tax_benefit_system person
      (JDict (explicit_singular_entities tax_benefit_system
                shortcut_document))
    = Ok (None,
          explicit_singular_entities tax_benefit_system shortcut_document,
          JDict [("bob", JDict [])]).
Proof.
  intros tax_benefit_system.
  assert (Exists (λ s, is_Some (entities_by_singular tax_benefit_system s))
                 shortcut_document.*1) as Hshortcut
    by (apply (bool_decide_unpack _); by vm_compute).
  assert ("axes" ∉ entities_plural tax_benefit_system) as Haxes
    by (apply (bool_decide_unpack _); by vm_compute).
  split; [exact Hshortcut|]. split; [exact Haxes|].
  rewrite (build_from_entities_checks_shortcut tax_benefit_system person
             shortcut_document Hshortcut Haxes).
  reflexivity.
Defined.

Lemma build_from_dict_unexpected_entities_witness :
  let tax_benefit_system := [person; household] in
  build_from_dict
    (λ input_dict,
       build_from_entities_checks tax_benefit_system person
         (JDict input_dict))
    (λ _, Err ValueError) tax_benefit_system plural_document
  = Err (SituationParsingError ["spaceships"]
           (UnexpectedEntities ["spaceships"; "planets"]
              ["persons"; "households"]) None).
Proof.
  intros tax_benefit_system.
  apply (build_from_dict_unexpected_entities (λ _, Err ValueError)
           tax_benefit_system person plural_document).
  - apply (bool_decide_unpack _). by vm_compute.
  - apply (bool_decide_unpack _). by vm_compute.
  - by vm_compute.
Defined.

(** The salaries of [people] in the buffer. *)
Lemma added_persons_salaries :
  (added_persons init).2 = ["ann"; "bob"]
  ∧ buffer_get (input_buffer (added_persons init).1) "salary" (Some "2024")
    = Some [Fin (Qc_of_Z 1200); Fin (Qc_of_Z 900)]
  ∧ buffer_get (input_buffer (added_persons init).1) "salary"
      (Some "2024-01")
    = Some [Fin (Qc_of_Z 100); Fin (Qc_of_Z 0)].
Proof. split; [|split]; by vm_compute. Qed.

Lemma init_variable_values_buffered_witness :
  let self := persons_builder ["ann"; "bob"] [[]] in
  let instance_object := [("salary", JDict [("2024", JInt 900)])] in
  ∃ self',
    @init_variable_values example_collaborators self person instance_object
      "bob" = Ok self'
    ∧ self' = set_input_buffer (input_buffer self') self
    ∧ (NoDup (instance_values (default_period self) instance_object).*1 →
       ∀ v p x,
         (v, p, x) ∈ instance_values (default_period self) instance_object →
         x ≠ JNull →
         ∃ ids i y,
           get_ids self (entity_plural person) = Ok ids
           ∧ list_index "bob" ids = Ok i
           ∧ @check_set_value example_collaborators v x = CheckedValue y
           ∧ cell (input_buffer self') v (Some p) i = Some y).
Proof.
  intros self instance_object.
  destruct (@init_variable_values example_collaborators self person
              instance_object "bob") as [self'|] eqn:Hinit;
    [|by vm_compute in Hinit].
  exists self'. split; [done|].
  exact (@init_variable_values_buffered example_collaborators self person
           instance_object "bob" self' Hinit).
Defined.

Lemma add_person_entity_buffered_witness :
  @add_person_entity example_collaborators init person (JDict people)
  = Ok (added_persons init)
  ∧ ∃ instances,
      JDict people = JDict instances
      ∧ (added_persons init).1
        = set_input_buffer (input_buffer (added_persons init).1)
            (set_entity_counts
               (<[entity_plural person := length instances]>
                  (entity_counts init))
               (set_entity_ids
                  (<[entity_plural person := instances.*1]>
                     (entity_ids init))
                  init))
      ∧ (axes_entity_ids init !! entity_plural person = None →
         (added_persons init).2 = instances.*1
         ∧ (NoDup instances.*1 →
            ∀ i instance_id instance_json,
              instances !! i = Some (instance_id, instance_json) →
              ∃ instance_object,
                instance_json = JDict instance_object
                ∧ (NoDup (instance_values (default_period init)
                            instance_object).*1 →
                   ∀ v p x,
                     (v, p, x) ∈ instance_values (default_period init)
                                   instance_object →
                     x ≠ JNull →
                     ∃ y, @check_set_value example_collaborators v x
                          = CheckedValue y
                          ∧ cell (input_buffer (added_persons init).1) v
                              (Some p) i = Some y))).
Proof.
  assert (@add_person_entity example_collaborators init person
            (JDict people) = Ok (added_persons init)) as Hadded
    by (by vm_compute).
  split; [exact Hadded|].
  destruct (added_persons init) as [self' ids].
  exact (@add_person_entity_buffered example_collaborators init person
           (JDict people) self' ids Hadded).
Defined.

(** The rent of the first household of [family] in the buffer. *)
Lemma grouped_family_rent :
  buffer_get (input_buffer (grouped init family)) "rent" (Some "2024-01")
  = Some [Fin (Qc_of_Z 700); Fin (Qc_of_Z 0)].
Proof. by vm_compute. Qed.

Lemma add_group_entity_role_lists_witness :
  NoDup (role_name <$> entity_roles household)
  ∧ @add_group_entity example_collaborators init "persons" family_ids
      household (JDict family) = Ok (grouped init family)
  ∧ ∃ instances,
      JDict family = JDict instances
      ∧ NoDup (role_lists household instances)
      ∧ (∀ person_id,
           person_id ∈ role_lists household instances
           ↔ person_id ∈ family_ids)
      ∧ ∀ instance_id instance_json role,
          (instance_id, instance_json) ∈ instances →
          role ∈ entity_roles household →
          ∃ instance_object l,
            instance_json = JDict instance_object
            ∧ role_definition_of instance_object role = JList (JStr <$> l).
Proof.
  assert (NoDup (role_name <$> entity_roles household)) as Hnames
    by (apply (bool_decide_unpack _); by vm_compute).
  assert (@add_group_entity example_collaborators init "persons" family_ids
            household (JDict family) = Ok (grouped init family)) as Hgrouped
    by (by vm_compute).
  split; [exact Hnames|]. split; [exact Hgrouped|].
  exact (@add_group_entity_role_lists example_collaborators init "persons"
           family_ids household (JDict family) (grouped init family)
           Hnames Hgrouped).
Defined.

Lemma add_group_entity_buffered_witness :
  @add_group_entity example_collaborators init "persons" family_ids
    household (JDict family) = Ok (grouped init family)
  ∧ ∃ instances group_memberships group_roles,
      JDict family = JDict instances
      ∧ grouped init family
        = set_memberships
            (<[entity_plural household := group_memberships]>
               (memberships init))
            (set_roles
               (<[entity_plural household := group_roles]> (roles init))
               (set_input_buffer (input_buffer (grouped init family))
                  (set_entity_counts
                     (<[entity_plural household := length instances]>
                        (entity_counts init))
                     (set_entity_ids
                        (<[entity_plural household := instances.*1]>
                           (entity_ids init))
                        init))))
      ∧ (axes_entity_ids init !! entity_plural household = None →
         NoDup instances.*1 →
         ∀ i instance_id instance_json,
           instances !! i = Some (instance_id, instance_json) →
           ∃ instance_object,
             instance_json = JDict instance_object
             ∧ let variables_json :=
                 filter (λ kv, kv.1 ∉ role_name <$> entity_roles household)
                        instance_object in
               NoDup (instance_values (default_period init)
                        variables_json).*1 →
               ∀ v p x,
                 (v, p, x) ∈ instance_values (default_period init)
                               variables_json →
                 x ≠ JNull →
                 ∃ y, @check_set_value example_collaborators v x
                      = CheckedValue y
                      ∧ cell (input_buffer (grouped init family)) v
                          (Some p) i = Some y).
Proof.
  assert (@add_group_entity example_collaborators init "persons" family_ids
            household (JDict family) = Ok (grouped init family)) as Hgrouped
    by (by vm_compute).
  split; [exact Hgrouped|].
  exact (@add_group_entity_buffered example_collaborators init "persons"
           family_ids household (JDict family) (grouped init family)
           Hgrouped).
Defined.

(** The memberships of the persons of [family] once the households are
    expanded along the axis of the rent. *)
Lemma households_axis_memberships :
  get_count (expanded households_axis_builder) "households" = Ok 6
  ∧ get_memberships (expanded households_axis_builder) "households"
    = [0; 0; 0; 1; 2; 2; 2; 3; 4; 4; 4; 5]%Z.
Proof. split; by vm_compute. Qed.

Lemma expand_axes_parallel_memberships_witness :
  let self := households_axis_builder in
  axes self = [rent_axis 3 :: []]
  ∧ @expand_axes example_collaborators self = Ok (expanded self)
  ∧ ∃ e step,
      variable_entities self !! ax_name (rent_axis 3) = Some e
      ∧ entity_counts self !! entity_plural e = Some step
      ∧ let plural := entity_plural e in
        let n := Z.to_nat (ax_count (rent_axis 3)) in
        let original_roles := get_roles self plural in
        let original_memberships := get_memberships self plural in
        length (get_roles (expanded self) plural)
        = n * length original_roles
        ∧ (∀ k i role,
             k < n → original_roles !! i = Some role →
             get_roles (expanded self) plural
               !! (k * length original_roles + i)
             = Some role)
        ∧ length (get_memberships (expanded self) plural)
          = n * length original_memberships
        ∧ (∀ k i x,
             k < n → original_memberships !! i = Some x →
             get_memberships (expanded self) plural
               !! (k * length original_memberships + i)
             = Some (x + Z.of_nat (k * step))%Z)
        ∧ (original_memberships = [] →
           get_memberships (expanded self) plural = []).
Proof.
  intros self.
  assert (@expand_axes example_collaborators self = Ok (expanded self))
    as Hexpand by (by vm_compute).
  split; [reflexivity|]. split; [exact Hexpand|].
  exact (@expand_axes_parallel_memberships example_collaborators self
           (rent_axis 3) [] (expanded self) eq_refl Hexpand).
Defined.

Lemma expand_axes_parallel_other_entities_witness :
  let self := households_axis_builder in
  axes self = [rent_axis 3 :: []]
  ∧ @expand_axes example_collaborators self = Ok (expanded self)
  ∧ ∃ e,
      variable_entities self !! ax_name (rent_axis 3) = Some e
      ∧ ∀ entity_name,
          entity_name ≠ entity_plural e →
          get_count (expanded self) entity_name
          = getitem (entity_counts self) entity_name
          ∧ get_ids (expanded self) entity_name = get_ids self entity_name
          ∧ get_roles (expanded self) entity_name
            = get_roles self entity_name
          ∧ get_memberships (expanded self) entity_name
            = get_memberships self entity_name.
Proof.
  intros self.
  assert (@expand_axes example_collaborators self = Ok (expanded self))
    as Hexpand by (by vm_compute).
  split; [reflexivity|]. split; [exact Hexpand|].
  exact (@expand_axes_parallel_other_entities example_collaborators self
           (rent_axis 3) [] (expanded self) eq_refl Hexpand).
Defined.

Lemma finalize_sets_buffered_arrays_witness :
  let self := year_and_month_builder in
  let pop := persons_population in
  let plural := entity_plural (pop_entity pop) in
  (∃ new,
     pop_inputs finalized.1 = pop_inputs pop ++ new
     ∧ ∀ variable_name p a,
         (variable_name, p, a) ∈ new →
         @get_holder example_collaborators (pop_entity pop) variable_name
         = true
         ∧ ∃ buf period_str,
             input_buffer self !! variable_name = Some buf
             ∧ is_Some (buf !! period_str)
             ∧ @make_period example_collaborators period_str
               = ParsedPeriod p
             ∧ buf !! Some (@str_period example_collaborators p) = Some a)
  ∧ (finalized.2 = None →
     (if entity_counts self !! plural is Some _
      then ∃ count ids,
             get_count self plural = Ok count
             ∧ get_ids self plural = Ok ids
             ∧ pop_count finalized.1 = Some count
             ∧ pop_ids finalized.1 = Some ids
      else pop_count finalized.1 = pop_count pop
           ∧ pop_ids finalized.1 = pop_ids pop)
     ∧ (if memberships self !! plural is Some _
        then pop_members_entity_id finalized.1
             = Some (get_memberships self plural)
             ∧ pop_members_role finalized.1 = Some (get_roles self plural)
        else pop_members_entity_id finalized.1 = pop_members_entity_id pop
             ∧ pop_members_role finalized.1 = pop_members_role pop)).
Proof.
  intros self pop plural.
  exact (@finalize_sets_buffered_arrays example_collaborators self pop
           finalized.1 finalized.2
           (surjective_pairing
              (@finalize_variables_init example_collaborators self pop))).
Defined.

Lemma expand_axes_perpendicular_counts_witness :
  let self := two_axes_builder in
  (∀ first_axis rest, axes self ≠ [first_axis :: rest])
  ∧ @expand_axes example_collaborators self = Ok (expanded self)
  ∧ steps_of (axes self) = 6
  ∧ ∀ parallel_axes,
      parallel_axes ∈ axes self →
      ∃ first_axis rest e base,
        parallel_axes = first_axis :: rest
        ∧ variable_entities self !! ax_name first_axis = Some e
        ∧ entity_counts self !! entity_plural e = Some base
        ∧ get_count (expanded self) (entity_plural e)
          = Ok (steps_of (axes self) * base).
Proof.
  intros self.
  assert (∀ first_axis rest, axes self ≠ [first_axis :: rest]) as Hshape
    by (intros first_axis rest; discriminate).
  assert (@expand_axes example_collaborators self = Ok (expanded self))
    as Hexpand by (by vm_compute).
  split; [exact Hshape|]. split; [exact Hexpand|].
  split; [reflexivity|].
  exact (@expand_axes_perpendicular_counts example_collaborators self
           (expanded self) Hshape Hexpand).
Defined.

